(** * Frontend test portal: evaluation surface, course routes and uploads

    A shallow embedding of the parts of the portal that its specification
    makes claims about:

    - [Upload]: the multer [filename] callback of [backend/routes/assets.js];
    - [BulkUpload]: [POST /api/courses/:courseId/levels/:level/questions/bulk];
    - [LevelQuestions]: [GET /api/courses/:courseId/levels/:level/questions];
    - [Feedback]: the encouragement and improvement lists of
      [renderSubmissionDetailBody] in [AdminDashboardNew.jsx];
    - [PreviewFrame]: [updatePreview] of the preview component;
    - [Surface]: the weights and pixel count printed by [README.md] and
      [ChallengeView.jsx];
    - [Aggregator], [Visual]: the score aggregator and the visual
      comparator, which are not part of the sources at hand and are
      modelled from the specification.

    JavaScript objects are finite maps from property names to values,
    arrays are lists, and the JSON files the routes read and write are the
    explicit state threaded through the handlers. *)

From Stdlib Require Import ZArith QArith Qround Lqa Permutation Ascii String.
From stdpp Require Import gmap strings list pretty.

#[local] Open Scope string_scope.
#[local] Open Scope list_scope.
#[local] Open Scope nat_scope.

(** ** JavaScript values *)

Module JS.

(** Values as [JSON.parse] produces them, plus [undefined] and [NaN].
    Numbers are integers here; nothing below depends on fractions. *)
#[warnings="-register-all"]
Inductive jsval : Type :=
  | JUndefined
  | JNull
  | JBool (b : bool)
  | JNum (n : Z)
  | JNaN
  | JStr (s : string)
  | JArr (items : list jsval)
  | JObj (fields : gmap string jsval).

(** An object as a finite map of its own properties. *)
Abbreviation object := (gmap string jsval).

(** [o.k]: a property that is absent reads as [undefined]. *)
Definition get (o : object) (k : string) : jsval :=
  default JUndefined (o !! k).

(** [!!v] *)
Definition truthy (v : jsval) : bool :=
  match v with
  | JUndefined | JNull | JNaN => false
  | JBool b => b
  | JNum n => negb (n =? 0)%Z
  | JStr s => negb (String.eqb s "")
  | JArr _ | JObj _ => true
  end.

(** [a || b] *)
Definition or_else (a b : jsval) : jsval := if truthy a then a else b.

(** [v.k]: reading a property of [undefined] or [null] throws ([None]);
    the keys read below are own properties of plain objects only. *)
Definition member (v : jsval) (k : string) : option jsval :=
  match v with
  | JUndefined | JNull => None
  | JObj fields => Some (get fields k)
  | _ => Some JUndefined
  end.

(** [a === b]. Arrays and objects compare by identity; every array or
    object met below is a fresh result of [JSON.parse], so two of them are
    never the same reference. *)
Definition strict_eq (a b : jsval) : bool :=
  match a, b with
  | JUndefined, JUndefined => true
  | JNull, JNull => true
  | JBool x, JBool y => Bool.eqb x y
  | JNum x, JNum y => (x =? y)%Z
  | JStr x, JStr y => String.eqb x y
  | _, _ => false
  end.

(** SameValueZero, the comparison of [Array.prototype.includes]: as [===]
    except that [NaN] equals itself. *)
Definition same_value_zero (a b : jsval) : bool :=
  match a, b with
  | JNaN, JNaN => true
  | _, _ => strict_eq a b
  end.

(** [arr.includes(v)] *)
Definition includes (arr : list jsval) (v : jsval) : bool :=
  existsb (fun x => same_value_zero x v) arr.

(** [arr.findIndex(p)], [None] standing for [-1]. *)
Fixpoint findIndex {A : Type} (p : A -> bool) (l : list A) : option nat :=
  match l with
  | [] => None
  | x :: r => if p x then Some 0 else S <$> findIndex p r
  end.

(** [arr.find(p)] *)
Fixpoint find {A : Type} (p : A -> bool) (l : list A) : option A :=
  match l with
  | [] => None
  | x :: r => if p x then Some x else find p r
  end.

Lemma strict_eq_eq a b : strict_eq a b = true -> a = b.
Proof.
  destruct a, b; simpl; try discriminate; try reflexivity; intros H.
  - f_equal. by apply Bool.eqb_prop.
  - f_equal. by apply Z.eqb_eq.
  - f_equal. by apply String.eqb_eq.
Qed.

Lemma findIndex_Some {A} (p : A -> bool) l i :
  findIndex p l = Some i ->
  exists x, l !! i = Some x /\ p x = true /\
            forall j y, j < i -> l !! j = Some y -> p y = false.
Proof.
  revert i. induction l as [|a l IH]; intros i; simpl; [discriminate|].
  destruct (p a) eqn:Ha.
  - intros [= <-]. exists a. repeat split; auto. intros j y Hj. lia.
  - destruct (findIndex p l) as [k|] eqn:Hk; simpl; [|discriminate].
    intros [= <-]. destruct (IH k eq_refl) as (x & Hx & Hpx & Hlt).
    exists x. repeat split; auto.
    intros [|j] y Hj; simpl.
    + intros [= <-]. exact Ha.
    + apply Hlt. lia.
Qed.

Lemma findIndex_None_filter {A} (p : A -> bool) l :
  findIndex p l = None -> List.filter p l = [].
Proof.
  induction l as [|a l IH]; simpl; [reflexivity|].
  destruct (p a); [discriminate|].
  destruct (findIndex p l); [discriminate|auto].
Qed.

Lemma findIndex_fmap {A B} (f : A -> B) (p : B -> bool) l :
  findIndex p (f <$> l) = findIndex (fun x => p (f x)) l.
Proof.
  induction l as [|a l IH]; [reflexivity|].
  rewrite fmap_cons. cbn [findIndex].
  destruct (p (f a)); [reflexivity|]. by rewrite IH.
Qed.

Lemma findIndex_app {A} (p : A -> bool) l r :
  findIndex p (l ++ r)
  = match findIndex p l with
    | Some i => Some i
    | None => (fun k => length l + k) <$> findIndex p r
    end.
Proof.
  induction l as [|a l IH]; simpl.
  - by destruct (findIndex p r).
  - destruct (p a); [reflexivity|]. rewrite IH.
    destruct (findIndex p l); [reflexivity|].
    by destruct (findIndex p r).
Qed.



(** What [JSON.parse(JSON.stringify(v))] gives back: a file written with
    [JSON.stringify], and an answer sent with [res.json], hold [null] for
    [NaN] and for [undefined] inside an array, and drop the fields of an
    object that are [undefined]. *)
Fixpoint json (v : jsval) : jsval :=
  match v with
  | JUndefined | JNaN => JNull
  | JArr items => JArr (json <$> items)
  | JObj fields =>
      JObj (omap (fun x => match x with
                           | JUndefined => None
                           | _ => Some (json x)
                           end) fields)
  | _ => v
  end.

Definition json_field (v : jsval) : option jsval :=
  match v with
  | JUndefined => None
  | _ => Some (json v)
  end.

(** An object as it is written. *)
Definition json_object (o : object) : object := omap json_field o.

(** The value read from a field of a written object. *)
Definition json_get (v : jsval) : jsval :=
  match v with
  | JUndefined => JUndefined
  | _ => json v
  end.

Lemma json_JObj (o : object) : json (JObj o) = JObj (json_object o).
Proof. reflexivity. Qed.

Lemma get_json_object (o : object) k :
  get (json_object o) k = json_get (get o k).
Proof.
  unfold get, json_object. rewrite lookup_omap.
  destruct (o !! k) as [v|]; [|reflexivity]. by destruct v.
Qed.

Lemma json_get_truthy v : truthy v = true -> truthy (json_get v) = true.
Proof. by destruct v. Qed.

(** [===] does not tell a value from its written form, [NaN] apart. *)
Lemma strict_eq_json_get x v :
  x <> JNaN -> strict_eq (json_get x) v = strict_eq x v.
Proof. by destruct x. Qed.

End JS.

(** ** Asset upload: the stored file name *)

Module Upload.

#[local] Open Scope N_scope.

(** A JavaScript string is a sequence of UTF-16 code units. *)
Abbreviation code_unit := N.
Abbreviation jsstring := (list code_unit).

(** The code units of a literal of this file. *)
Definition units (s : string) : jsstring :=
  N_of_ascii <$> list_ascii_of_string s.

(** Character classes of the pattern [[a-zA-Z0-9_-]]. *)
Definition is_upper (c : code_unit) : bool := (65 <=? c) && (c <=? 90).
Definition is_lower (c : code_unit) : bool := (97 <=? c) && (c <=? 122).
Definition is_digit (c : code_unit) : bool := (48 <=? c) && (c <=? 57).

Definition hyphen : code_unit := 45.
Definition underscore : code_unit := 95.

Definition allowed (c : code_unit) : bool :=
  is_lower c || is_upper c || is_digit c || (c =? underscore) || (c =? hyphen).

(** [.replace(/[^a-zA-Z0-9_-]/g, '-')]: without the [u] flag the pattern
    is matched against one code unit at a time. *)
Definition replace_unit (c : code_unit) : code_unit :=
  if allowed c then c else hyphen.

Definition replace_disallowed (s : jsstring) : jsstring :=
  replace_unit <$> s.

(** The lower-case form of an ASCII code unit. *)
Definition lower_ascii (c : code_unit) : code_unit :=
  if is_upper c then c + 32 else c.

Section Filename.

(** Node's [path.extname] and [path.basename(p, ext)], and the case
    mapping of [toLowerCase] outside ASCII (which may change the number of
    code units), belong to the platform. *)
Variable path_extname : jsstring -> jsstring.
Variable path_basename : jsstring -> jsstring -> jsstring.
Variable lower_non_ascii : code_unit -> jsstring.

(** [.toLowerCase()] *)
Definition toLowerCase (s : jsstring) : jsstring :=
  c ← s; if c <? 128 then [lower_ascii c] else lower_non_ascii c.

(** [name] of the [filename] callback. *)
Definition stored_base_name (originalname : jsstring) : jsstring :=
  let ext := path_extname originalname in
  toLowerCase (replace_disallowed (path_basename originalname ext)).

(** The name handed to [cb]: [`${name}${ext}`]. *)
Definition filename (originalname : jsstring) : jsstring :=
  stored_base_name originalname ++ path_extname originalname.

End Filename.

(** What a stored base-name character may be: a lowercase letter, a
    digit, a hyphen or an underscore. *)
Definition safe_char (c : code_unit) : Prop :=
  97 <= c <= 122 \/ 48 <= c <= 57 \/ c = hyphen \/ c = underscore.

Definition slash : code_unit := 47.
Definition backslash : code_unit := 92.
Definition dot : code_unit := 46.

Ltac classes :=
  unfold allowed, lower_ascii, is_lower, is_upper, is_digit, safe_char,
    hyphen, underscore, slash, backslash, dot in *;
  repeat match goal with
         | |- context [?a <=? ?b] => destruct (N.leb_spec a b)
         | |- context [?a =? ?b] => destruct (N.eqb_spec a b)
         | |- context [?a <? ?b] => destruct (N.ltb_spec a b)
         end; simpl.

Lemma allowed_spec c :
  allowed c = true ->
  97 <= c <= 122 \/ 65 <= c <= 90 \/ 48 <= c <= 57
  \/ c = underscore \/ c = hyphen.
Proof. classes; intros; try discriminate; lia. Qed.

Lemma replaced_is_ascii c : replace_unit c < 128.
Proof.
  unfold replace_unit. destruct (allowed c) eqn:Ha; [|reflexivity].
  apply allowed_spec in Ha. unfold underscore, hyphen in Ha. lia.
Qed.

Lemma sanitized_char_safe c :
  safe_char (lower_ascii (replace_unit c)).
Proof.
  unfold replace_unit. destruct (allowed c) eqn:Ha.
  - apply allowed_spec in Ha. classes; lia.
  - right. right. left. reflexivity.
Qed.

Lemma safe_char_no_separator c :
  safe_char c -> c <> slash /\ c <> backslash /\ c <> dot.
Proof. classes. lia. Qed.

(** After the replacement every code unit is ASCII, so [toLowerCase]
    works unit by unit. *)
Lemma toLowerCase_replaced lower_non_ascii s :
  toLowerCase lower_non_ascii (replace_disallowed s)
  = (fun c => lower_ascii (replace_unit c)) <$> s.
Proof.
  unfold toLowerCase, replace_disallowed.
  induction s as [|c s IH]; [reflexivity|].
  rewrite !fmap_cons, bind_cons, IH.
  assert (E : (replace_unit c <? 128) = true)
    by apply N.ltb_lt, replaced_is_ascii.
  cbv beta. by rewrite E.
Qed.

Example sanitize_example :
  toLowerCase (fun c => [c]) (replace_disallowed (units "../My Photo (1).final"))
  = units "---my-photo--1--final".
Proof. reflexivity. Qed.

Example sanitize_non_ascii :
  toLowerCase (fun c => [c]) (replace_disallowed [26085; 26412; 65; 47; 98])
  = units "--a-b".
Proof. reflexivity. Qed.

(** C10. Whatever the original name, the stored base name has the length
    of the original base name, keeps each character of [[a-zA-Z0-9_-]]
    (letters lowered) and has a hyphen in the place of every other one; so
    it holds lowercase letters, digits, hyphens and underscores only, and
    in particular no slash, backslash or dot. The file is stored under
    that name followed by the extension. *)
Theorem stored_base_name_sanitized
    (path_extname : jsstring -> jsstring)
    (path_basename : jsstring -> jsstring -> jsstring)
    (lower_non_ascii : code_unit -> jsstring) (originalname : jsstring) :
  let ext := path_extname originalname in
  let base := path_basename originalname ext in
  let name := stored_base_name path_extname path_basename lower_non_ascii
                originalname in
  filename path_extname path_basename lower_non_ascii originalname
    = name ++ ext
  /\ length name = length base
  /\ (forall i c, base !! i = Some c ->
        name !! i = Some (if allowed c then lower_ascii c else hyphen))
  /\ (forall i c, name !! i = Some c ->
        safe_char c /\ c <> slash /\ c <> backslash /\ c <> dot).
Proof.
  intros ext base name. split; [reflexivity|].
  assert (Hname : name = (fun c => lower_ascii (replace_unit c)) <$> base)
    by apply toLowerCase_replaced.
  clearbody name. subst name. split; [by rewrite length_fmap|]. split.
  - intros i c Hc. rewrite list_lookup_fmap, Hc. simpl. f_equal.
    unfold replace_unit. destruct (allowed c); reflexivity.
  - intros i c. rewrite list_lookup_fmap.
    destruct (base !! i) as [b|]; simpl; [|discriminate].
    intros [= <-]. split; [apply sanitized_char_safe|].
    apply safe_char_no_separator, sanitized_char_safe.
Qed.

End Upload.

(** ** What the product surface prints *)

Module Surface.

(** A scored axis of the evaluation. *)
Inductive dimension : Type := structure | visual | content | tag.

Definition dimension_eqb (a b : dimension) : bool :=
  match a, b with
  | structure, structure | visual, visual
  | content, content | tag, tag => true
  | _, _ => false
  end.

(** A table of percentages as a page prints it, row after row. *)
Definition weight_table := list (dimension * Z).

Fixpoint presented_weight (t : weight_table) (d : dimension) : option Z :=
  match t with
  | [] => None
  | (d', w) :: r => if dimension_eqb d' d then Some w else presented_weight r d
  end.

Definition table_total (t : weight_table) : Z :=
  fold_right (fun row acc => (snd row + acc)%Z) 0%Z t.

(** [README.md], section Evaluation Scoring: DOM Score (25%), Visual
    Score (25%), Content Score (25%), Tag Score (25%). *)
Definition README_weights : weight_table :=
  [(structure, 25%Z); (visual, 25%Z); (content, 25%Z); (tag, 25%Z)].

(** [ChallengeView.jsx], the tip under the expected result: DOM Structure
    (40%), Visual Appearance (60%); the Evaluation Process list repeats
    both figures. *)
Definition ChallengeView_weights : weight_table :=
  [(structure, 40%Z); (visual, 60%Z)].

(** [ChallengeView.jsx]: Pixel-by-pixel comparison (921,600 pixels). *)
Definition ChallengeView_pixel_count : Z := 921600.

(** [passingThreshold] of a challenge as the Passing Criteria panel reads
    it: [structure], [visual] and [overall]. *)
Record passingThreshold : Type := {
  pt_structure : Q;
  pt_visual : Q;
  pt_overall : Q
}.

(** The thresholds of the sample questions of the level template in
    [routes/assets.js]. *)
Definition template_threshold : passingThreshold :=
  {| pt_structure := 70; pt_visual := 80; pt_overall := 75 |}.

End Surface.

(** ** Score aggregator *)

Module Aggregator.
Import Surface.

#[local] Open Scope Q_scope.

(** Modelled from the spec: [DimensionScore] of the data model; the score
    aggregator that consumes it is not among the sources. *)
Record DimensionScore : Type := {
  name : dimension;
  score : Q;
  weight : Q;
  dim_passed : bool;
  details : list string
}.

(** Modelled from the spec: [Thresholds], a per-dimension minimum where one
    is configured and an overall minimum. *)
Record Thresholds : Type := {
  perDimension : dimension -> option Q;
  overallMinScore : Q
}.

(** Modelled from the spec: the default weights, 25/25/25/25 unless
    overridden. *)
Definition default_weights : weight_table :=
  [(structure, 25%Z); (visual, 25%Z); (content, 25%Z); (tag, 25%Z)].

(** Modelled from the spec: the sum of [score_i * weight_i / 100]. *)
Definition weighted_sum (scores : list DimensionScore) : Q :=
  fold_right (fun d acc => score d * weight d / 100 + acc) 0 scores.

Definition total_weight (scores : list DimensionScore) : Q :=
  fold_right (fun d acc => weight d + acc) 0 scores.

(** [Math.round]: the nearest integer, halves going up. *)
Definition round (x : Q) : Z := Qfloor (x + (1 # 2)).

Definition clamp (lo hi z : Z) : Z := Z.max lo (Z.min hi z).

(** Modelled from the spec: [finalScore = round(...)], clamped to
    [[0,100]]. *)
Definition finalScore (scores : list DimensionScore) : Z :=
  clamp 0 100 (round (weighted_sum scores)).

(** A dimension meets its configured minimum, or has none. *)
Definition meets (th : Thresholds) (d : DimensionScore) : bool :=
  match perDimension th (name d) with
  | Some m => Qle_bool m (score d)
  | None => true
  end.

(** Modelled from the spec: [passed]. *)
Definition passed (scores : list DimensionScore) (th : Thresholds) : bool :=
  Qle_bool (overallMinScore th) (inject_Z (finalScore scores))
  && forallb (meets th) scores.

Record Verdict : Type := { v_finalScore : Z; v_passed : bool }.

(** Modelled from the spec: [aggregate(scores, thresholds)]. *)
Definition aggregate (scores : list DimensionScore) (th : Thresholds) : Verdict :=
  {| v_finalScore := finalScore scores; v_passed := passed scores th |}.

(** The scores of an evaluation under a table of weights. *)
Definition weigh (t : weight_table) (s : dimension -> Q) : list DimensionScore :=
  map (fun row => {| name := fst row; score := s (fst row);
                     weight := inject_Z (snd row);
                     dim_passed := true; details := [] |}) t.

(** The thresholds a challenge's [passingThreshold] stands for. *)
Definition thresholds_of (pt : passingThreshold) : Thresholds :=
  {| perDimension := fun d => match d with
                              | structure => Some (pt_structure pt)
                              | visual => Some (pt_visual pt)
                              | _ => None
                              end;
     overallMinScore := pt_overall pt |}.

Definition score_in_range (d : DimensionScore) : Prop := 0 <= score d <= 100.

Definition weight_not_negative (d : DimensionScore) : Prop := 0 <= weight d.

(** The scenario of the specification: visual 60, the rest 100, under the
    default weights. *)
Definition scenario (d : dimension) : Q :=
  match d with visual => 60 | _ => 100 end.

Lemma weighted_sum_bounds scores :
  Forall score_in_range scores -> Forall weight_not_negative scores ->
  0 <= weighted_sum scores <= total_weight scores.
Proof.
  induction scores as [|d l IH]; intros Hs Hw; simpl; [lra|].
  inversion Hs as [|? ? [Hs0 Hs1] Hs']; subst.
  inversion Hw as [|? ? Hw0 Hw']; subst.
  unfold weight_not_negative in Hw0.
  destruct (IH Hs' Hw') as [IH0 IH1].
  assert (Ha : 0 <= score d * weight d)
    by (apply Qmult_le_0_compat; assumption).
  assert (Hb : score d * weight d <= 100 * weight d)
    by (apply Qmult_le_compat_r; assumption).
  assert (H0 : 0 <= score d * weight d / 100)
    by (apply Qle_shift_div_l; [reflexivity|lra]).
  assert (H1 : score d * weight d / 100 <= weight d)
    by (apply Qle_shift_div_r; [reflexivity|lra]).
  split; lra.
Qed.

Lemma round_range x : 0 <= x <= 100 -> (0 <= round x <= 100)%Z.
Proof.
  intros [H0 H1]. unfold round. split.
  - change 0%Z with (Qfloor (0 + (1 # 2))).
    apply Qfloor_resp_le, Qplus_le_compat; [exact H0|apply Qle_refl].
  - change 100%Z with (Qfloor (100 + (1 # 2))).
    apply Qfloor_resp_le, Qplus_le_compat; [exact H1|apply Qle_refl].
Qed.

Lemma clamp_range z : (0 <= clamp 0 100 z <= 100)%Z.
Proof. unfold clamp. lia. Qed.

Lemma clamp_id z : (0 <= z <= 100)%Z -> clamp 0 100 z = z.
Proof. unfold clamp. lia. Qed.

Example scenario_default_weights :
  finalScore (weigh default_weights scenario) = 90%Z.
Proof. reflexivity. Qed.

Example scenario_ChallengeView_weights :
  finalScore (weigh ChallengeView_weights scenario) = 76%Z.
Proof. reflexivity. Qed.

(** C2. With every dimension score in [[0,100]] and weights that sum to
    100, the final score is the rounded weighted sum clamped to [[0,100]],
    and it lies in [[0,100]]. When no weight is negative the rounded sum
    is in [[0,100]] by itself, and the clamp cuts nothing. *)
Theorem finalScore_in_range (scores : list DimensionScore) :
  Forall score_in_range scores ->
  total_weight scores == 100 ->
  finalScore scores = clamp 0 100 (round (weighted_sum scores))
  /\ (0 <= finalScore scores <= 100)%Z
  /\ (Forall weight_not_negative scores ->
      finalScore scores = round (weighted_sum scores)).
Proof.
  intros Hr Hw. split; [reflexivity|]. split; [apply clamp_range|].
  intros Hn. destruct (weighted_sum_bounds scores Hr Hn) as [H0 H1].
  rewrite Hw in H1. unfold finalScore. apply clamp_id, round_range. by split.
Qed.

(** The scenario of the specification meets the hypotheses of C2. *)
Lemma finalScore_in_range_witness :
  let scores := weigh default_weights scenario in
  Forall score_in_range scores /\ total_weight scores == 100
  /\ (0 <= finalScore scores <= 100)%Z.
Proof.
  intros scores.
  assert (Hr : Forall score_in_range scores).
  { repeat constructor; vm_compute; discriminate. }
  assert (Hw : total_weight scores == 100) by reflexivity.
  split; [exact Hr|]. split; [exact Hw|].
  exact (proj1 (proj2 (finalScore_in_range scores Hr Hw))).
Defined.

(** C3. The verdict of the aggregator is passed exactly when the final
    score reaches the overall minimum and every dimension for which a
    minimum is configured scores at least that minimum. *)
Theorem passed_iff (scores : list DimensionScore) (th : Thresholds) :
  v_passed (aggregate scores th) = true <->
  overallMinScore th <= inject_Z (v_finalScore (aggregate scores th))
  /\ (forall d m, In d scores -> perDimension th (name d) = Some m ->
        m <= score d).
Proof.
  simpl. unfold passed. rewrite andb_true_iff, Qle_bool_iff, forallb_forall.
  split; intros [Ho Hd]; (split; [exact Ho|]).
  - intros d m Hin Hm. specialize (Hd d Hin). unfold meets in Hd.
    rewrite Hm in Hd. by apply Qle_bool_iff.
  - intros d Hin. unfold meets.
    destruct (perDimension th (name d)) as [m|] eqn:Hm; [|reflexivity].
    apply Qle_bool_iff. by apply (Hd d m).
Qed.

Example template_pass :
  v_passed (aggregate (weigh default_weights scenario)
              (thresholds_of template_threshold)) = false
  /\ v_passed (aggregate (weigh default_weights (fun _ => 100))
                (thresholds_of template_threshold)) = true.
Proof. split; reflexivity. Qed.

(** C1. The README prints the default 25/25/25/25 over four dimensions, but
    the challenge page prints 40% for structure and 60% for visual and no
    weight at all for content and tag; on the scenario of the
    specification the two weightings give 90 and 76. *)
Theorem ChallengeView_weights_not_default :
  README_weights = default_weights
  /\ (forall d, presented_weight default_weights d = Some 25%Z)
  /\ presented_weight ChallengeView_weights structure = Some 40%Z
  /\ presented_weight ChallengeView_weights visual = Some 60%Z
  /\ presented_weight ChallengeView_weights content = None
  /\ presented_weight ChallengeView_weights tag = None
  /\ table_total default_weights = 100%Z
  /\ table_total ChallengeView_weights = 100%Z
  /\ finalScore (weigh default_weights scenario) = 90%Z
  /\ finalScore (weigh ChallengeView_weights scenario) = 76%Z.
Proof.
  split; [reflexivity|]. split; [intros []; reflexivity|].
  repeat split; reflexivity.
Qed.

End Aggregator.

(** ** Visual comparator *)

Module Visual.

(** Modelled from the spec: the fixed viewport of the render service,
    960 by 960; the render service is not among the sources. *)
Definition viewport_width : Z := 960.
Definition viewport_height : Z := 960.

Record pixel : Type := { red : Z; green : Z; blue : Z }.

(** Modelled from the spec: [PixelBuffer(width, height)], the screenshot of
    a render artifact. *)
Record PixelBuffer : Type := {
  width : Z;
  height : Z;
  pixel_at : Z -> Z -> pixel
}.

Definition totalPixelCount (b : PixelBuffer) : Z := width b * height b.

(** The buffers the render service produces. *)
Definition at_viewport (b : PixelBuffer) : Prop :=
  width b = viewport_width /\ height b = viewport_height.

Inductive visual_error : Type := DimensionMismatch.

Section Compare.

(** The per-channel tolerance and the neighbour check that forgives
    anti-aliased pixels are configuration of the comparator. *)
Variable tolerance : Z.
Variable antialiased : PixelBuffer -> PixelBuffer -> Z -> Z -> bool.

Definition channel_delta (p q : pixel) : Z :=
  Z.max (Z.abs (red p - red q))
    (Z.max (Z.abs (green p - green q)) (Z.abs (blue p - blue q))).

Definition mismatched (c e : PixelBuffer) (x y : Z) : bool :=
  (tolerance <? channel_delta (pixel_at c x y) (pixel_at e x y))%Z
  && negb (antialiased c e x y).

(** The coordinates of a buffer, row after row. *)
Definition coordinates (b : PixelBuffer) : list (Z * Z) :=
  y ← seqZ 0 (height b); (fun x => (x, y)) <$> seqZ 0 (width b).

Definition mismatchedPixelCount (c e : PixelBuffer) : Z :=
  Z.of_nat (length (filter (fun xy => Is_true (mismatched c e xy.1 xy.2))
                      (coordinates e))).

(** Modelled from the spec: [100 * (1 - mismatched / total)], floor 0. *)
Definition visual_score (mismatch total : Z) : Q :=
  let s := (100 * (1 - inject_Z mismatch / inject_Z total))%Q in
  if Qle_bool 0 s then s else 0%Q.

(** Modelled from the spec: [compareVisual]; buffers of different
    resolution are refused. *)
Definition compareVisual (c e : PixelBuffer) : visual_error + Q :=
  if (width c =? width e)%Z && (height c =? height e)%Z
  then inr (visual_score (mismatchedPixelCount c e) (totalPixelCount e))
  else inl DimensionMismatch.

End Compare.

Definition blank (w h : Z) : PixelBuffer :=
  {| width := w; height := h;
     pixel_at := fun _ _ => {| red := 255; green := 255; blue := 255 |} |}.

(** C7. The fixed viewport has 960 * 960 = 921600 pixels, the count the
    challenge page prints; every comparison of two buffers rendered at
    that viewport is accepted and divides by 921600. *)
Theorem totalPixelCount_viewport
    (tolerance : Z) (antialiased : PixelBuffer -> PixelBuffer -> Z -> Z -> bool)
    (c e : PixelBuffer) :
  at_viewport c -> at_viewport e ->
  (viewport_width * viewport_height)%Z = 921600%Z
  /\ Surface.ChallengeView_pixel_count = (viewport_width * viewport_height)%Z
  /\ totalPixelCount c = 921600%Z
  /\ totalPixelCount e = 921600%Z
  /\ compareVisual tolerance antialiased c e
     = inr (visual_score (mismatchedPixelCount tolerance antialiased c e)
              921600).
Proof.
  intros [Hcw Hch] [Hew Heh].
  assert (Hc : totalPixelCount c = 921600%Z)
    by (unfold totalPixelCount; rewrite Hcw, Hch; reflexivity).
  assert (He : totalPixelCount e = 921600%Z)
    by (unfold totalPixelCount; rewrite Hew, Heh; reflexivity).
  repeat split; try reflexivity; try assumption.
  unfold compareVisual. rewrite Hcw, Hch, Hew, Heh, He. reflexivity.
Qed.

(** A blank screenshot at the viewport meets the hypotheses of C7. *)
Lemma totalPixelCount_viewport_witness :
  at_viewport (blank 960 960)
  /\ totalPixelCount (blank 960 960) = 921600%Z.
Proof.
  assert (H : at_viewport (blank 960 960)) by (split; reflexivity).
  split; [exact H|].
  exact (proj1 (proj2 (proj2
    (totalPixelCount_viewport 0 (fun _ _ _ _ => false) _ _ H H)))).
Defined.

End Visual.

(** ** Feedback lists of the submission detail view *)

Module Feedback.
Import JS.

Inductive type_tag : Type :=
  | TUndefined | TObject | TBoolean | TNumber | TString.

(** [typeof v] *)
Definition typeof (v : jsval) : type_tag :=
  match v with
  | JUndefined => TUndefined
  | JNull | JArr _ | JObj _ => TObject
  | JBool _ => TBoolean
  | JNum _ | JNaN => TNumber
  | JStr _ => TString
  end.

Definition is_object_tag (t : type_tag) : bool :=
  match t with TObject => true | _ => false end.

(** [Array.isArray(v)] *)
Definition isArray (v : jsval) : bool :=
  match v with JArr _ => true | _ => false end.

(** [normalizeList]: an array as it is, nothing for a falsy value other
    than [0], a singleton otherwise. *)
Definition normalizeList (value : jsval) : list jsval :=
  match value with
  | JArr items => items
  | _ => if negb (truthy value) && negb (strict_eq value (JNum 0))
         then [] else [value]
  end.

Section Detail.

(** [JSON.parse], [None] when it throws. *)
Variable JSON_parse : string -> option jsval.

(** [parseJSONSafe(value, fallback)] *)
Definition parseJSONSafe (value fallback : jsval) : jsval :=
  match value with
  | JUndefined | JNull => fallback
  | JStr s => default fallback (JSON_parse s)
  | _ => value
  end.

(** [evaluation]: the parsed [submission.result] when that is an object
    and not an array, the empty object otherwise. *)
Definition evaluation (result : jsval) : jsval :=
  let evaluationPayload := or_else (parseJSONSafe result result) (JObj ∅) in
  if is_object_tag (typeof evaluationPayload) && negb (isArray evaluationPayload)
  then evaluationPayload else JObj ∅.

Definition feedbackIsObject (rawFeedback : jsval) : bool :=
  truthy rawFeedback && is_object_tag (typeof rawFeedback)
  && negb (isArray rawFeedback).

Definition feedbackString (rawFeedback : jsval) : string :=
  match rawFeedback with JStr s => s | _ => "" end.

(** [if (values.length) return values;] and the fallback after it. *)
Definition values_or (values dflt : list jsval) : list jsval :=
  match values with [] => dflt | _ => values end.

(** The two lists; [None] would be an exception thrown on the way. *)
Definition encouragementList (result : jsval) : option (list jsval) :=
  rawFeedback ← member (evaluation result) "feedback";
  let dflt :=
    if negb (String.eqb (feedbackString rawFeedback) "")
    then [JStr (feedbackString rawFeedback)]
    else [JStr "Great progress!"] in
  if feedbackIsObject rawFeedback
  then encouragement ← member rawFeedback "encouragement";
       Some (values_or (normalizeList encouragement) dflt)
  else Some dflt.

Definition improvementsList (result : jsval) : option (list jsval) :=
  rawFeedback ← member (evaluation result) "feedback";
  let dflt :=
    [JStr "Review semantic structure and styling to match the expected output."] in
  if feedbackIsObject rawFeedback
  then improvements ← member rawFeedback "improvements";
       Some (values_or (normalizeList improvements) dflt)
  else Some dflt.

End Detail.

(** An evaluation with the given [feedback] and a final score. *)
Definition payload (finalScore : Z) (feedback : jsval) : jsval :=
  JObj (<["finalScore" := JNum finalScore]> (<["feedback" := feedback]> ∅)).

Lemma values_or_nonempty values dflt : dflt <> [] -> values_or values dflt <> [].
Proof. destruct values; simpl; [auto|discriminate]. Qed.

Lemma evaluation_is_object JSON_parse result :
  exists fields, evaluation JSON_parse result = JObj fields.
Proof.
  unfold evaluation, or_else.
  destruct (truthy (parseJSONSafe JSON_parse result result)) eqn:Ht;
    [|by exists ∅].
  destruct (parseJSONSafe JSON_parse result result) as [| |b|n| |s|l|o];
    simpl; try discriminate; eauto.
Qed.

Lemma feedbackIsObject_inv raw :
  feedbackIsObject raw = true -> exists fields, raw = JObj fields.
Proof.
  unfold feedbackIsObject.
  destruct raw; simpl; rewrite ?andb_false_r; try discriminate; eauto.
Qed.

Example perfect_score_empty_arrays :
  let fb := JObj (<["encouragement" := JArr []]>
                    (<["improvements" := JArr []]> ∅)) in
  encouragementList (fun _ => None) (payload 100 fb)
  = Some [JStr "Great progress!"]
  /\ improvementsList (fun _ => None) (payload 100 fb)
     = Some [JStr "Review semantic structure and styling to match the expected output."].
Proof. split; reflexivity. Qed.

Example zero_score_string_feedback :
  encouragementList (fun _ => None) (payload 0 (JStr "Keep going"))
  = Some [JStr "Keep going"].
Proof. reflexivity. Qed.

Example missing_feedback :
  encouragementList (fun _ => None) (JObj ∅) = Some [JStr "Great progress!"]
  /\ encouragementList (fun _ => None) JNull = Some [JStr "Great progress!"]
  /\ encouragementList (fun _ => None) (JStr "not json")
     = Some [JStr "Great progress!"].
Proof. repeat split; reflexivity. Qed.

Example structured_feedback_kept :
  let item := JObj (<["description" := JStr "Nice header"]> ∅) in
  let fb := JObj (<["encouragement" := JArr [item]]> ∅) in
  encouragementList (fun _ => None) (payload 80 fb) = Some [item].
Proof. reflexivity. Qed.

(** C6. Whatever the stored result of a submission is (any score, no
    feedback, a feedback string, a feedback object with empty or missing
    lists, or text that does not even parse), both lists are computed
    without an exception and each holds at least one item. *)
Theorem feedback_lists_nonempty
    (JSON_parse : string -> option jsval) (result : jsval) :
  (exists enc, encouragementList JSON_parse result = Some enc /\ enc <> [])
  /\ (exists imp, improvementsList JSON_parse result = Some imp /\ imp <> []).
Proof.
  unfold encouragementList, improvementsList.
  destruct (evaluation_is_object JSON_parse result) as [fields ->]. simpl.
  destruct (feedbackIsObject (get fields "feedback")) eqn:Hobj.
  - destruct (feedbackIsObject_inv _ Hobj) as [fb ->]. simpl.
    split; eexists; (split; [reflexivity|]);
      apply values_or_nonempty; discriminate.
  - split; eexists; (split; [reflexivity|]); [|discriminate].
    destruct (negb _); discriminate.
Qed.

End Feedback.

(** ** Bulk upload of a level's question bank *)

Module BulkUpload.
Import JS.

(** A course of [courses.json]: its plain fields, and [levelSettings]
    when present, an object of per-level objects. *)
Record Course : Type := {
  course_fields : object;
  levelSettings : option (gmap string object)
}.

(** The two JSON files the route reads and writes. The challenges file is
    an array of objects, as [saveChallenges] leaves it. *)
Record files : Type := {
  courses_file : list Course;
  challenges_file : list object
}.

(** The counters and the working copy of the [forEach] loop. *)
Record progress : Type := {
  challenges : list object;
  addedCount : nat;
  updatedCount : nat;
  skippedCount : nat;
  errors : list string
}.

Record summary : Type := {
  added : nat;
  updated : nat;
  skipped : nat;
  total : nat;
  randomizeCount : jsval;
  reported_errors : option (list string)
}.

Inductive response : Type :=
  | BadRequest          (* 400, Questions array required *)
  | CourseNotFound      (* 404 *)
  | Uploaded (body : summary).

(** [c.id === v] *)
Definition has_id (v : jsval) (c : object) : bool := strict_eq (get c "id") v.

Section Route.

(** [parseInt] and the clock belong to the platform: [created_at i] and
    [updated_at i] are the two readings of [new Date().toISOString()]
    while item [i] is handled; [type_error] is the engine's message for a
    property read on [null]. *)
Variable parseInt : string -> jsval.
Variable created_at updated_at : nat -> string.
Variable type_error : string.

(** [inherited k]: an object without an own property [k] still answers
    [obj[k]] with a truthy value, found on [Object.prototype]:
    [constructor], [toString], [__proto__] and the like, and whatever the
    process has added there by the time of the request. *)
Variable inherited : string -> bool.

(** The URL parameters. *)
Variable courseId level : string.

(** [{ ...question, courseId, level: parseInt(level), createdAt:
    question.createdAt || now, updatedAt: now }] *)
Definition questionData (index : nat) (question : object) : object :=
  <["updatedAt" := JStr (updated_at index)]>
    (<["createdAt" := or_else (get question "createdAt")
                        (JStr (created_at index))]>
       (<["level" := parseInt level]>
          (<["courseId" := JStr courseId]> question))).

Definition skip (message : string) (st : progress) : progress :=
  {| challenges := challenges st;
     addedCount := addedCount st;
     updatedCount := updatedCount st;
     skippedCount := S (skippedCount st);
     errors := errors st ++ [message] |}.

Definition question_label (index : nat) : string :=
  "Question " +:+ pretty (index + 1) +:+ ": ".

(** The body of the loop for the item at [index]. *)
Definition process (index : nat) (question : jsval) (st : progress) : progress :=
  match member question "id", member question "title" with
  | Some id, Some title =>
      if negb (truthy id) || negb (truthy title)
      then skip (question_label index
                 +:+ "Missing required fields (id, title)") st
      else
        let data := questionData index
                      (match question with JObj o => o | _ => ∅ end) in
        match findIndex (has_id id) (challenges st) with
        | Some existingIndex =>
            (* { ...challenges[existingIndex], ...questionData } *)
            let merged := data ∪ default ∅ (challenges st !! existingIndex) in
            {| challenges := <[existingIndex := merged]> (challenges st);
               addedCount := addedCount st;
               updatedCount := S (updatedCount st);
               skippedCount := skippedCount st;
               errors := errors st |}
        | None =>
            {| challenges := challenges st ++ [data];
               addedCount := S (addedCount st);
               updatedCount := updatedCount st;
               skippedCount := skippedCount st;
               errors := errors st |}
        end
  | _, _ => skip (question_label index +:+ type_error) st
  end.

(** [questions.forEach((question, index) => ...)] *)
Fixpoint forEach (index : nat) (questions : list jsval) (st : progress)
  : progress :=
  match questions with
  | [] => st
  | question :: rest => forEach (S index) rest (process index question st)
  end.

Definition start (cs : list object) : progress :=
  {| challenges := cs; addedCount := 0; updatedCount := 0;
     skippedCount := 0; errors := [] |}.

(** [if (!course.levelSettings) course.levelSettings = {};
    if (!course.levelSettings[level]) course.levelSettings[level] = {};
    course.levelSettings[level].randomizeCount = randomizeCount || 2].
    The entry of the level is read through the prototype chain: when the
    settings have no own entry but inherit a value under that name, no
    entry is created and the write lands on the inherited value, outside
    the course. *)
Definition set_randomizeCount (rc : jsval) (c : Course) : Course :=
  let settings := default ∅ (levelSettings c) in
  {| course_fields := course_fields c;
     levelSettings :=
       Some (match settings !! level with
             | Some entry =>
                 <[level := <["randomizeCount" := or_else rc (JNum 2)]> entry]>
                   settings
             | None =>
                 if inherited level then settings
                 else <[level := <["randomizeCount" := or_else rc (JNum 2)]> ∅]>
                        settings
             end) |}.

Definition is_course (c : Course) : bool :=
  strict_eq (get (course_fields c) "id") (JStr courseId).

(** [saveChallenges]: the file holds what [JSON.stringify] writes, so a
    level that is [NaN] is stored as [null]. *)
Definition saveChallenges (cs : list object) : list object :=
  json_object <$> cs.

(** The handler on the request body [{ questions, randomizeCount }]. The
    courses need no such care when they are saved: the one value the
    route puts there is [randomizeCount || 2], a value of the body or 2. *)
Definition bulk (questions rc : jsval) (fs : files) : response * files :=
  match questions with
  | JArr (q :: qs) =>
      match findIndex is_course (courses_file fs) with
      | None => (CourseNotFound, fs)
      | Some courseIndex =>
          let course :=
            set_randomizeCount rc
              (default {| course_fields := ∅; levelSettings := None |}
                 (courses_file fs !! courseIndex)) in
          let st := forEach 0 (q :: qs) (start (challenges_file fs)) in
          let saved :=
            if ((0 <? addedCount st) || (0 <? updatedCount st))%nat
            then {| courses_file := <[courseIndex := course]> (courses_file fs);
                    challenges_file := saveChallenges (challenges st) |}
            else fs in
          (Uploaded
             {| added := addedCount st;
                updated := updatedCount st;
                skipped := skippedCount st;
                total := length (q :: qs);
                randomizeCount :=
                  or_else rc (JNum 2);
                reported_errors :=
                  match errors st with [] => None | e => Some e end |},
           saved)
      end
  | _ => (BadRequest, fs)
  end.

End Route.

(** The entry carries the course and the level of the URL. *)
Definition forced (parseInt : string -> jsval) (courseId level : string)
    (c : object) : Prop :=
  get c "courseId" = JStr courseId /\ get c "level" = parseInt level.

(** The ids of the stored questions, in file order. *)
Definition ids (cs : list object) : list jsval :=
  (fun c => get c "id") <$> cs.

(** How many stored questions carry the id [v]. *)
Definition count_id (v : jsval) (cs : list object) : nat :=
  length (List.filter (fun x => strict_eq x v) (ids cs)).


Section Invariants.

Variable parseInt : string -> jsval.
Variable created_at updated_at : nat -> string.
Variable type_error courseId level : string.

#[local] Abbreviation process' :=
  (process parseInt created_at updated_at type_error courseId level).
#[local] Abbreviation forEach' :=
  (forEach parseInt created_at updated_at type_error courseId level).
#[local] Abbreviation questionData' :=
  (questionData parseInt created_at updated_at courseId level).
#[local] Abbreviation forced' := (forced parseInt courseId level).

(** A loop step does nothing to the stored questions, or updates one in
    place, or appends one. *)
Inductive step_kind (cs cs' : list object) : Prop :=
  | Untouched : cs' = cs -> step_kind cs cs'
  | UpdatedAt index o k c :
      truthy (get o "id") = true ->
      findIndex (has_id (get o "id")) cs = Some k ->
      cs !! k = Some c ->
      cs' = <[k := questionData' index o ∪ c]> cs ->
      step_kind cs cs'
  | Appended index o :
      truthy (get o "id") = true ->
      findIndex (has_id (get o "id")) cs = None ->
      cs' = (cs ++ [questionData' index o])%list ->
      step_kind cs cs'.

(** What a run of loop steps may do to the stored questions: the ids
    already there stay where they are, an entry is the old one or carries
    the forced course and level, and no id gains a second entry. *)
Record evolves (cs cs' : list object) : Prop := {
  ev_ids : exists extra, ids cs' = ids cs ++ extra;
  ev_entries :
    forall j c', cs' !! j = Some c' -> cs !! j = Some c' \/ forced' c';
  ev_count :
    forall v, count_id v cs' = count_id v cs
              \/ (count_id v cs = 0 /\ count_id v cs' = 1)
}.

(** How many items the loop has stored so far. *)
Definition stored (st : progress) : nat := addedCount st + updatedCount st.

Lemma questionData_lookup_courseId i o :
  questionData' i o !! "courseId" = Some (JStr courseId).
Proof. unfold questionData. by simplify_map_eq. Qed.

Lemma questionData_lookup_level i o :
  questionData' i o !! "level" = Some (parseInt level).
Proof. unfold questionData. by simplify_map_eq. Qed.

Lemma questionData_lookup_id i o :
  questionData' i o !! "id" = o !! "id".
Proof. unfold questionData. by simplify_map_eq. Qed.

Lemma questionData_forced i o : forced' (questionData' i o).
Proof.
  split; unfold get.
  - by rewrite questionData_lookup_courseId.
  - by rewrite questionData_lookup_level.
Qed.

(** Spreading the uploaded data over the stored question keeps the forced
    course and level, whatever the stored question held. *)
Lemma merged_forced i o (c : object) : forced' (questionData' i o ∪ c).
Proof.
  split; unfold get.
  - by rewrite (lookup_union_Some_l _ _ _ _ (questionData_lookup_courseId i o)).
  - by rewrite (lookup_union_Some_l _ _ _ _ (questionData_lookup_level i o)).
Qed.

Lemma truthy_get_Some (o : object) k :
  truthy (get o k) = true -> o !! k = Some (get o k).
Proof. unfold get. destruct (o !! k); simpl; [reflexivity|discriminate]. Qed.

Lemma merged_id i o (c : object) :
  truthy (get o "id") = true ->
  get (questionData' i o ∪ c) "id" = get o "id".
Proof.
  intros Ht. apply truthy_get_Some in Ht. unfold get at 1.
  rewrite <- questionData_lookup_id with (i := i) in Ht.
  by rewrite (lookup_union_Some_l _ _ _ _ Ht).
Qed.

Lemma process_kind index question st :
  step_kind (challenges st) (challenges (process' index question st)).
Proof.
  unfold process.
  destruct question as [| |b|n| |s|l|o]; simpl; try by apply Untouched.
  destruct (truthy (get o "id")) eqn:Hid; simpl; [|by apply Untouched].
  destruct (truthy (get o "title")); simpl; [|by apply Untouched].
  destruct (findIndex (has_id (get o "id")) (challenges st)) as [k|] eqn:Hk.
  - destruct (findIndex_Some _ _ _ Hk) as (c & Hc & _).
    simpl. rewrite Hc. by eapply UpdatedAt.
  - simpl. by eapply Appended.
Qed.

(** A valid item does reach the store: at the place of the first stored
    question with its id when there is one, at the end otherwise. *)
Lemma process_valid index o st :
  truthy (get o "id") = true -> truthy (get o "title") = true ->
  exists k c,
    challenges (process' index (JObj o) st) !! k = Some c
    /\ forced' c
    /\ get c "id" = get o "id"
    /\ match findIndex (has_id (get o "id")) (challenges st) with
       | Some k0 => k = k0
       | None => k = length (challenges st)
       end.
Proof.
  intros Hid Ht. unfold process. simpl. rewrite Hid, Ht. simpl.
  destruct (findIndex (has_id (get o "id")) (challenges st)) as [k|] eqn:Hk.
  - destruct (findIndex_Some _ _ _ Hk) as (c & Hc & Hpc & Hlt).
    simpl. rewrite Hc. simpl.
    assert (Hlen : k < length (challenges st)) by (by eapply lookup_lt_Some).
    exists k, (questionData' index o ∪ c). repeat split.
    + by apply list_lookup_insert_eq.
    + apply merged_forced.
    + apply merged_forced.
    + by apply merged_id.
  - simpl. exists (length (challenges st)), (questionData' index o).
    repeat split.
    + by rewrite lookup_app_r, Nat.sub_diag by lia.
    + apply questionData_forced.
    + apply questionData_forced.
    + unfold get. by rewrite questionData_lookup_id.
Qed.

Lemma has_id_ids v cs :
  findIndex (has_id v) cs = findIndex (fun x => strict_eq x v) (ids cs).
Proof. unfold ids. by rewrite findIndex_fmap. Qed.

Lemma evolves_refl cs : evolves cs cs.
Proof.
  split; [exists []; by rewrite app_nil_r|by left|by left].
Qed.

Lemma evolves_trans cs1 cs2 cs3 :
  evolves cs1 cs2 -> evolves cs2 cs3 -> evolves cs1 cs3.
Proof.
  intros [[e1 H1] A1 C1] [[e2 H2] A2 C2]. split.
  - exists (e1 ++ e2). by rewrite H2, H1, app_assoc.
  - intros j c' Hc'. destruct (A2 j c' Hc') as [H|H]; [by apply A1|by right].
  - intros v. destruct (C1 v) as [E1|[E1 E1']], (C2 v) as [E2|[E2 E2']]; lia.
Qed.

Lemma count_id_none v cs :
  findIndex (has_id v) cs = None -> count_id v cs = 0.
Proof.
  rewrite has_id_ids. unfold count_id. intros Hn.
  by rewrite (findIndex_None_filter _ _ Hn).
Qed.

Lemma step_evolves cs cs' : step_kind cs cs' -> evolves cs cs'.
Proof.
  intros [->|index o k c Hid Hk Hc ->|index o Hid Hk ->];
    [apply evolves_refl| |].
  - assert (Hsame : ids (<[k := questionData' index o ∪ c]> cs) = ids cs).
    { unfold ids. rewrite list_fmap_insert, merged_id by done.
      destruct (findIndex_Some _ _ _ Hk) as (c0 & Hc0 & Hp & _).
      assert (c0 = c) as -> by congruence.
      apply strict_eq_eq in Hp. rewrite <- Hp.
      apply list_insert_id. by rewrite list_lookup_fmap, Hc. }
    split.
    + exists []. by rewrite app_nil_r.
    + intros j c'. destruct (decide (k = j)) as [<-|Hne].
      * rewrite list_lookup_insert_eq by (by eapply lookup_lt_Some).
        intros [= <-]. right. apply merged_forced.
      * rewrite list_lookup_insert_ne by done. by left.
    + intros v. left. unfold count_id. by rewrite Hsame.
  - split.
    + exists [get (questionData' index o) "id"]. unfold ids.
      by rewrite fmap_app.
    + intros j c' Hj. apply lookup_app_Some in Hj as [Hj|[_ Hj]]; [by left|].
      right. apply list_lookup_singleton_Some in Hj as [_ <-].
      apply questionData_forced.
    + intros v. unfold count_id, ids. rewrite fmap_app, List.filter_app.
      rewrite length_app. simpl.
      destruct (strict_eq (get (questionData' index o) "id") v) eqn:Hv;
        simpl; [|left; lia].
      right. apply strict_eq_eq in Hv.
      assert (Hget : get (questionData' index o) "id" = get o "id")
        by (unfold get; by rewrite questionData_lookup_id).
      rewrite Hget in Hv. subst v.
      pose proof (count_id_none _ _ Hk) as H0. unfold count_id, ids in H0.
      rewrite H0. split; reflexivity.
Qed.

Lemma forEach_evolves questions index st :
  evolves (challenges st) (challenges (forEach' index questions st)).
Proof.
  revert index st. induction questions as [|q qs IH]; intros index st; simpl.
  - apply evolves_refl.
  - eapply evolves_trans; [|apply IH]. apply step_evolves, process_kind.
Qed.

(** Once an entry carries the forced course and level, later steps leave
    an entry with the same id and the forced values at its place. *)
Lemma evolves_carry cs cs' k c :
  evolves cs cs' -> cs !! k = Some c -> forced' c ->
  exists c', cs' !! k = Some c' /\ forced' c' /\ get c' "id" = get c "id".
Proof.
  intros [[extra Hids] Hent _] Hc Hf.
  assert (Hk : ids cs' !! k = Some (get c "id")).
  { rewrite Hids. apply lookup_app_l_Some. unfold ids.
    by rewrite list_lookup_fmap, Hc. }
  unfold ids in Hk. rewrite list_lookup_fmap in Hk.
  destruct (cs' !! k) as [c'|] eqn:Hc'; [|discriminate].
  injection Hk as Hk. exists c'. split; [reflexivity|]. split; [|exact Hk].
  destruct (Hent k c' Hc') as [H|H]; [congruence|exact H].
Qed.

Lemma evolves_length cs cs' : evolves cs cs' -> length cs <= length cs'.
Proof.
  intros [[extra Hids] _ _].
  assert (H : length (ids cs') = length (ids cs ++ extra)) by (by rewrite Hids).
  unfold ids in H. rewrite length_app, !length_fmap in H. lia.
Qed.

(** Where an id is first met does not move while the store evolves. *)
Lemma evolves_findIndex cs cs' v :
  evolves cs cs' ->
  match findIndex (has_id v) cs with
  | Some k0 => findIndex (has_id v) cs' = Some k0
  | None => forall k, findIndex (has_id v) cs' = Some k -> length cs <= k
  end.
Proof.
  intros [[extra Hids] _ _]. rewrite !has_id_ids, Hids, findIndex_app.
  destruct (findIndex (fun x => strict_eq x v) (ids cs)); [reflexivity|].
  intros k. destruct (findIndex _ extra) as [e|]; simpl; [|discriminate].
  intros [= <-]. unfold ids. rewrite length_fmap. lia.
Qed.

Lemma forEach_valid questions index st o :
  In (JObj o) questions ->
  truthy (get o "id") = true -> truthy (get o "title") = true ->
  exists k c,
    challenges (forEach' index questions st) !! k = Some c
    /\ forced' c
    /\ get c "id" = get o "id"
    /\ match findIndex (has_id (get o "id")) (challenges st) with
       | Some k0 => k = k0
       | None => length (challenges st) <= k
       end.
Proof.
  intros Hin Hid Ht. revert index st.
  induction questions as [|q qs IH]; intros index st; [destruct Hin|].
  simpl. destruct Hin as [->|Hin].
  - destruct (process_valid index o st Hid Ht) as (k & c & Hc & Hf & Hi & Hk).
    destruct (evolves_carry _ _ k c
                (forEach_evolves qs (S index) (process' index (JObj o) st))
                Hc Hf) as (c' & Hc' & Hf' & Hi').
    exists k, c'. repeat split; try apply Hf'; [exact Hc'|congruence|].
    destruct (findIndex _ (challenges st)); [exact Hk|lia].
  - destruct (IH Hin (S index) (process' index q st))
      as (k & c & Hc & Hf & Hi & Hk).
    exists k, c. repeat split; try apply Hf; [exact Hc|exact Hi|].
    pose proof (evolves_findIndex _ _ (get o "id")
                  (step_evolves _ _ (process_kind index q st))) as Hfi.
    pose proof (evolves_length _ _
                  (step_evolves _ _ (process_kind index q st))) as Hlen.
    destruct (findIndex (has_id (get o "id")) (challenges st)) as [k0|].
    + by rewrite Hfi in Hk.
    + destruct (findIndex _ (challenges (process' index q st))) as [k1|] eqn:E.
      * subst k. by apply Hfi.
      * lia.
Qed.

Lemma process_stored index q st : stored st <= stored (process' index q st).
Proof.
  unfold process, stored.
  destruct (member q "id"), (member q "title"); simpl; try lia.
  destruct (negb _ || negb _); simpl; [lia|].
  destruct (findIndex _ _); simpl; lia.
Qed.

Lemma process_valid_stored index o st :
  truthy (get o "id") = true -> truthy (get o "title") = true ->
  stored st < stored (process' index (JObj o) st).
Proof.
  intros Hid Ht. unfold process, stored. simpl. rewrite Hid, Ht. simpl.
  destruct (findIndex _ _); simpl; lia.
Qed.

Lemma forEach_stored questions index st :
  stored st <= stored (forEach' index questions st).
Proof.
  revert index st. induction questions as [|q qs IH]; intros index st; simpl;
    [lia|].
  etrans; [apply (process_stored index q)|apply IH].
Qed.

Lemma forEach_valid_stored questions index st o :
  In (JObj o) questions ->
  truthy (get o "id") = true -> truthy (get o "title") = true ->
  stored st < stored (forEach' index questions st).
Proof.
  intros Hin Hid Ht. revert index st.
  induction questions as [|q qs IH]; intros index st; [destruct Hin|].
  simpl. destruct Hin as [->|Hin].
  - eapply Nat.lt_le_trans; [by apply process_valid_stored|].
    apply forEach_stored.
  - eapply Nat.le_lt_trans; [apply (process_stored index q)|by apply IH].
Qed.

End Invariants.

(** The ids a loop step adds are truthy. *)
Lemma step_kind_ids parseInt created_at updated_at courseId level cs cs' :
  step_kind parseInt created_at updated_at courseId level cs cs' ->
  exists extra, ids cs' = ids cs ++ extra
                /\ Forall (fun x => truthy x = true) extra.
Proof.
  intros [->|index o k c Hid Hk Hc ->|index o Hid Hk ->].
  - exists []. by rewrite app_nil_r.
  - exists []. split; [|constructor]. rewrite app_nil_r.
    unfold ids. rewrite list_fmap_insert, merged_id by done.
    destruct (findIndex_Some _ _ _ Hk) as (c0 & Hc0 & Hp & _).
    assert (c0 = c) as -> by congruence.
    apply strict_eq_eq in Hp. rewrite <- Hp.
    apply list_insert_id. by rewrite list_lookup_fmap, Hc.
  - exists [get o "id"]. split; [|by repeat constructor].
    unfold ids. rewrite fmap_app. simpl. unfold get at 2.
    by rewrite questionData_lookup_id.
Qed.

Lemma forEach_ids parseInt created_at updated_at type_error courseId level
    questions index st :
  exists extra,
    ids (challenges (forEach parseInt created_at updated_at type_error
                       courseId level index questions st))
    = ids (challenges st) ++ extra
    /\ Forall (fun x => truthy x = true) extra.
Proof.
  revert index st. induction questions as [|q qs IH]; intros index st; simpl.
  - exists []. by rewrite app_nil_r.
  - destruct (IH (S index)
                (process parseInt created_at updated_at type_error courseId
                   level index q st)) as (e2 & -> & H2).
    destruct (step_kind_ids _ _ _ _ _ _ _
                (process_kind parseInt created_at updated_at type_error
                   courseId level index q st)) as (e1 & -> & H1).
    exists (e1 ++ e2). split; [by rewrite app_assoc|by apply Forall_app].
Qed.

(** The file holds what [JSON.parse] reads: every stored question is its
    own written form. *)
Definition json_file (cs : list object) : Prop :=
  Forall (fun c => json_object c = c) cs.

(** A saved entry carries the course of the URL, and for level what
    [parseInt] makes of the URL's level as [JSON.stringify] writes it: the
    number, or [null] when [parseInt] answers [NaN]. *)
Definition saved_forced (parseInt : string -> jsval) (courseId level : string)
    (c : object) : Prop :=
  get c "courseId" = JStr courseId /\ get c "level" = json_get (parseInt level).

(** [v] is the level of the URL: its text, or the number the text is the
    numeral of. *)
Definition is_url_level (level : string) (v : jsval) : Prop :=
  v = JStr level \/ exists n : Z, v = JNum n /\ pretty n = level.

(** The claim as worded, for a given [parseInt]: every entry the upload
    leaves differing from the file carries the level of the URL. *)
Definition stores_url_level (parseInt : string -> jsval) : Prop :=
  forall (created_at updated_at : nat -> string) (type_error : string)
         (inherited : string -> bool) (courseId level : string)
         (questions rc : jsval) (fs : files) (j : nat) (c' : object),
    json_file (challenges_file fs) ->
    challenges_file
      (bulk parseInt created_at updated_at type_error inherited courseId level
         questions rc fs).2 !! j = Some c' ->
    challenges_file fs !! j = Some c' \/ is_url_level level (get c' "level").

(** [parseInt] on a string that starts with neither white space, a sign
    nor [0x]: the number its leading decimal digits spell, [NaN] when it
    has none. *)
Definition digit (c : ascii) : option Z :=
  let n := nat_of_ascii c in
  if (48 <=? n) && (n <=? 57) then Some (Z.of_nat (n - 48)) else None.

Fixpoint leading_digits (s : string) (acc : option Z) : option Z :=
  match s with
  | EmptyString => acc
  | String c rest =>
      match digit c with
      | Some d => leading_digits rest (Some (10 * default 0%Z acc + d)%Z)
      | None => acc
      end
  end.

Definition parseInt_decimal (s : string) : jsval :=
  match leading_digits s None with
  | Some n => JNum n
  | None => JNaN
  end.

Definition one_course : files :=
  {| courses_file :=
       [{| course_fields := <["id" := JStr "html"]> ∅;
           levelSettings := None |}];
     challenges_file := [] |}.

Definition one_question : jsval :=
  JArr [JObj (<["id" := JStr "q1"]> (<["title" := JStr "One"]> ∅))].

Lemma saveChallenges_lookup cs j c' :
  saveChallenges cs !! j = Some c' <->
  exists c, cs !! j = Some c /\ c' = json_object c.
Proof.
  unfold saveChallenges. rewrite list_lookup_fmap.
  destruct (cs !! j) as [c|]; simpl; split.
  - intros [= <-]. by exists c.
  - intros (c0 & [= <-] & ->). reflexivity.
  - discriminate.
  - by intros (c0 & Hc0 & _).
Qed.

Lemma ids_saveChallenges cs : ids (saveChallenges cs) = json_get <$> ids cs.
Proof.
  unfold ids, saveChallenges. rewrite <- !list_fmap_compose.
  apply list_fmap_ext. intros _ c _. apply get_json_object.
Qed.

Lemma count_id_saveChallenges v cs :
  Forall (fun x => x <> JNaN) (ids cs) ->
  count_id v (saveChallenges cs) = count_id v cs.
Proof.
  unfold count_id. rewrite ids_saveChallenges.
  induction 1 as [|x l Hx Hl IH]; [reflexivity|].
  rewrite fmap_cons. simpl. rewrite (strict_eq_json_get x v Hx).
  destruct (strict_eq x v); simpl; by rewrite IH.
Qed.

Lemma json_file_get cs j c k :
  json_file cs -> cs !! j = Some c -> json_get (get c k) = get c k.
Proof.
  intros Hf Hc. rewrite <- get_json_object.
  by rewrite (proj1 (Forall_lookup _ cs) Hf j c Hc).
Qed.

Lemma json_items_In (items : list jsval) q :
  json (JArr items) = JArr items -> In q items -> json q = q.
Proof.
  simpl. intros [= H] Hin. induction items as [|a l IH]; [destruct Hin|].
  rewrite fmap_cons in H. injection H as Ha Hl.
  destruct Hin as [<-|Hin]; auto.
Qed.

Example bulk_example :
  let uploaded :=
    JArr [JObj (<["id" := JStr "q1"]> (<["title" := JStr "One"]>
                 (<["courseId" := JStr "other"]> (<["level" := JNum 9]> ∅))));
          JObj (<["id" := JStr "q1"]> (<["title" := JStr "One again"]> ∅));
          JObj (<["title" := JStr "No id"]> ∅)] in
  let out := bulk (fun _ => JNum 2) (fun _ => "t0") (fun _ => "t1") "TypeError"
               (fun _ => false) "html" "2" uploaded JUndefined one_course in
  (ids (challenges_file out.2) = [JStr "q1"])
  /\ ((fun c => get c "courseId") <$> challenges_file out.2 = [JStr "html"])
  /\ ((fun c => get c "level") <$> challenges_file out.2 = [JNum 2])
  /\ ((fun c => get c "title") <$> challenges_file out.2 = [JStr "One again"])
  /\ match out.1 with
     | Uploaded b => added b = 1 /\ updated b = 1 /\ skipped b = 1
     | _ => False
     end.
Proof. vm_compute. repeat split; reflexivity. Qed.

(** What is stored for a level that is not a numeral: [null] for [abc],
    [2] for [2abc]. *)
Example level_that_is_no_numeral :
  let stored_level level :=
    (fun c => get c "level")
    <$> challenges_file
          (bulk parseInt_decimal (fun _ => "t0") (fun _ => "t1") "TypeError"
             (fun _ => false) "html" level one_question JUndefined
             one_course).2 in
  stored_level "abc" = [JNull] /\ stored_level "2abc" = [JNum 2]
  /\ stored_level "2" = [JNum 2].
Proof. vm_compute. repeat split; reflexivity. Qed.

(** An id that is an array is never [===] to a stored id: the same
    question uploaded twice is stored twice. *)
Example array_id_stored_twice :
  let q := JObj (<["id" := JArr [JNum 1]]> (<["title" := JStr "One"]> ∅)) in
  let upload fs :=
    (bulk parseInt_decimal (fun _ => "t0") (fun _ => "t1") "TypeError"
       (fun _ => false) "html" "2" (JArr [q]) JUndefined fs).2 in
  ids (challenges_file (upload (upload one_course)))
  = [JArr [JNum 1]; JArr [JNum 1]].
Proof. vm_compute. reflexivity. Qed.

(** C9, as stated, fails: for the level [abc] the question is stored with
    level [null]. *)
Lemma level_abc_stored_as_null : ~ stores_url_level parseInt_decimal.
Proof.
  intros H.
  set (c' := <["id" := JStr "q1"]>
               (<["title" := JStr "One"]>
                  (<["courseId" := JStr "html"]>
                     (<["level" := JNull]>
                        (<["createdAt" := JStr "t0"]>
                           (<["updatedAt" := JStr "t1"]> (∅ : object))))))).
  assert (E : challenges_file
                (bulk parseInt_decimal (fun _ => "t0") (fun _ => "t1")
                   "TypeError" (fun _ => false) "html" "abc" one_question
                   JUndefined one_course).2 !! 0 = Some c')
    by (vm_compute; reflexivity).
  assert (F : json_file (challenges_file one_course)) by constructor.
  destruct (H (fun _ => "t0") (fun _ => "t1") "TypeError" (fun _ => false)
              "html" "abc" one_question JUndefined one_course 0 c' F E)
    as [Hold|[Hs|(n & Hn & _)]].
  - discriminate Hold.
  - vm_compute in Hs. discriminate Hs.
  - vm_compute in Hn. discriminate Hn.
Qed.

(** C9, amended. The file and the body hold JSON values. Every stored
    question that the bulk upload leaves differing from what the file held
    carries the course of the URL and, for level, [parseInt] of the URL's
    level as the file writes it: the number [parseInt] answers, which is
    the URL's level when that is its numeral, and [null] when [parseInt]
    answers [NaN]. The questions already stored keep their places and
    ids, and no id that was stored gains a second entry under [===] (an
    id not stored yet gets exactly one): ids that are strings, numbers or
    booleans are updated in place. For an accepted upload, each item with
    an id and a title is found in the saved file with the forced course
    and level, at the place of the stored question with that id when there
    was one. *)
Theorem bulk_forces_course_and_level
    (parseInt : string -> jsval) (created_at updated_at : nat -> string)
    (type_error : string) (inherited : string -> bool)
    (courseId level : string) (questions rc : jsval) (fs : files) :
  json_file (challenges_file fs) ->
  json questions = questions ->
  let cs := challenges_file fs in
  let cs' := challenges_file
               (bulk parseInt created_at updated_at type_error inherited
                  courseId level questions rc fs).2 in
  (forall j c', cs' !! j = Some c' ->
     cs !! j = Some c' \/ saved_forced parseInt courseId level c')
  /\ (forall n : Z, parseInt level = JNum n ->
        json_get (parseInt level) = JNum n
        /\ (pretty n = level -> is_url_level level (json_get (parseInt level))))
  /\ (parseInt level = JNaN -> json_get (parseInt level) = JNull)
  /\ (forall j c, cs !! j = Some c ->
        exists c', cs' !! j = Some c' /\ get c' "id" = get c "id")
  /\ (forall v, count_id v cs' = count_id v cs
                \/ (count_id v cs = 0 /\ count_id v cs' = 1))
  /\ (forall qs o,
        questions = JArr qs ->
        is_Some (findIndex (is_course courseId) (courses_file fs)) ->
        In (JObj o) qs ->
        truthy (get o "id") = true -> truthy (get o "title") = true ->
        exists k c,
          cs' !! k = Some c
          /\ saved_forced parseInt courseId level c
          /\ get c "id" = get o "id"
          /\ match findIndex (has_id (get o "id")) cs with
             | Some k0 => k = k0
             | None => length cs <= k
             end).
Proof.
  intros Hfile Hbody cs cs'.
  assert (Hforced : forall c, forced parseInt courseId level c ->
                      saved_forced parseInt courseId level (json_object c)).
  { intros c [H1 H2]. split; rewrite get_json_object; by rewrite ?H1, ?H2. }
  assert (Hsplit :
    cs' = cs
    \/ exists q qs,
         questions = JArr (q :: qs)
         /\ cs' = saveChallenges
                    (challenges
                       (forEach parseInt created_at updated_at type_error
                          courseId level 0 (q :: qs) (start cs)))).
  { unfold cs', cs, bulk. destruct questions as [| |b|n| |s|[|q qs]|o];
      try (by left).
    destruct (findIndex _ (courses_file fs)); [|by left].
    destruct (_ || _); [|by left]. right. by exists q, qs. }
  split; [|split; [|split; [|split; [|split]]]].
  - intros j c' Hc'. destruct Hsplit as [E|(q & qs & _ & E)];
      rewrite E in Hc'; [by left|].
    apply saveChallenges_lookup in Hc' as (c0 & Hc0 & ->).
    destruct (ev_entries _ _ _ _ _
                (forEach_evolves parseInt created_at updated_at type_error
                   courseId level (q :: qs) 0 (start cs)) j c0 Hc0)
      as [Hold|Hf].
    + left. simpl in Hold. rewrite Hold. f_equal.
      symmetry. exact (proj1 (Forall_lookup _ cs) Hfile j c0 Hold).
    + right. by apply Hforced.
  - intros n Hn. rewrite Hn. split; [reflexivity|].
    intros Hp. right. by exists n.
  - by intros ->.
  - intros j c Hc. destruct Hsplit as [E|(q & qs & _ & E)]; rewrite E.
    { by exists c. }
    destruct (forEach_ids parseInt created_at updated_at type_error courseId
                level (q :: qs) 0 (start cs)) as (extra & Hids & _).
    set (mem := challenges (forEach parseInt created_at updated_at type_error
                              courseId level 0 (q :: qs) (start cs))) in *.
    assert (Hk : ids mem !! j = Some (get c "id")).
    { rewrite Hids. apply lookup_app_l_Some. unfold ids. simpl.
      by rewrite list_lookup_fmap, Hc. }
    unfold ids in Hk. rewrite list_lookup_fmap in Hk.
    destruct (mem !! j) as [c0|] eqn:Hc0; [|discriminate].
    injection Hk as Hk. exists (json_object c0). split.
    + apply saveChallenges_lookup. by exists c0.
    + rewrite get_json_object, Hk. by apply (json_file_get cs j c).
  - intros v. destruct Hsplit as [E|(q & qs & _ & E)]; rewrite E; [by left|].
    destruct (forEach_ids parseInt created_at updated_at type_error courseId
                level (q :: qs) 0 (start cs)) as (extra & Hids & Hextra).
    rewrite count_id_saveChallenges.
    + apply (ev_count _ _ _ _ _
               (forEach_evolves parseInt created_at updated_at type_error
                  courseId level (q :: qs) 0 (start cs))).
    + rewrite Hids. apply Forall_app. split.
      * apply Forall_lookup. intros j x Hx. unfold ids in Hx. simpl in Hx.
        rewrite list_lookup_fmap in Hx.
        destruct (cs !! j) as [c|] eqn:Hc; [|discriminate].
        injection Hx as <-. intros Hnan.
        pose proof (json_file_get cs j c "id" Hfile Hc) as Hj.
        rewrite Hnan in Hj. discriminate.
      * eapply Forall_impl; [exact Hextra|]. intros x Hx ->. discriminate.
  - intros qs o -> [ci Hci] Hin Hid Ht.
    destruct qs as [|q qs]; [destruct Hin|].
    pose proof (forEach_valid parseInt created_at updated_at type_error
                  courseId level (q :: qs) 0 (start cs) o Hin Hid Ht)
      as (k & c & Hc & Hf & Hi & Hk).
    pose proof (forEach_valid_stored parseInt created_at updated_at type_error
                  courseId level (q :: qs) 0 (start cs) o Hin Hid Ht) as Hst.
    exists k, (json_object c). unfold cs', bulk. rewrite Hci. cbn [snd].
    assert (Hsave :
      ((0 <? addedCount (forEach parseInt created_at updated_at type_error
                           courseId level 0 (q :: qs) (start cs)))
       || (0 <? updatedCount (forEach parseInt created_at updated_at type_error
                                courseId level 0 (q :: qs) (start cs))))
      = true).
    { change (stored (start cs)) with 0 in Hst. unfold stored in Hst.
      apply orb_true_iff. rewrite !Nat.ltb_lt. lia. }
    fold cs. rewrite Hsave. cbn [challenges_file].
    split; [apply saveChallenges_lookup; by exists c|].
    split; [by apply Hforced|]. split; [|exact Hk].
    rewrite get_json_object, Hi.
    pose proof (json_items_In _ _ Hbody Hin) as Ho. rewrite json_JObj in Ho.
    injection Ho as Ho. rewrite <- Ho at 2. by rewrite get_json_object.
Qed.

(** One new question at level 2 of a stored course. *)
Lemma bulk_forces_course_and_level_witness :
  json_file (challenges_file one_course)
  /\ json one_question = one_question
  /\ exists k c,
       challenges_file
         (bulk parseInt_decimal (fun _ => "t0") (fun _ => "t1") "TypeError"
            (fun _ => false) "html" "2" one_question JUndefined one_course).2
       !! k = Some c
       /\ saved_forced parseInt_decimal "html" "2" c
       /\ get c "id" = JStr "q1".
Proof.
  assert (F : json_file (challenges_file one_course)) by constructor.
  assert (B : json one_question = one_question) by (vm_compute; reflexivity).
  split; [exact F|]. split; [exact B|].
  destruct (proj2 (proj2 (proj2 (proj2 (proj2
              (bulk_forces_course_and_level parseInt_decimal (fun _ => "t0")
                 (fun _ => "t1") "TypeError" (fun _ => false) "html" "2"
                 one_question JUndefined one_course F B)))))
              [JObj (<["id" := JStr "q1"]> (<["title" := JStr "One"]> ∅))]
              (<["id" := JStr "q1"]> (<["title" := JStr "One"]> ∅))
              eq_refl (ex_intro _ 0 eq_refl) (or_introl eq_refl)
              eq_refl eq_refl)
    as (k & c & Hc & Hf & Hi & _).
  exists k, c. split; [exact Hc|]. split; [exact Hf|exact Hi].
Defined.

End BulkUpload.

(** ** The preview frame *)

Module PreviewFrame.

(** The code to render; a field is [None] when it is [undefined]. *)
Record CodeBundle : Type := {
  html : option string;
  css : option string;
  js : option string
}.

(** [field || ''] *)
Definition or_empty (field : option string) : string := default "" field.

Definition dq : string := String (ascii_of_nat 34) "".



Definition before_js : string :=
  "
        <script>
          try {
            ".

Definition after_js : string :=
  "
          } catch (error) {
            console.error('JavaScript Error:', error);
          }
        </script>
      </body>
      </html>
    ".



(** How a run of statements ends. *)
Inductive completion : Type :=
  | Normal
  | Throw (error : string).


      (* the text parses as something else: the js has closed the [try]
         block itself, and statements run outside it *)






Definition broken_script : CodeBundle :=
  {| html := Some "<h1>Hi</h1>"; css := Some "h1 { color: red; }";
     js := Some "undefinedFunction();" |}.






Example script_element_of_broken_script :
  before_js +:+ or_empty (js broken_script) +:+ after_js
  = "
        <script>
          try {
            undefinedFunction();
          } catch (error) {
            console.error('JavaScript Error:', error);
          }
        </script>
      </body>
      </html>
    ".
Proof. reflexivity. Qed.



End PreviewFrame.

(** ** Questions assigned to a user for a level *)

Module LevelQuestions.
Import JS.

(** An entry of [user-assignments.json]; the last three fields are there
    once a completion has set them. *)
Record Assignment : Type := {
  key : string;
  userId : string;
  courseId : string;
  level : jsval;
  assignedQuestions : list jsval;
  completedQuestions : list jsval;
  assignedAt : string;
  totalAvailable : nat;
  lastCompletedAt : option string;
  isLevelComplete : option bool;
  completedAt : option string
}.

(** A request to [GET /:courseId/levels/:level/questions]: the optional
    [userId] of the query, the two URL parameters, the number of the
    request (the moment of its random draws and of its clock reading) and
    what [ChallengeModel.findByCourseLevel] answers to it, [None] when the
    query throws. *)
Record request : Type := {
  query_userId : option string;
  url_courseId : string;
  url_level : string;
  tick : nat;
  bank : option (list object)
}.

(** A request to [POST /progress/:userId/complete], the other route that
    writes the assignments file: the URL parameter and the body fields
    [questionId], [courseId] and [level], and the moments of its two
    clock readings. *)
Record completion : Type := {
  c_userId : string;
  c_questionId : jsval;
  c_courseId : jsval;
  c_level : jsval;
  c_tick : nat;
  c_tick_done : nat
}.

Inductive response : Type :=
  | NoQuestions                       (* 404 *)
  | Failed                            (* 500 *)
  | Questions (body : list object).   (* 200 *)

(** [req.query.userId || 'default-user'] *)
Definition requester (r : request) : string :=
  match query_userId r with
  | Some u => if String.eqb u "" then "default-user" else u
  | None => "default-user"
  end.

(** [`${userId}-${courseId}-${level}`] *)
Definition assignmentKey (userId courseId level : string) : string :=
  userId +:+ "-" +:+ courseId +:+ "-" +:+ level.

Definition request_key (r : request) : string :=
  assignmentKey (requester r) (url_courseId r) (url_level r).

Definition has_key (k : string) (a : Assignment) : bool := String.eqb (key a) k.

Definition question_id (q : object) : jsval := get q "id".

(** The questions of the bank that are assigned, each with its completion
    flag. *)
Definition questionsWithStatus (a : Assignment) (allQuestions : list object)
  : list object :=
  (fun q => <["isCompleted" :=
               JBool (includes (completedQuestions a) (question_id q))]> q)
  <$> List.filter (fun q => includes (assignedQuestions a) (question_id q))
        allQuestions.

Definition question (id : string) : object := <["id" := JStr id]> ∅.

Definition ask (user course lvl : string) (n : nat)
    (allQuestions : list object) : request :=
  {| query_userId := Some user; url_courseId := course; url_level := lvl;
     tick := n; bank := Some allQuestions |}.


Section Route.

(** [parseInt], the clock, the conversion of a value inside a template
    literal and the outcome of
    [[...allQuestions].sort(() => 0.5 - Math.random())] at a given request
    belong to the platform. *)
Variable parseInt : string -> jsval.
Variable now : nat -> string.
Variable toString : jsval -> string.
Variable shuffle : nat -> list object -> list object.

Definition new_assignment (r : request) (allQuestions : list object)
  : Assignment :=
  let shuffled := shuffle (tick r) allQuestions in
  let selectedQuestions := take (min 2 (length allQuestions)) shuffled in
  {| key := request_key r;
     userId := requester r;
     courseId := url_courseId r;
     level := parseInt (url_level r);
     assignedQuestions := question_id <$> selectedQuestions;
     completedQuestions := [];
     assignedAt := now (tick r);
     totalAvailable := length allQuestions;
     lastCompletedAt := None;
     isLevelComplete := None;
     completedAt := None |}.

(** The handler of the questions route, on the assignments file. *)
Definition handle (r : request) (assignments : list Assignment)
  : response * list Assignment :=
  match bank r with
  | None => (Failed, assignments)
  | Some [] => (NoQuestions, assignments)
  | Some allQuestions =>
      match find (has_key (request_key r)) assignments with
      | Some userAssignment =>
          (Questions (questionsWithStatus userAssignment allQuestions),
           assignments)
      | None =>
          let userAssignment := new_assignment r allQuestions in
          (Questions (questionsWithStatus userAssignment allQuestions),
           assignments ++ [userAssignment])
      end
  end.

(** What the completion route does to an assignment. *)
Definition mark_completed (c : completion) (a : Assignment) : Assignment :=
  let fresh := negb (includes (completedQuestions a) (c_questionId c)) in
  let completed :=
    if fresh then completedQuestions a ++ [c_questionId c]
    else completedQuestions a in
  let levelComplete := length completed =? length (assignedQuestions a) in
  {| key := key a;
     userId := userId a;
     courseId := courseId a;
     level := level a;
     assignedQuestions := assignedQuestions a;
     completedQuestions := completed;
     assignedAt := assignedAt a;
     totalAvailable := totalAvailable a;
     lastCompletedAt :=
       if fresh then Some (now (c_tick c)) else lastCompletedAt a;
     isLevelComplete := Some levelComplete;
     completedAt :=
       if levelComplete then Some (now (c_tick_done c)) else completedAt a |}.

(** The assignments file after the completion route: untouched on a
    missing field (400) or a missing assignment (404), the assignment
    rewritten in place otherwise. *)
Definition complete (c : completion) (assignments : list Assignment)
  : list Assignment :=
  if negb (truthy (c_questionId c)) || negb (truthy (c_courseId c))
     || negb (truthy (c_level c))
  then assignments
  else
    let k := assignmentKey (c_userId c) (toString (c_courseId c))
               (toString (c_level c)) in
    match findIndex (has_key k) assignments with
    | None => assignments
    | Some assignmentIndex =>
        match assignments !! assignmentIndex with
        | Some assignment =>
            <[assignmentIndex := mark_completed c assignment]> assignments
        | None => assignments
        end
    end.

(** The requests that write the assignments file. *)
Inductive event : Type :=
  | Get (r : request)
  | Complete (c : completion).

Definition step (e : event) (assignments : list Assignment)
  : list Assignment :=
  match e with
  | Get r => (handle r assignments).2
  | Complete c => complete c assignments
  end.

(** The assignments file after a run of requests. *)
Fixpoint run (es : list event) (assignments : list Assignment)
  : list Assignment :=
  match es with
  | [] => assignments
  | e :: rest => run rest (step e assignments)
  end.










End Route.


(** Two different users and courses share one assignment key. *)
Example key_collision :
  assignmentKey "ann" "html-css" "1" = assignmentKey "ann-html" "css" "1".
Proof. reflexivity. Qed.

Example first_then_again :
  let bank3 := [question "a"; question "b"; question "c"] in
  let h := handle (fun _ => JNum 1) (fun _ => "t") (fun _ l => rev l) in
  let s1 := (h (ask "ann" "html" "1" 0 bank3) []).2 in
  (assignedQuestions <$> s1 = [[JStr "c"; JStr "b"]])
  /\ (h (ask "ann" "html" "1" 1 bank3) s1).2 = s1
  /\ match (h (ask "ann" "html" "1" 1 bank3) s1).1 with
     | Questions body => question_id <$> body = [JStr "b"; JStr "c"]
     | _ => False
     end.
Proof. vm_compute. repeat split; reflexivity. Qed.




End LevelQuestions.

(** ** Bulk upload of a level: the counters and what is saved *)

Module BulkUploadReport.
Import JS BulkUpload.

Section Counters.

Variable parseInt : string -> jsval.
Variable created_at updated_at : nat -> string.
Variable type_error courseId level : string.

#[local] Abbreviation process' :=
  (process parseInt created_at updated_at type_error courseId level).
#[local] Abbreviation forEach' :=
  (forEach parseInt created_at updated_at type_error courseId level).





End Counters.

(** A request used by the examples: one new question, one question
    without a title, for the course [html]. *)
Definition sample_files : files :=
  {| courses_file :=
       [{| course_fields := <["id" := JStr "css"]> ∅; levelSettings := None |};
        {| course_fields := <["id" := JStr "html"]> ∅; levelSettings := None |}];
     challenges_file := [<["id" := JStr "old"]> ∅] |}.

Definition sample_questions : jsval :=
  JArr [JObj (<["id" := JStr "q1"]> (<["title" := JStr "One"]> ∅));
        JObj (<["id" := JStr "q2"]> ∅)].

(** The names an object inherits from [Object.prototype] in a fresh Node
    process. *)
Definition Object_prototype (k : string) : bool :=
  bool_decide
    (k ∈ ["constructor"; "__defineGetter__"; "__defineSetter__";
          "hasOwnProperty"; "__lookupGetter__"; "__lookupSetter__";
          "isPrototypeOf"; "propertyIsEnumerable"; "toString"; "valueOf";
          "__proto__"; "toLocaleString"]).

Definition sample_bulk_at (level : string) (questions rc : jsval)
  : response * files :=
  bulk (fun _ => JNum 2) (fun _ => "t0") (fun _ => "t1") "TypeError"
    Object_prototype "html" level questions rc sample_files.








(** The level settings saved for the course [html] by the sample upload:
    an entry at level 2, none at the level [constructor]. *)
Example level_constructor_stores_no_entry :
  let saved level :=
    levelSettings
      <$> courses_file (sample_bulk_at level sample_questions (JNum 0)).2 !! 1 in
  saved "2" = Some (Some {["2" := {["randomizeCount" := JNum 2]}]})
  /\ saved "constructor" = Some (Some ∅)
  /\ saved "__proto__" = Some (Some ∅).
Proof. vm_compute. repeat split; reflexivity. Qed.

End BulkUploadReport.

(** ** The question routes of the admin *)

Module Questions.
Import JS BulkUpload.

Inductive response : Type :=
  | BadRequest (message : string)     (* 400 *)
  | NotFound                          (* 404 *)
  | Created (question : object)       (* 201 *)
  | Updated (question : object)       (* 200 *)
  | Deleted (question : object).      (* 200 *)

(** The defaults of [POST /:courseId/questions], written before the body
    is spread over them. *)
Definition question_defaults (courseId : string) : object :=
  <["courseId" := JStr courseId]>
    (<["questionNumber" := JNum 1]>
       (<["points" := JNum 100]>
          (<["isLocked" := JBool false]>
             (<["hints" := JArr []]>
                (<["assets" := JObj (<["images" := JArr []]>
                                       (<["reference" := JStr ""]> ∅))]> ∅))))).

(** [POST /:courseId/questions] on the challenges file; [newQuestion] is
    the parsed body, an object. *)
Definition createQuestion (courseId : string) (newQuestion : object)
    (challenges : list object) : response * list object :=
  if negb (truthy (get newQuestion "id"))
     || negb (truthy (get newQuestion "title"))
     || negb (truthy (get newQuestion "level"))
  then (BadRequest "Question ID, title, and level are required", challenges)
  else
    match find (has_id (get newQuestion "id")) challenges with
    | Some _ => (BadRequest "Question ID already exists", challenges)
    | None =>
        let question := newQuestion ∪ question_defaults courseId in
        (Created question, challenges ++ [question])
    end.

(** [PUT /questions/:questionId]:
    [{ ...challenges[questionIndex], ...updatedQuestion, id: questionId }]. *)
Definition updateQuestion (questionId : string) (updatedQuestion : object)
    (challenges : list object) : response * list object :=
  match findIndex (has_id (JStr questionId)) challenges with
  | None => (NotFound, challenges)
  | Some questionIndex =>
      let question :=
        <["id" := JStr questionId]>
          (updatedQuestion ∪ default ∅ (challenges !! questionIndex)) in
      (Updated question, <[questionIndex := question]> challenges)
  end.

(** [DELETE /questions/:questionId]: [challenges.splice(questionIndex, 1)]. *)
Definition deleteQuestion (questionId : string) (challenges : list object)
  : response * list object :=
  match findIndex (has_id (JStr questionId)) challenges with
  | None => (NotFound, challenges)
  | Some questionIndex =>
      (Deleted (default ∅ (challenges !! questionIndex)),
       delete questionIndex challenges)
  end.

(** No id is carried by two stored questions. *)
Definition unique_ids (cs : list object) : Prop :=
  forall v, count_id v cs <= 1.

Lemma count_id_app v cs cs' :
  count_id v (cs ++ cs') = count_id v cs + count_id v cs'.
Proof. unfold count_id, ids. by rewrite fmap_app, List.filter_app, length_app. Qed.

Lemma count_id_singleton v (q : object) :
  count_id v [q] = if strict_eq (get q "id") v then 1 else 0.
Proof. unfold count_id, ids. simpl. by destruct (strict_eq _ _). Qed.

Lemma find_findIndex_None {A} (p : A -> bool) l :
  find p l = None <-> findIndex p l = None.
Proof.
  induction l as [|a l IH]; simpl; [done|].
  destruct (p a); [done|]. destruct (findIndex p l); simpl.
  - split; [|done]. intros H. apply IH in H. discriminate.
  - split; [done|]. intros _. by apply IH.
Qed.

Lemma find_Some_In {A} (p : A -> bool) l x :
  find p l = Some x -> In x l /\ p x = true.
Proof.
  induction l as [|a l IH]; simpl; [discriminate|].
  destruct (p a) eqn:Ha.
  - intros [= <-]. auto.
  - intros H. destruct (IH H). auto.
Qed.

Lemma find_app {A} (p : A -> bool) l r :
  find p (l ++ r) = match find p l with Some x => Some x | None => find p r end.
Proof.
  induction l as [|a l IH]; simpl; [reflexivity|]. by destruct (p a).
Qed.

(** The count of an id splits at any place of the file. *)
Lemma count_id_take_drop v i cs :
  count_id v cs = count_id v (take i cs) + count_id v (drop i cs).
Proof. by rewrite <- count_id_app, take_drop. Qed.

Lemma has_id_get v (c : object) : has_id v c = true -> get c "id" = v.
Proof. apply strict_eq_eq. Qed.

Lemma created_id courseId (newQuestion : object) :
  truthy (get newQuestion "id") = true ->
  get (newQuestion ∪ question_defaults courseId) "id" = get newQuestion "id".
Proof.
  intros Ht. unfold get at 1.
  by rewrite (lookup_union_Some_l _ _ _ _ (truthy_get_Some _ _ Ht)).
Qed.

Lemma findIndex_split v cs i :
  findIndex (has_id v) cs = Some i ->
  exists q, cs !! i = Some q /\ get q "id" = v
            /\ cs = take i cs ++ q :: drop (S i) cs
            /\ count_id v (take i cs) = 0.
Proof.
  intros Hi. destruct (findIndex_Some _ _ _ Hi) as (q & Hq & Hp & Hlt).
  exists q. split; [exact Hq|]. split; [by apply has_id_get|]. split.
  - by rewrite <- (take_drop_middle cs i q Hq) at 1.
  - apply count_id_none.
    destruct (findIndex (has_id v) (take i cs)) as [j|] eqn:Hj; [|reflexivity].
    destruct (findIndex_Some _ _ _ Hj) as (y & Hy & Hpy & _).
    assert (Hji : j < i).
    { apply lookup_lt_Some in Hy. rewrite length_take in Hy. lia. }
    rewrite lookup_take_lt in Hy by exact Hji.
    rewrite (Hlt j y Hji Hy) in Hpy. discriminate.
Qed.

Definition sample_body : object :=
  <["id" := JStr "q9"]> (<["title" := JStr "Nine"]> (<["level" := JNum 1]>
    (<["courseId" := JStr "css"]> ∅))).

Definition sample_store : list object :=
  [<["id" := JStr "q1"]> ∅; <["id" := JNum 7]> ∅].

(** X4. [createQuestion] keeps the ids of the file unique: it refuses an id
    that a stored question carries. *)
Theorem createQuestion_keeps_unique_ids
    (courseId : string) (newQuestion : object) (challenges : list object) :
  unique_ids challenges ->
  unique_ids (createQuestion courseId newQuestion challenges).2.
Proof.
  intros Hu. unfold createQuestion.
  destruct (negb (truthy (get newQuestion "id"))) eqn:Hid; [exact Hu|].
  destruct (_ || _); [exact Hu|].
  destruct (find (has_id (get newQuestion "id")) challenges) eqn:Hf;
    [exact Hu|].
  cbn [snd]. intros v. rewrite count_id_app, count_id_singleton.
  apply negb_false_iff in Hid. rewrite created_id by exact Hid.
  destruct (strict_eq (get newQuestion "id") v) eqn:Hv.
  - apply strict_eq_eq in Hv. subst v.
    apply find_findIndex_None in Hf. rewrite (count_id_none _ _ Hf). lia.
  - specialize (Hu v). lia.
Qed.

(** A file with unique ids, for [createQuestion_keeps_unique_ids]. *)
Lemma createQuestion_keeps_unique_ids_witness :
  unique_ids sample_store
  /\ unique_ids (createQuestion "html" sample_body sample_store).2.
Proof.
  assert (H : unique_ids sample_store).
  { intros v. unfold sample_store.
    change [<["id" := JStr "q1"]> ∅; <["id" := JNum 7]> ∅]
      with ([<["id" := JStr "q1"]> ∅] ++ [(<["id" := JNum 7]> ∅ : object)]).
    rewrite count_id_app, !count_id_singleton.
    change (get (<["id" := JStr "q1"]> ∅) "id") with (JStr "q1").
    change (get (<["id" := JNum 7]> ∅) "id") with (JNum 7).
    destruct (strict_eq (JStr "q1") v) eqn:E1;
      destruct (strict_eq (JNum 7) v) eqn:E2; try lia.
    apply strict_eq_eq in E1. apply strict_eq_eq in E2. congruence. }
  split; [exact H|]. exact (createQuestion_keeps_unique_ids _ _ _ H).
Defined.

(** X5. After a successful [createQuestion] the file is the old one with the
    new question at its end; the question has every field of the body as
    sent (the [courseId] of the body too, when there is one) and the
    default for each field the body lacks; and when its id is a string, a
    number or a boolean, looking the id up finds it. *)
Theorem createQuestion_stores_body
    (courseId : string) (newQuestion question : object)
    (challenges challenges' : list object) :
  createQuestion courseId newQuestion challenges = (Created question, challenges') ->
  challenges' = challenges ++ [question]
  /\ count_id (get newQuestion "id") challenges = 0
  /\ (forall k, question !! k
                = match newQuestion !! k with
                  | Some v => Some v
                  | None => question_defaults courseId !! k
                  end)
  /\ get question "courseId"
     = match newQuestion !! "courseId" with
       | Some v => v
       | None => JStr courseId
       end
  /\ (strict_eq (get newQuestion "id") (get newQuestion "id") = true ->
      find (has_id (get newQuestion "id")) challenges' = Some question).
Proof.
  unfold createQuestion.
  destruct (negb (truthy (get newQuestion "id"))) eqn:Hid; [discriminate|].
  destruct (_ || _); [discriminate|].
  destruct (find (has_id (get newQuestion "id")) challenges) eqn:Hf;
    [discriminate|].
  intros [= <- <-]. apply negb_false_iff in Hid.
  assert (Hk : forall k, (newQuestion ∪ question_defaults courseId) !! k
                 = match newQuestion !! k with
                   | Some v => Some v
                   | None => question_defaults courseId !! k
                   end).
  { intros k. rewrite lookup_union. by destruct (newQuestion !! k), (_ !! k). }
  split; [reflexivity|]. split.
  { apply count_id_none. by apply find_findIndex_None. }
  split; [exact Hk|]. split.
  { unfold get. rewrite Hk. by destruct (newQuestion !! "courseId"). }
  intros Hrefl. rewrite find_app, Hf. simpl.
  unfold has_id. by rewrite created_id, Hrefl.
Qed.

(** The sample body is accepted. *)
Lemma createQuestion_stores_body_witness :
  let out := createQuestion "html" sample_body sample_store in
  out = (Created (sample_body ∪ question_defaults "html"), out.2)
  /\ get (sample_body ∪ question_defaults "html") "courseId" = JStr "css".
Proof.
  intros out.
  assert (E : out = (Created (sample_body ∪ question_defaults "html"), out.2))
    by reflexivity.
  split; [exact E|].
  destruct (createQuestion_stores_body "html" sample_body _ sample_store
              out.2 E) as (_ & _ & _ & Hc & _).
  rewrite Hc. reflexivity.
Defined.

(** X6. [updateQuestion] never moves or changes an id: the file keeps its
    length and every place keeps its id, whatever id the body carries. An
    unknown id leaves the file as it is; otherwise the first question with
    the id of the URL gets the fields of the body over its own, except
    [id]. *)
Theorem updateQuestion_keeps_ids
    (questionId : string) (updatedQuestion : object)
    (challenges : list object) :
  let out := updateQuestion questionId updatedQuestion challenges in
  ids out.2 = ids challenges
  /\ match out.1 with
     | NotFound =>
         out.2 = challenges /\ count_id (JStr questionId) challenges = 0
     | Updated question =>
         exists i old,
           findIndex (has_id (JStr questionId)) challenges = Some i
           /\ challenges !! i = Some old
           /\ out.2 = <[i := question]> challenges
           /\ get question "id" = JStr questionId
           /\ (forall k, k <> "id" ->
                 question !! k = match updatedQuestion !! k with
                                 | Some v => Some v
                                 | None => old !! k
                                 end)
     | _ => False
     end.
Proof.
  unfold updateQuestion.
  destruct (findIndex (has_id (JStr questionId)) challenges) as [i|] eqn:Hi;
    cbn [fst snd].
  - destruct (findIndex_split _ _ _ Hi) as (old & Hold & Hid & _ & _).
    rewrite Hold. cbn [default]. split.
    + unfold ids. rewrite list_fmap_insert. apply list_insert_id.
      rewrite list_lookup_fmap, Hold. simpl. f_equal.
      unfold get at 2. rewrite lookup_insert_eq. simpl. exact Hid.
    + exists i, old. repeat split; try done.
      * unfold get. by rewrite lookup_insert_eq.
      * intros k Hk. rewrite lookup_insert_ne by done.
        rewrite lookup_union. unfold id.
        by destruct (updatedQuestion !! k), (old !! k).
  - split; [reflexivity|]. split; [reflexivity|]. by apply count_id_none.
Qed.

(** X7. [deleteQuestion] removes one question, the first with the id of the
    URL, and nothing else: the rest keeps its order, the count of that id
    drops by one and the count of every other id stays. With unique ids
    the id is gone from the file. *)
Theorem deleteQuestion_removes_first
    (questionId : string) (challenges : list object) :
  let out := deleteQuestion questionId challenges in
  match out.1 with
  | NotFound =>
      out.2 = challenges /\ count_id (JStr questionId) challenges = 0
  | Deleted question =>
      exists i,
        findIndex (has_id (JStr questionId)) challenges = Some i
        /\ challenges !! i = Some question
        /\ get question "id" = JStr questionId
        /\ out.2 = take i challenges ++ drop (S i) challenges
        /\ count_id (JStr questionId) out.2 + 1
           = count_id (JStr questionId) challenges
        /\ (forall v, v <> JStr questionId ->
              count_id v out.2 = count_id v challenges)
        /\ (unique_ids challenges -> count_id (JStr questionId) out.2 = 0)
  | _ => False
  end.
Proof.
  unfold deleteQuestion.
  destruct (findIndex (has_id (JStr questionId)) challenges) as [i|] eqn:Hi;
    cbn [fst snd].
  - destruct (findIndex_split _ _ _ Hi) as (q & Hq & Hid & Hsplit & H0).
    rewrite Hq. cbn [default]. exists i.
    assert (Hdel : delete i challenges = take i challenges ++ drop (S i) challenges)
      by apply delete_take_drop.
    assert (Hcount : forall v, count_id v challenges
              = count_id v (delete i challenges)
                + (if strict_eq (JStr questionId) v then 1 else 0)).
    { intros v. rewrite Hdel, Hsplit at 1.
      rewrite !count_id_app.
      change (q :: drop (S i) challenges) with ([q] ++ drop (S i) challenges).
      rewrite count_id_app, count_id_singleton, Hid. lia. }
    repeat split; try done.
    + rewrite (Hcount (JStr questionId)). simpl. rewrite String.eqb_refl. lia.
    + intros v Hv. rewrite (Hcount v).
      destruct (strict_eq (JStr questionId) v) eqn:E; [|lia].
      apply strict_eq_eq in E. congruence.
    + intros Hu. specialize (Hu (JStr questionId)).
      rewrite (Hcount (JStr questionId)) in Hu. simpl in Hu.
      rewrite String.eqb_refl in Hu. lia.
  - split; [reflexivity|]. by apply count_id_none.
Qed.

(** What an accepted creation tells about the request and the file. *)
Lemma createQuestion_created
    (courseId : string) (newQuestion question : object)
    (challenges challenges' : list object) :
  createQuestion courseId newQuestion challenges = (Created question, challenges') ->
  challenges' = challenges ++ [question]
  /\ find (has_id (get newQuestion "id")) challenges = None
  /\ get question "id" = get newQuestion "id".
Proof.
  unfold createQuestion.
  destruct (negb (truthy (get newQuestion "id"))) eqn:Hid; [discriminate|].
  destruct (_ || _); [discriminate|].
  destruct (find (has_id (get newQuestion "id")) challenges) eqn:Hf;
    [discriminate|].
  intros [= <- <-]. apply negb_false_iff in Hid.
  split; [reflexivity|]. split; [reflexivity|]. by apply created_id.
Qed.

(** X8. Creating a question under a string id and deleting that id gives the
    file back as it was, and the answer to the deletion is the question
    created. *)
Theorem create_then_delete
    (courseId id : string) (newQuestion question : object)
    (challenges challenges' : list object) :
  createQuestion courseId newQuestion challenges = (Created question, challenges') ->
  get newQuestion "id" = JStr id ->
  deleteQuestion id challenges' = (Deleted question, challenges).
Proof.
  intros Hc Hid.
  destruct (createQuestion_created _ _ _ _ _ Hc) as (-> & Hf & Hqid).
  rewrite Hid in *.
  assert (Hnone : findIndex (has_id (JStr id)) challenges = None)
    by (by apply find_findIndex_None).
  assert (Hq : has_id (JStr id) question = true).
  { unfold has_id. rewrite Hqid. simpl. apply String.eqb_refl. }
  unfold deleteQuestion. rewrite findIndex_app, Hnone. simpl. rewrite Hq. simpl.
  rewrite Nat.add_0_r, lookup_app_r, Nat.sub_diag by lia. simpl. f_equal.
  rewrite delete_take_drop, take_app_length, drop_ge;
    [by rewrite app_nil_r|rewrite length_app; simpl; lia].
Qed.

(** The sample body can be created and deleted again. *)
Lemma create_then_delete_witness :
  let out := createQuestion "html" sample_body sample_store in
  out = (Created (sample_body ∪ question_defaults "html"), out.2)
  /\ get sample_body "id" = JStr "q9"
  /\ deleteQuestion "q9" out.2
     = (Deleted (sample_body ∪ question_defaults "html"), sample_store).
Proof.
  intros out.
  assert (E : out = (Created (sample_body ∪ question_defaults "html"), out.2))
    by reflexivity.
  assert (Hid : get sample_body "id" = JStr "q9") by reflexivity.
  split; [exact E|]. split; [exact Hid|].
  exact (create_then_delete "html" "q9" sample_body _ sample_store out.2 E Hid).
Defined.

(** X9. The id of the URL is a string, and [===] tells a string from every
    other value: a stored question whose id is not a string is out of the
    reach of [updateQuestion] and [deleteQuestion], whatever the URL. *)
Theorem non_string_id_untouched
    (questionId : string) (updatedQuestion c : object)
    (challenges : list object) :
  In c challenges ->
  (forall s, get c "id" <> JStr s) ->
  In c (updateQuestion questionId updatedQuestion challenges).2
  /\ In c (deleteQuestion questionId challenges).2.
Proof.
  intros Hin Hns. unfold updateQuestion, deleteQuestion.
  destruct (findIndex (has_id (JStr questionId)) challenges) as [i|] eqn:Hi;
    [|by split].
  destruct (findIndex_split _ _ _ Hi) as (q & Hq & Hid & Hsplit & _).
  assert (Hne : c <> q) by (intros ->; by apply (Hns questionId)).
  cbn [snd]. rewrite delete_take_drop.
  rewrite Hsplit in Hin. apply in_app_or in Hin as [Hin|[Hin|Hin]];
    [|congruence|].
  - split; [|apply in_or_app; by left].
    apply list_elem_of_In. apply list_elem_of_In in Hin.
    apply list_elem_of_lookup in Hin as [j Hj].
    apply list_elem_of_lookup. exists j.
    assert (Hji : j < i).
    { apply lookup_lt_Some in Hj. rewrite length_take in Hj. lia. }
    rewrite lookup_take_lt in Hj by exact Hji.
    rewrite list_lookup_insert_ne by lia. exact Hj.
  - split; [|apply in_or_app; by right].
    apply list_elem_of_In. apply list_elem_of_In in Hin.
    apply list_elem_of_lookup in Hin as [j Hj].
    apply list_elem_of_lookup. exists (S i + j).
    rewrite lookup_drop in Hj.
    rewrite list_lookup_insert_ne by lia. exact Hj.
Qed.

(** The question with the number for id in the sample file. *)
Lemma non_string_id_untouched_witness :
  In (<["id" := JNum 7]> ∅) sample_store
  /\ (forall s, get (<["id" := JNum 7]> ∅ : object) "id" <> JStr s)
  /\ In (<["id" := JNum 7]> ∅) (deleteQuestion "7" sample_store).2.
Proof.
  assert (Hin : In (<["id" := JNum 7]> ∅ : object) sample_store)
    by (right; left; reflexivity).
  assert (Hns : forall s, get (<["id" := JNum 7]> ∅ : object) "id" <> JStr s)
    by (intros s; discriminate).
  split; [exact Hin|]. split; [exact Hns|].
  exact (proj2 (non_string_id_untouched "7" ∅ _ sample_store Hin Hns)).
Defined.

End Questions.

(** ** The course-wide bulk upload and the random draw *)

Module QuestionBank.
Import JS BulkUpload Questions.

(** The working copy and the counters of the loop of
    [POST /:courseId/questions/bulk]. *)
Record tally : Type := {
  t_challenges : list object;
  t_added : nat;
  t_skipped : nat;
  t_errors : list string
}.

Record report : Type := {
  r_added : nat;
  r_skipped : nat;
  r_total : nat;
  r_errors : option (list string)
}.

Inductive bulk_response : Type :=
  | QuestionsRequired      (* 400 *)
  | UnknownCourse          (* 404 *)
  | Completed (body : report).

(** The answer of [GET /:courseId/levels/:level/randomize]: the bare empty
    array when the level has no question, the selection otherwise. *)
Inductive draw : Type :=
  | EmptyArray
  | Picked (questions : list object) (totalAvailable selected : nat).

(** [arr.slice(0, end)] for an integer [end]: a negative end counts from
    the end of the array. *)
Definition slice0 {A : Type} (l : list A) (e : Z) : list A :=
  let len := Z.of_nat (length l) in
  take (Z.to_nat (if (e <? 0)%Z then Z.max (len + e) 0 else Z.min e len)) l.

Section Bulk.

(** The platform: the conversion of a value inside a template literal,
    the two clock readings per item and the message of a [TypeError]. *)
Variable toString : jsval -> string.
Variable created_at updated_at : nat -> string.
Variable type_error : string.

(** The URL parameter. *)
Variable courseId : string.

(** [{ ...question, courseId, createdAt: question.createdAt || now,
    updatedAt: now }] *)
Definition newQuestion (index : nat) (question : object) : object :=
  <["updatedAt" := JStr (updated_at index)]>
    (<["createdAt" := or_else (get question "createdAt")
                        (JStr (created_at index))]>
       (<["courseId" := JStr courseId]> question)).

Definition skipped_with (message : string) (st : tally) : tally :=
  {| t_challenges := t_challenges st;
     t_added := t_added st;
     t_skipped := S (t_skipped st);
     t_errors := t_errors st ++ [message] |}.

(** The body of the loop for the item at [index]. *)
Definition add_one (index : nat) (question : jsval) (st : tally) : tally :=
  match member question "id", member question "title",
        member question "level" with
  | Some id, Some title, Some level =>
      if negb (truthy id) || negb (truthy title) || negb (truthy level)
      then skipped_with (question_label index
                         +:+ "Missing required fields (id, title, level)") st
      else
        match find (has_id id) (t_challenges st) with
        | Some _ =>
            skipped_with (question_label index +:+ "ID " +:+ PreviewFrame.dq
                          +:+ toString id +:+ PreviewFrame.dq
                          +:+ " already exists") st
        | None =>
            {| t_challenges :=
                 t_challenges st
                 ++ [newQuestion index
                       (match question with JObj o => o | _ => ∅ end)];
               t_added := S (t_added st);
               t_skipped := t_skipped st;
               t_errors := t_errors st |}
        end
  | _, _, _ => skipped_with (question_label index +:+ type_error) st
  end.

Fixpoint add_all (index : nat) (questions : list jsval) (st : tally) : tally :=
  match questions with
  | [] => st
  | question :: rest => add_all (S index) rest (add_one index question st)
  end.

(** The handler on the request body [{ questions }]. *)
Definition bulkCourse (questions : jsval) (fs : files) : bulk_response * files :=
  match questions with
  | JArr (q :: qs) =>
      match find (is_course courseId) (courses_file fs) with
      | None => (UnknownCourse, fs)
      | Some _ =>
          let st := add_all 0 (q :: qs)
                      {| t_challenges := challenges_file fs; t_added := 0;
                         t_skipped := 0; t_errors := [] |} in
          (Completed {| r_added := t_added st;
                        r_skipped := t_skipped st;
                        r_total := length (q :: qs);
                        r_errors := match t_errors st with
                                    | [] => None
                                    | e => Some e
                                    end |},
           if 0 <? t_added st
           then {| courses_file := courses_file fs;
                   challenges_file := t_challenges st |}
           else fs)
      end
  | _ => (QuestionsRequired, fs)
  end.

End Bulk.

Section Randomize.

(** [parseInt] of a string, [None] for [NaN], and the outcome of
    [[...levelQuestions].sort(() => 0.5 - Math.random())]. *)
Variable parseInt : string -> option Z.
Variable shuffle : list object -> list object.

Definition number (n : option Z) : jsval :=
  match n with Some z => JNum z | None => JNaN end.

(** [parseInt(req.query.count) || 2] *)
Definition requested (count : option string) : Z :=
  match count ≫= parseInt with
  | Some n => if (n =? 0)%Z then 2%Z else n
  | None => 2%Z
  end.

Definition levelQuestions (courseId level : string) (challenges : list object)
  : list object :=
  List.filter (fun c => strict_eq (get c "courseId") (JStr courseId)
                        && strict_eq (get c "level") (number (parseInt level)))
    challenges.

Definition randomize (courseId level : string) (count : option string)
    (challenges : list object) : draw :=
  let available := levelQuestions courseId level challenges in
  match available with
  | [] => EmptyArray
  | _ =>
      let randomQuestions :=
        slice0 (shuffle available)
          (Z.min (requested count) (Z.of_nat (length available))) in
      Picked randomQuestions (length available) (length randomQuestions)
  end.

End Randomize.

Section BulkFacts.

Variable toString : jsval -> string.
Variable created_at updated_at : nat -> string.
Variable type_error courseId : string.

#[local] Abbreviation add_one' :=
  (add_one toString created_at updated_at type_error courseId).
#[local] Abbreviation add_all' :=
  (add_all toString created_at updated_at type_error courseId).
#[local] Abbreviation newQuestion' :=
  (newQuestion created_at updated_at courseId).

(** What the loop has done to the working copy after the items that
    start at the place [first] of the upload: it has appended [news] and
    touched nothing else. *)
Record grown (first : nat) (items : list jsval) (st st' : tally)
    (news : list object) : Prop := {
  g_challenges : t_challenges st' = t_challenges st ++ news;
  g_added : t_added st' = t_added st + length news;
  g_counted :
    t_added st' + t_skipped st' = t_added st + t_skipped st + length items;
  g_errors :
    length (t_errors st) = t_skipped st ->
    length (t_errors st') = t_skipped st';
  g_news :
    Forall (fun q => exists i o,
              items !! i = Some (JObj o) /\ q = newQuestion' (first + i) o
              /\ truthy (get o "id") = true
              /\ count_id (get o "id") (t_challenges st) = 0) news;
  g_unique : unique_ids (t_challenges st) -> unique_ids (t_challenges st')
}.

Lemma newQuestion_id i o : get (newQuestion' i o) "id" = get o "id".
Proof. unfold get, newQuestion. by simplify_map_eq. Qed.

Lemma add_one_grown index question st :
  exists news, grown index [question] st (add_one' index question st) news.
Proof.
  assert (Hskip : forall m, grown index [question] st (skipped_with m st) []).
  { intros m. split; simpl; rewrite ?app_nil_r, ?length_app; simpl;
      try lia; auto. }
  unfold add_one.
  destruct question as [| |b|n| |s|l|o]; simpl; try (eexists; apply Hskip).
  destruct (truthy (get o "id")) eqn:Hid; simpl; [|eexists; apply Hskip].
  destruct (negb (truthy (get o "title")) || negb (truthy (get o "level")));
    [eexists; apply Hskip|].
  destruct (find (has_id (get o "id")) (t_challenges st)) eqn:Hf;
    [eexists; apply Hskip|].
  assert (H0 : count_id (get o "id") (t_challenges st) = 0)
    by (apply count_id_none; by apply find_findIndex_None).
  exists [newQuestion' index o]. split; simpl; try lia; auto.
  - constructor; [|constructor]. exists 0, o.
    rewrite Nat.add_0_r. repeat split; auto.
  - intros Hu v. rewrite count_id_app, count_id_singleton, newQuestion_id.
    destruct (strict_eq (get o "id") v) eqn:Hv.
    + apply strict_eq_eq in Hv. subst v. lia.
    + specialize (Hu v). lia.
Qed.

Lemma grown_trans first items1 items2 st1 st2 st3 news1 news2 :
  grown first items1 st1 st2 news1 ->
  grown (first + length items1) items2 st2 st3 news2 ->
  grown first (items1 ++ items2) st1 st3 (news1 ++ news2).
Proof.
  intros [C1 A1 N1 E1 F1 U1] [C2 A2 N2 E2 F2 U2]. split.
  - by rewrite C2, C1, app_assoc.
  - rewrite A2, A1, length_app. lia.
  - rewrite length_app. lia.
  - auto.
  - apply Forall_app. split.
    + eapply Forall_impl; [exact F1|].
      intros q (i & o & Hin & Hq & Ht & H0). exists i, o.
      repeat split; auto. by apply lookup_app_l_Some.
    + eapply Forall_impl; [exact F2|].
      intros q (i & o & Hin & Hq & Ht & H0). exists (length items1 + i), o.
      repeat split; auto.
      * by rewrite lookup_app_r, Nat.add_comm, Nat.add_sub by lia.
      * by rewrite Nat.add_assoc.
      * rewrite C1, count_id_app in H0. lia.
  - auto.
Qed.

Lemma add_all_grown items index st :
  exists news, grown index items st (add_all' index items st) news.
Proof.
  revert index st. induction items as [|q qs IH]; intros index st; simpl.
  - exists []. split; simpl; rewrite ?app_nil_r; auto; lia.
  - destruct (add_one_grown index q st) as [n1 H1].
    destruct (IH (S index) (add_one' index q st)) as [n2 H2].
    exists (n1 ++ n2). apply (grown_trans index [q] qs _ _ _ _ _ H1).
    by replace (index + length [q]) with (S index) by (simpl; lia).
Qed.

End BulkFacts.

Definition report_of (r : bulk_response) : report :=
  match r with
  | Completed b => b
  | _ => {| r_added := 0; r_skipped := 0; r_total := 0; r_errors := None |}
  end.

Definition sample_upload : jsval :=
  JArr [JObj (<["id" := JStr "q1"]> (<["title" := JStr "One"]>
                (<["level" := JNum 3]> (<["courseId" := JStr "css"]> ∅))));
        JObj (<["id" := JStr "old"]> (<["title" := JStr "Old"]>
                (<["level" := JNum 1]> ∅)));
        JNull].

Definition sample_bulkCourse : bulk_response * files :=
  bulkCourse (fun _ => "old") (fun _ => "t0") (fun _ => "t1") "TypeError"
    "html" sample_upload BulkUploadReport.sample_files.

(** X10. The course-wide bulk upload only appends: the courses and every
    stored question stay as they were, a question whose id is stored is
    skipped and not updated, and each appended question is an item of the
    upload with the course of the URL, all its other fields, the level
    too, as uploaded, and two time stamps: [updatedAt] is the time the
    item was handled, [createdAt] is the one uploaded when the item
    carries a truthy one and the time it was handled otherwise. *)
Theorem bulkCourse_only_appends
    (toString : jsval -> string) (created_at updated_at : nat -> string)
    (type_error courseId : string) (questions : jsval) (fs : files) :
  let out := bulkCourse toString created_at updated_at type_error courseId
               questions fs in
  courses_file out.2 = courses_file fs
  /\ exists news,
       challenges_file out.2 = challenges_file fs ++ news
       /\ Forall (fun q =>
            get q "courseId" = JStr courseId
            /\ exists (index : nat) (o : object) (items : list jsval),
                 questions = JArr items /\ items !! index = Some (JObj o)
                 /\ count_id (get o "id") (challenges_file fs) = 0
                 /\ get q "id" = get o "id"
                 /\ q !! "level" = o !! "level"
                 /\ get q "updatedAt" = JStr (updated_at index)
                 /\ get q "createdAt"
                    = (if truthy (get o "createdAt") then get o "createdAt"
                       else JStr (created_at index))
                 /\ (forall k, k <> "courseId" -> k <> "createdAt" ->
                       k <> "updatedAt" -> q !! k = o !! k)) news.
Proof.
  unfold bulkCourse.
  destruct questions as [| |b|n| |s|[|q qs]|o];
    try (split; [reflexivity|]; exists []; by rewrite app_nil_r).
  destruct (find (is_course courseId) (courses_file fs));
    [|split; [reflexivity|]; exists []; by rewrite app_nil_r].
  destruct (add_all_grown toString created_at updated_at type_error courseId
              (q :: qs) 0
              {| t_challenges := challenges_file fs; t_added := 0;
                 t_skipped := 0; t_errors := [] |}) as [news [C A N E F U]].
  cbn [snd]. cbn [t_challenges t_added] in *.
  destruct (0 <? t_added _) eqn:Hs; cbn [courses_file challenges_file].
  - split; [reflexivity|]. exists news. split; [exact C|].
    eapply Forall_impl; [exact F|].
    intros x (i & o & Hin & -> & Ht & H0). rewrite Nat.add_0_l. split.
    { unfold get, newQuestion. by simplify_map_eq. }
    exists i, o, (q :: qs). repeat split; auto.
    + unfold get, newQuestion. by simplify_map_eq.
    + unfold newQuestion. by simplify_map_eq.
    + unfold get, newQuestion. by simplify_map_eq.
    + unfold get at 1. unfold newQuestion. by simplify_map_eq.
    + intros k H1 H2 H3. unfold newQuestion. by simplify_map_eq.
  - split; [reflexivity|]. exists []. split; [by rewrite app_nil_r|constructor].
Qed.

(** The time stamps of an upload of two new questions, the second with a
    [createdAt] of its own. *)
Example uploaded_createdAt_is_kept :
  let upload :=
    JArr [JObj (<["id" := JStr "a"]> (<["title" := JStr "A"]>
                  (<["level" := JNum 1]> ∅)));
          JObj (<["id" := JStr "b"]> (<["title" := JStr "B"]>
                  (<["level" := JNum 1]>
                     (<["createdAt" := JStr "2020"]> ∅))))] in
  let saved :=
    drop 1 (challenges_file
              (bulkCourse (fun _ => "id") (fun i => "c" +:+ pretty i)
                 (fun i => "u" +:+ pretty i) "TypeError" "html" upload
                 BulkUploadReport.sample_files).2) in
  (fun c => get c "createdAt") <$> saved = [JStr "c0"; JStr "2020"]
  /\ (fun c => get c "updatedAt") <$> saved = [JStr "u0"; JStr "u1"].
Proof. vm_compute. split; reflexivity. Qed.



Example sample_bulkCourse_result :
  report_of sample_bulkCourse.1
  = {| r_added := 1; r_skipped := 2; r_total := 3;
       r_errors :=
         Some ["Question 2: ID " +:+ PreviewFrame.dq +:+ "old"
               +:+ PreviewFrame.dq +:+ " already exists";
               "Question 3: TypeError"] |}
  /\ (fun c => get c "level") <$> challenges_file sample_bulkCourse.2
     = [JUndefined; JNum 3]
  /\ (fun c => get c "courseId") <$> challenges_file sample_bulkCourse.2
     = [JUndefined; JStr "html"].
Proof. vm_compute. repeat split; reflexivity. Qed.

Lemma slice0_length {A} (l : list A) (e : Z) :
  length (slice0 l e)
  = Z.to_nat (if (e <? 0)%Z then Z.max (Z.of_nat (length l) + e) 0
              else Z.min e (Z.of_nat (length l))).
Proof.
  unfold slice0. rewrite length_take.
  destruct (e <? 0)%Z eqn:He; lia.
Qed.

(** X12. The count asked for is [parseInt] of the [count] of the query, and
    2 when the query has none or [parseInt] makes zero or [NaN] of it.
    The random draw answers the bare empty array exactly when no stored
    question has the course and the level of the URL. Otherwise every
    question drawn is a stored question of that course and level, and the
    number drawn is the count asked for, capped by the number available;
    a negative count is not refused: it drops that many questions from
    the end of the shuffled level. *)
Theorem randomize_draws_from_level
    (parseInt : string -> option Z) (shuffle : list object -> list object)
    (courseId level : string) (count : option string)
    (challenges : list object) :
  (forall l, Permutation (shuffle l) l) ->
  let available := levelQuestions parseInt courseId level challenges in
  let n := match count with
           | None => 2%Z
           | Some text =>
               match parseInt text with
               | None | Some 0%Z => 2%Z
               | Some z => z
               end
           end in
  match randomize parseInt shuffle courseId level count challenges with
  | EmptyArray => available = []
  | Picked questions totalAvailable selected =>
      totalAvailable = length available
      /\ 0 < totalAvailable
      /\ selected = length questions
      /\ selected <= totalAvailable
      /\ n <> 0%Z
      /\ ((0 < n)%Z -> selected = min (Z.to_nat n) totalAvailable)
      /\ ((n < 0)%Z ->
          selected = totalAvailable - min (Z.to_nat (- n)) totalAvailable)
      /\ (forall q, In q questions ->
            In q challenges
            /\ get q "courseId" = JStr courseId
            /\ get q "level" = number (parseInt level))
  end.
Proof.
  intros Hperm available n. unfold randomize. fold available.
  assert (Hreq : requested parseInt count = n).
  { unfold requested, n. destruct count as [text|]; [|reflexivity]. simpl.
    destruct (parseInt text) as [[|p|p]|]; reflexivity. }
  rewrite Hreq.
  destruct available as [|a av] eqn:Hav; [reflexivity|].
  rewrite <- Hav.
  assert (Hlen : length (shuffle available) = length available)
    by apply Permutation_length, Hperm.
  assert (Hpos : 0 < length available) by (rewrite Hav; simpl; lia).
  assert (Hn : n <> 0%Z).
  { unfold n. destruct count as [text|]; [|lia].
    destruct (parseInt text) as [[|p|p]|]; lia. }
  rewrite slice0_length, Hlen.
  repeat split; try done.
  - destruct (Z.min n (Z.of_nat (length available)) <? 0)%Z eqn:E; lia.
  - intros H. destruct (Z.min n (Z.of_nat (length available)) <? 0)%Z eqn:E;
      lia.
  - intros H. destruct (Z.min n (Z.of_nat (length available)) <? 0)%Z eqn:E;
      lia.
  - assert (Hq : In q available).
    { apply list_elem_of_In. rewrite <- (Hperm available).
      apply list_elem_of_In in H. unfold slice0 in H.
      apply elem_of_take in H as (i & Hi & _).
      by eapply list_elem_of_lookup_2. }
    unfold available, levelQuestions in Hq. apply List.filter_In in Hq.
    tauto.
  - assert (Hq : In q available).
    { apply list_elem_of_In. rewrite <- (Hperm available).
      apply list_elem_of_In in H. unfold slice0 in H.
      apply elem_of_take in H as (i & Hi & _).
      by eapply list_elem_of_lookup_2. }
    unfold available, levelQuestions in Hq. apply List.filter_In in Hq.
    destruct Hq as [_ Hq]. apply andb_true_iff in Hq as [Hq _].
    by apply strict_eq_eq.
  - assert (Hq : In q available).
    { apply list_elem_of_In. rewrite <- (Hperm available).
      apply list_elem_of_In in H. unfold slice0 in H.
      apply elem_of_take in H as (i & Hi & _).
      by eapply list_elem_of_lookup_2. }
    unfold available, levelQuestions in Hq. apply List.filter_In in Hq.
    destruct Hq as [_ Hq]. apply andb_true_iff in Hq as [_ Hq].
    by apply strict_eq_eq.
Qed.

Definition sample_level : list object :=
  [<["courseId" := JStr "html"]> (<["level" := JNum 1]> ∅);
   <["courseId" := JStr "html"]> (<["level" := JNum 1]>
     (<["id" := JStr "b"]> ∅))].

Example negative_count_drops_from_the_end :
  randomize (fun _ => Some 1%Z) (fun l => l) "html" "1" None sample_level
  = Picked sample_level 2 2
  /\ randomize (fun s => if String.eqb s "1" then Some 1%Z else Some (-1)%Z)
       (fun l => l) "html" "1" (Some "-1") sample_level
     = Picked (take 1 sample_level) 2 1.
Proof. split; reflexivity. Qed.

(** Three questions of a level: the count of the query decides how many
    are drawn, and two are drawn without one. *)
Example count_of_the_query_is_read :
  let three := sample_level ++ take 1 sample_level in
  let parseInt s :=
    if String.eqb s "3" then Some 3%Z
    else if String.eqb s "0" then Some 0%Z
    else if String.eqb s "1" then Some 1%Z else None in
  let drawn count :=
    match randomize parseInt (fun l => l) "html" "1" count three with
    | EmptyArray => 0
    | Picked _ _ selected => selected
    end in
  drawn None = 2 /\ drawn (Some "3") = 3 /\ drawn (Some "0") = 2
  /\ drawn (Some "many") = 2 /\ drawn (Some "1") = 1.
Proof. vm_compute. repeat split; reflexivity. Qed.

(** A draw without shuffling meets the hypothesis of
    [randomize_draws_from_level]. *)
Lemma randomize_draws_from_level_witness :
  (forall l : list object, Permutation l l)
  /\ match randomize (fun _ => Some 1%Z) (fun l => l) "html" "1" None
             sample_level with
     | EmptyArray => False
     | Picked questions totalAvailable selected => selected <= totalAvailable
     end.
Proof.
  assert (H : forall l : list object, Permutation l l) by reflexivity.
  split; [exact H|].
  pose proof (randomize_draws_from_level (fun _ => Some 1%Z) (fun l => l)
                "html" "1" None sample_level H) as Hr.
  destruct (randomize (fun _ => Some 1%Z) (fun l => l) "html" "1" None
              sample_level) as [|qs t sel]; [discriminate Hr|].
  exact (proj1 (proj2 (proj2 (proj2 Hr)))).
Defined.

End QuestionBank.

(** ** Exam restrictions of a course *)

Module Restrictions.
Import JS BulkUpload.

Inductive response : Type :=
  | CourseNotFound               (* 404 *)
  | Saved (restrictions : object)
  | Found (restrictions : jsval).

(** [v !== undefined ? v : d] *)
Definition defined_or (v d : jsval) : jsval :=
  match v with JUndefined => d | _ => v end.

(** The object [PUT /:courseId/restrictions] builds from the body. *)
Definition restrictions_of (body : object) : object :=
  <["blockCopy" := defined_or (get body "blockCopy") (JBool true)]>
    (<["blockPaste" := defined_or (get body "blockPaste") (JBool true)]>
       (<["forceFullscreen" :=
            defined_or (get body "forceFullscreen") (JBool true)]>
          (<["maxViolations" := or_else (get body "maxViolations") (JNum 3)]>
             (<["timeLimit" := defined_or (get body "timeLimit") (JNum 0)]>
                ∅)))).

(** The defaults [GET /:courseId/restrictions] answers with. *)
Definition default_restrictions : object :=
  <["blockCopy" := JBool true]>
    (<["blockPaste" := JBool true]>
       (<["forceFullscreen" := JBool true]>
          (<["maxViolations" := JNum 3]> (<["timeLimit" := JNum 0]> ∅)))).

(** [PUT /:courseId/restrictions] on the courses file. *)
Definition updateCourseRestrictions (courseId : string) (body : object)
    (courses : list object) : response * list object :=
  match findIndex (has_id (JStr courseId)) courses with
  | None => (CourseNotFound, courses)
  | Some courseIndex =>
      let restrictions := restrictions_of body in
      (Saved restrictions,
       <[courseIndex :=
           <["restrictions" := JObj restrictions]>
             (default ∅ (courses !! courseIndex))]> courses)
  end.

(** [GET /:courseId/restrictions]: [course.restrictions || defaults]. *)
Definition getCourseRestrictions (courseId : string) (courses : list object)
  : response :=
  match find (has_id (JStr courseId)) courses with
  | None => CourseNotFound
  | Some course =>
      Found (or_else (get course "restrictions") (JObj default_restrictions))
  end.

Lemma find_lookup {A} (p : A -> bool) l :
  find p l = findIndex p l ≫= (fun j => l !! j).
Proof.
  induction l as [|a l IH]; simpl; [reflexivity|].
  destruct (p a); [reflexivity|]. rewrite IH.
  by destruct (findIndex p l).
Qed.

Lemma findIndex_insert_same {A} (p : A -> bool) i (x x' : A) l :
  l !! i = Some x -> p x' = p x ->
  findIndex p (<[i := x']> l) = findIndex p l.
Proof.
  revert i. induction l as [|a l IH]; intros i Hi Hp; [reflexivity|].
  destruct i as [|i]; simpl in *.
  - injection Hi as ->. by rewrite Hp.
  - destruct (p a); [reflexivity|]. by rewrite (IH i).
Qed.

Definition sample_courses : list object :=
  [<["id" := JStr "css"]> ∅; <["id" := JStr "html"]> ∅].

(** X13. What [updateCourseRestrictions] saves is what
    [getCourseRestrictions] then answers for that course, and the answers
    for courses with another id do not change. The saved object has the
    five fields and no other, none of them [undefined], and a
    [maxViolations] that is never [0] or missing: such a value is stored
    as 3. *)
Theorem restrictions_round_trip
    (courseId : string) (body restrictions : object)
    (courses courses' : list object) :
  updateCourseRestrictions courseId body courses = (Saved restrictions, courses') ->
  getCourseRestrictions courseId courses' = Found (JObj restrictions)
  /\ restrictions = restrictions_of body
  /\ dom restrictions
     = ({["blockCopy"; "blockPaste"; "forceFullscreen"; "maxViolations";
          "timeLimit"]} : gset string)
  /\ (forall k, k ∈ dom restrictions -> get restrictions k <> JUndefined)
  /\ truthy (get restrictions "maxViolations") = true
  /\ length courses' = length courses
  /\ (forall other, other <> courseId ->
        getCourseRestrictions other courses'
        = getCourseRestrictions other courses).
Proof.
  unfold updateCourseRestrictions.
  destruct (findIndex (has_id (JStr courseId)) courses) as [i|] eqn:Hi;
    [|discriminate].
  destruct (findIndex_Some _ _ _ Hi) as (c & Hc & Hp & _).
  rewrite Hc. cbn [default]. unfold id. intros [= <- <-].
  assert (Hsame : forall v,
            has_id v (<["restrictions" := JObj (restrictions_of body)]> c)
            = has_id v c).
  { intros v. unfold has_id, get. by rewrite lookup_insert_ne. }
  assert (Hidx : forall v,
            findIndex (has_id v)
              (<[i := <["restrictions" := JObj (restrictions_of body)]> c]>
                 courses)
            = findIndex (has_id v) courses).
  { intros v. by apply (findIndex_insert_same _ _ c). }
  assert (Hlt : i < length courses) by (by eapply lookup_lt_Some).
  assert (Hdom : dom (restrictions_of body)
            = ({["blockCopy"; "blockPaste"; "forceFullscreen";
                 "maxViolations"; "timeLimit"]} : gset string)).
  { unfold restrictions_of. rewrite !dom_insert_L, dom_empty_L. set_solver. }
  split; [|split; [reflexivity|split; [exact Hdom|split; [|split; [|split]]]]].
  - unfold getCourseRestrictions. rewrite find_lookup, Hidx, Hi. simpl.
    rewrite list_lookup_insert_eq by exact Hlt.
    unfold get. by rewrite lookup_insert_eq.
  - intros k Hk. rewrite Hdom in Hk.
    assert (Hd : forall v d, d <> JUndefined -> defined_or v d <> JUndefined)
      by (intros [] d Hnd; simpl; congruence).
    assert (Ho : forall v d, truthy d = true -> or_else v d <> JUndefined).
    { intros v d Htd E. unfold or_else in E.
      destruct (truthy v) eqn:Hv; subst; discriminate. }
    unfold get, restrictions_of.
    set_unfold in Hk.
    destruct Hk as [[[[Hk|Hk]|Hk]|Hk]|Hk]; subst k; simplify_map_eq;
      solve [apply Hd; discriminate | apply Ho; reflexivity].
  - assert (Ho : forall v d, truthy d = true -> truthy (or_else v d) = true).
    { intros v d Htd. unfold or_else. by destruct (truthy v) eqn:Hv. }
    unfold get, restrictions_of. simplify_map_eq. by apply Ho.
  - by rewrite length_insert.
  - intros other Hne. unfold getCourseRestrictions.
    rewrite !find_lookup, Hidx.
    destruct (findIndex (has_id (JStr other)) courses) as [j|] eqn:Hj;
      [|reflexivity].
    simpl. destruct (findIndex_Some _ _ _ Hj) as (cj & Hcj & Hpj & _).
    assert (Hji : i <> j).
    { intros ->. assert (c = cj) as -> by congruence.
      apply strict_eq_eq in Hp. apply strict_eq_eq in Hpj. congruence. }
    by rewrite list_lookup_insert_ne.
Qed.

(** A body without [maxViolations] for a stored course. *)
Lemma restrictions_round_trip_witness :
  let body : object := <["blockCopy" := JBool false]> (<["maxViolations" := JNum 0]> ∅) in
  let out := updateCourseRestrictions "html" body sample_courses in
  out = (Saved (restrictions_of body), out.2)
  /\ getCourseRestrictions "html" out.2 = Found (JObj (restrictions_of body))
  /\ get (restrictions_of body) "maxViolations" = JNum 3.
Proof.
  intros body out.
  assert (E : out = (Saved (restrictions_of body), out.2)) by reflexivity.
  split; [exact E|].
  split; [|reflexivity].
  exact (proj1 (restrictions_round_trip "html" body _ sample_courses out.2 E)).
Defined.

(** X14. A course that was never configured, or whose [restrictions] is falsy,
    is answered the defaults, and these are what an update with an empty
    body stores: copy, paste and windowed mode blocked, three violations,
    no time limit. An unknown course is answered 404 by both routes and
    the update writes nothing. *)
Theorem restrictions_defaults (courseId : string) (courses : list object) :
  restrictions_of ∅ = default_restrictions
  /\ match find (has_id (JStr courseId)) courses with
     | None =>
         getCourseRestrictions courseId courses = CourseNotFound
         /\ forall body,
              updateCourseRestrictions courseId body courses
              = (CourseNotFound, courses)
     | Some course =>
         (truthy (get course "restrictions") = false ->
          getCourseRestrictions courseId courses
          = Found (JObj default_restrictions))
         /\ (truthy (get course "restrictions") = true ->
             getCourseRestrictions courseId courses
             = Found (get course "restrictions"))
     end.
Proof.
  split; [reflexivity|].
  unfold getCourseRestrictions, updateCourseRestrictions.
  destruct (find (has_id (JStr courseId)) courses) as [c|] eqn:Hf.
  - unfold or_else. split; intros ->; reflexivity.
  - split; [reflexivity|]. intros body.
    rewrite find_lookup in Hf.
    destruct (findIndex (has_id (JStr courseId)) courses) as [i|] eqn:Hi;
      [|reflexivity].
    destruct (findIndex_Some _ _ _ Hi) as (c & Hc & _).
    simpl in Hf. congruence.
Qed.

End Restrictions.

(** ** Asset metadata *)

Module Assets.
Import JS.

(** [req.file] as multer hands it to the route. *)
Record file : Type := {
  filename : string;
  originalname : string;
  path : string;
  mimetype : string;
  size : Z
}.

Inductive directory : Type := imagesDir | referencesDir | coursesDir.

Inductive response : Type :=
  | NoFileUploaded               (* 400 *)
  | AssetNotFound                (* 404 *)
  | Created (assetInfo : object) (* 201 *)
  | Deleted.

Definition category_of (body : object) : jsval :=
  or_else (get body "category") (JStr "general").

(** [destination] of the disk storage. multer calls it when it meets the
    file part of the request: [body] holds the fields that came before
    the file, not those that follow it. *)
Definition destination (body : object) (f : file) : directory :=
  let category := category_of body in
  if strict_eq category (JStr "references") then referencesDir
  else if strict_eq category (JStr "courses") then coursesDir
  else if String.prefix "image/" (mimetype f) then imagesDir
  else imagesDir.

Definition allowedMimes : list jsval :=
  [JStr "image/jpeg"; JStr "image/png"; JStr "image/gif"; JStr "image/webp";
   JStr "image/svg+xml"; JStr "text/html"; JStr "text/css";
   JStr "text/javascript"; JStr "application/javascript";
   JStr "application/json"].

(** [fileFilter]: [true] accepts the file. *)
Definition fileFilter (f : file) : bool :=
  includes allowedMimes (JStr (mimetype f)).

(** [new Set(values)] spread into an array: the values in the order of
    their first occurrence, compared by SameValueZero. *)
Definition set_add (seen : list jsval) (v : jsval) : list jsval :=
  if includes seen v then seen else seen ++ [v].

Definition set_of (values : list jsval) : list jsval :=
  fold_left set_add values [].

(** The categories of the stored assets, one per asset. *)
Definition stored_categories (metadata : list object) : list jsval :=
  (fun a => get a "category") <$> metadata.

(** [GET /categories]: the array as [res.json] sends it, with [null] for a
    category that is [undefined]. *)
Definition categories (metadata : list object) : list jsval :=
  json <$> set_of (stored_categories metadata).

(** The folder of a category. *)
Definition folder_of (category : jsval) : directory :=
  match category with
  | JStr "references" => referencesDir
  | JStr "courses" => coursesDir
  | _ => imagesDir
  end.

Section Routes.

(** [path.relative(assetsDir, p).replace(/\\/g, '/')] and
    [new Date().toISOString()]. *)
Variable relative : string -> string.
Variable uploadedAt : string.

Definition assetInfo (body : object) (f : file) : object :=
  let relativePath := relative (path f) in
  <["filename" := JStr (filename f)]>
    (<["originalName" := JStr (originalname f)]>
       (<["relativePath" := JStr relativePath]>
          (<["url" := JStr ("/assets/" +:+ relativePath)]>
             (<["type" := JStr (mimetype f)]>
                (<["size" := JNum (size f)]>
                   (<["category" := category_of body]>
                      (<["uploadedAt" := JStr uploadedAt]> ∅))))))).

(** [POST /upload] on the metadata file. *)
Definition uploadAsset (f : option file) (body : object)
    (metadata : list object) : response * list object :=
  match f with
  | None => (NoFileUploaded, metadata)
  | Some f =>
      let info := assetInfo body f in
      (Created info, metadata ++ [info])
  end.

End Routes.

Definition has_filename (name : string) (a : object) : bool :=
  strict_eq (get a "filename") (JStr name).

(** [DELETE /:filename] on the metadata file: [splice(assetIndex, 1)]. *)
Definition deleteAsset (name : string) (metadata : list object)
  : response * list object :=
  match findIndex (has_filename name) metadata with
  | None => (AssetNotFound, metadata)
  | Some assetIndex =>
      (Deleted, take assetIndex metadata ++ drop (S assetIndex) metadata)
  end.

(** No two members of a list are equal by SameValueZero. *)
Definition distinct (l : list jsval) : Prop :=
  forall i j a b, i <> j -> l !! i = Some a -> l !! j = Some b ->
                  same_value_zero a b = false.

Lemma same_value_zero_sym a b : same_value_zero a b = same_value_zero b a.
Proof.
  destruct a, b; simpl; try reflexivity.
  - by destruct b, b0.
  - apply Z.eqb_sym.
  - apply String.eqb_sym.
Qed.

Lemma same_value_zero_eq a b : same_value_zero a b = true -> a = b.
Proof.
  destruct a, b; try discriminate; try reflexivity; apply strict_eq_eq.
Qed.

Lemma includes_false seen v x :
  includes seen v = false -> x ∈ seen -> same_value_zero x v = false.
Proof.
  unfold includes. intros H Hx.
  destruct (same_value_zero x v) eqn:E; [|reflexivity].
  assert (existsb (fun x => same_value_zero x v) seen = true); [|congruence].
  apply existsb_exists. exists x. split; [|exact E].
  by apply list_elem_of_In.
Qed.

Lemma includes_true seen v : includes seen v = true -> v ∈ seen.
Proof.
  unfold includes. intros H. apply existsb_exists in H as (x & Hx & E).
  apply same_value_zero_eq in E as <-. by apply list_elem_of_In.
Qed.

Lemma set_add_distinct seen v : distinct seen -> distinct (set_add seen v).
Proof.
  unfold set_add. intros D. destruct (includes seen v) eqn:E; [exact D|].
  intros i j a b Hij Hi Hj.
  apply lookup_app_Some in Hi as [Hi|[Hli Hi]];
    apply lookup_app_Some in Hj as [Hj|[Hlj Hj]].
  - by apply (D i j).
  - apply list_lookup_singleton_Some in Hj as [_ <-].
    apply (includes_false seen); [exact E|]. by eapply list_elem_of_lookup_2.
  - apply list_lookup_singleton_Some in Hi as [_ <-].
    rewrite same_value_zero_sym.
    apply (includes_false seen); [exact E|]. by eapply list_elem_of_lookup_2.
  - apply list_lookup_singleton_Some in Hi as [Hi _].
    apply list_lookup_singleton_Some in Hj as [Hj _]. lia.
Qed.

Lemma set_add_elem seen v x : x ∈ set_add seen v <-> x ∈ seen \/ x = v.
Proof.
  unfold set_add. destruct (includes seen v) eqn:E.
  - split; [by left|]. intros [H| ->]; [exact H|]. by apply includes_true.
  - rewrite elem_of_app, list_elem_of_singleton. tauto.
Qed.

Lemma fold_set_add_distinct values seen :
  distinct seen -> distinct (fold_left set_add values seen).
Proof.
  revert seen. induction values as [|v values IH]; intros seen D; [exact D|].
  simpl. apply IH. by apply set_add_distinct.
Qed.

Lemma fold_set_add_elem values seen x :
  x ∈ fold_left set_add values seen <-> x ∈ seen \/ x ∈ values.
Proof.
  revert seen. induction values as [|v values IH]; intros seen; simpl.
  - split; [by left|]. intros [H|H]; [exact H|]. by apply elem_of_nil in H.
  - rewrite IH, set_add_elem, elem_of_cons. tauto.
Qed.

(** The first occurrence of each value is kept in place. *)
Lemma fold_set_add_prefix values seen :
  exists rest, fold_left set_add values seen = seen ++ rest.
Proof.
  revert seen. induction values as [|v values IH]; intros seen; simpl.
  - exists []. by rewrite app_nil_r.
  - destruct (IH (set_add seen v)) as (rest & ->). unfold set_add.
    destruct (includes seen v); [by exists rest|].
    exists (v :: rest). by rewrite <- app_assoc.
Qed.

Lemma truthy_or_else v d : truthy d = true -> truthy (or_else v d) = true.
Proof. intros Hd. unfold or_else. by destruct (truthy v) eqn:Hv. Qed.

Lemma same_value_zero_json a b :
  same_value_zero a b = false ->
  same_value_zero (json a) (json b) = false
  \/ json a = JNull /\ json b = JNull.
Proof. destruct a, b; simpl; auto. Qed.

(** X15. The categories answered are those of the stored assets as JSON
    writes them, a missing category as [null]: every asset's category is
    listed, every listed value is the category of some asset, and there
    are at most as many as assets. No two listed values are equal by
    SameValueZero unless both are [null], and then they stand for two
    different stored values: a missing category is listed beside a
    category that is [null]. *)
Theorem categories_each_once (metadata : list object) :
  (forall i j a b, i <> j ->
     categories metadata !! i = Some a -> categories metadata !! j = Some b ->
     same_value_zero a b = false
     \/ (a = JNull /\ b = JNull
         /\ exists x y, x ∈ stored_categories metadata
                        /\ y ∈ stored_categories metadata
                        /\ x <> y /\ json x = JNull /\ json y = JNull))
  /\ (forall a, a ∈ metadata -> json (get a "category") ∈ categories metadata)
  /\ (forall v, v ∈ categories metadata ->
        exists a, a ∈ metadata /\ json (get a "category") = v)
  /\ length (categories metadata) <= length metadata.
Proof.
  unfold categories.
  assert (D : distinct (set_of (stored_categories metadata))).
  { unfold set_of. apply fold_set_add_distinct.
    intros i j a b _ Hi. by destruct i. }
  assert (M : forall x, x ∈ set_of (stored_categories metadata)
                        <-> x ∈ stored_categories metadata).
  { intros x. unfold set_of. rewrite fold_set_add_elem. split; [|by right].
    intros [H|H]; [by apply elem_of_nil in H|exact H]. }
  split; [|split; [|split]].
  - intros i j a b Hij Hi Hj. rewrite list_lookup_fmap in Hi, Hj.
    destruct (set_of (stored_categories metadata) !! i) as [x|] eqn:Hx;
      [|discriminate].
    destruct (set_of (stored_categories metadata) !! j) as [y|] eqn:Hy;
      [|discriminate].
    injection Hi as <-. injection Hj as <-.
    pose proof (D i j x y Hij Hx Hy) as Hd.
    destruct (same_value_zero_json x y Hd) as [H|[Ha Hb]]; [by left|].
    right. split; [exact Ha|]. split; [exact Hb|]. exists x, y.
    split; [apply M; by eapply list_elem_of_lookup_2|].
    split; [apply M; by eapply list_elem_of_lookup_2|].
    split; [|by split]. intros ->.
    destruct y; simpl in Hd, Hb; discriminate.
  - intros a Ha. apply list_elem_of_fmap. exists (get a "category").
    split; [reflexivity|]. apply M. unfold stored_categories.
    apply list_elem_of_fmap. by exists a.
  - intros v Hv. apply list_elem_of_fmap in Hv as (x & -> & Hx).
    apply M in Hx. unfold stored_categories in Hx.
    apply list_elem_of_fmap in Hx as (a & -> & Ha). by exists a.
  - rewrite length_fmap. unfold set_of.
    rewrite <- (length_fmap (fun a => get a "category") metadata).
    fold (stored_categories metadata).
    generalize (stored_categories metadata). intros values.
    assert (G : forall seen,
              length (fold_left set_add values seen)
              <= length seen + length values); [|apply (G [])].
    induction values as [|v values IH]; intros seen; simpl; [lia|].
    specialize (IH (set_add seen v)). unfold set_add in *.
    destruct (includes seen v); [lia|]. rewrite length_app in IH.
    simpl in IH. lia.
Qed.

(** Six assets: two of one category, one without category, one with
    [null]. *)
Example categories_with_two_nulls :
  categories
    [<["category" := JStr "x"]> ∅; ∅; <["category" := JNull]> ∅;
     <["category" := JNum 0]> ∅; <["category" := JStr "y"]> ∅;
     <["category" := JStr "x"]> ∅]
  = [JStr "x"; JNull; JNull; JNum 0; JStr "y"].
Proof. vm_compute. reflexivity. Qed.

(** X16. An upload is never refused for its name: the entry is appended even
    when the metadata already lists the stored file name, and its category
    is never falsy. A delete of that name then removes the older entry and
    keeps the new one; only when the name was not listed before does it
    restore the metadata. *)
Theorem upload_then_delete
    (relative : string -> string) (uploadedAt : string)
    (f : file) (body : object) (metadata : list object) :
  let info := assetInfo relative uploadedAt body f in
  uploadAsset relative uploadedAt (Some f) body metadata
  = (Created info, metadata ++ [info])
  /\ truthy (get info "category") = true
  /\ deleteAsset (filename f) (metadata ++ [info])
     = match findIndex (has_filename (filename f)) metadata with
       | None => (Deleted, metadata)
       | Some i => (Deleted, take i metadata ++ drop (S i) metadata ++ [info])
       end.
Proof.
  intros info. split; [reflexivity|]. split.
  - unfold info, assetInfo, get, category_of. simplify_map_eq.
    apply truthy_or_else. reflexivity.
  - unfold deleteAsset. rewrite findIndex_app.
    destruct (findIndex (has_filename (filename f)) metadata) as [i|] eqn:Hi.
    + destruct (findIndex_Some _ _ _ Hi) as (x & Hx & _).
      apply lookup_lt_Some in Hx.
      rewrite take_app_le by lia. by rewrite drop_app_le by lia.
    + assert (Hself : has_filename (filename f) info = true).
      { unfold has_filename, info, assetInfo, get. simplify_map_eq.
        simpl. apply String.eqb_refl. }
      cbn [findIndex]. rewrite Hself. cbn [fmap option_fmap option_map].
      rewrite Nat.add_0_r, take_app_length.
      rewrite drop_app_ge by lia.
      replace (S (length metadata) - length metadata) with 1 by lia.
      by rewrite app_nil_r.
Qed.

(** X17. The folder a file is stored in follows the category multer has
    read when it meets the file part, and nothing else, the type of the
    file included: [references] and [courses] have their own folder,
    everything else goes to [images]. The metadata record the category of
    the whole body. The two agree when the category was sent before the
    file; when the file comes first, as the admin page sends it, the file
    goes to [images] whatever category is recorded. *)
Theorem destination_follows_category
    (relative : string -> string) (uploadedAt : string)
    (f : file) (at_file body : object) :
  let recorded := get (assetInfo relative uploadedAt body f) "category" in
  destination at_file f = folder_of (category_of at_file)
  /\ recorded = category_of body
  /\ (get at_file "category" = get body "category" ->
      destination at_file f = folder_of recorded)
  /\ (truthy (get at_file "category") = false ->
      destination at_file f = imagesDir).
Proof.
  intros recorded.
  assert (E : recorded = category_of body).
  { unfold recorded, assetInfo, get. by simplify_map_eq. }
  assert (D : destination at_file f = folder_of (category_of at_file)).
  { unfold destination, folder_of.
    destruct (strict_eq (category_of at_file) (JStr "references")) eqn:R.
    { apply strict_eq_eq in R. by rewrite R. }
    destruct (strict_eq (category_of at_file) (JStr "courses")) eqn:C.
    { apply strict_eq_eq in C. by rewrite C. }
    assert (I : (if String.prefix "image/" (mimetype f)
                 then imagesDir else imagesDir) = imagesDir)
      by (by destruct (String.prefix _ _)).
    rewrite I.
    destruct (category_of at_file) as [| |b|n| |s|l|o]; try reflexivity.
    simpl in R, C. apply String.eqb_neq in R, C. clear -R C.
    repeat (match goal with
            | |- context [match ?x with EmptyString => _ | String _ _ => _ end] =>
                destruct x; try reflexivity
            | |- context [match ?x with Ascii _ _ _ _ _ _ _ _ => _ end] =>
                destruct x as [[] [] [] [] [] [] [] []]; try reflexivity
            end); congruence. }
  split; [exact D|]. split; [exact E|]. split.
  - intros Hsame. rewrite D, E. unfold category_of. by rewrite Hsame.
  - intros Hnone. rewrite D. unfold category_of, or_else. by rewrite Hnone.
Qed.

(** The request of the admin page, with the category [references] in the
    place of [general]: the file part first, the category after it. *)
Example file_part_first :
  let body : object := <["category" := JStr "references"]> ∅ in
  let f := {| filename := "logo.png"; originalname := "Logo.png";
              path := "/srv/assets/images/logo.png"; mimetype := "image/png";
              size := 2048 |} in
  destination ∅ f = imagesDir
  /\ get (assetInfo (fun p => "images/logo.png") "t0" body f) "category"
     = JStr "references"
  /\ destination body f = referencesDir.
Proof. vm_compute. repeat split; reflexivity. Qed.

End Assets.

(** ** Completing the questions of a level *)

Module Completion.
Import JS LevelQuestions.

(** Values compared by value: everything but arrays and objects. *)
Definition primitive (v : jsval) : bool :=
  match v with
  | JArr _ | JObj _ => false
  | _ => true
  end.

Lemma same_value_zero_refl v : primitive v = true -> same_value_zero v v = true.
Proof.
  destruct v; simpl; try reflexivity; try discriminate; intros _.
  - by destruct b.
  - apply Z.eqb_refl.
  - apply String.eqb_refl.
Qed.

Lemma includes_elem l v : primitive v = true -> v ∈ l -> includes l v = true.
Proof.
  intros Hp Hv. unfold includes. apply existsb_exists. exists v.
  split; [by apply list_elem_of_In|by apply same_value_zero_refl].
Qed.

(** The completed ids after a completion are the set insertion of the id. *)
Lemma mark_completed_set_add now c a :
  completedQuestions (mark_completed now c a)
  = Assets.set_add (completedQuestions a) (c_questionId c).
Proof.
  unfold mark_completed, Assets.set_add. simpl.
  by destruct (includes (completedQuestions a) (c_questionId c)).
Qed.

(** A second completion of a question adds no id. *)
Lemma repeat_keeps_completed now c c' a :
  primitive (c_questionId c) = true ->
  c_questionId c' = c_questionId c ->
  completedQuestions (mark_completed now c' (mark_completed now c a))
  = completedQuestions (mark_completed now c a).
Proof.
  intros Hp Hq. rewrite (mark_completed_set_add now c').
  unfold Assets.set_add. rewrite Hq.
  rewrite includes_elem; [reflexivity|exact Hp|].
  rewrite mark_completed_set_add. apply Assets.set_add_elem. by right.
Qed.

Definition sample_assignment : Assignment :=
  {| key := "ann-html-1"; userId := "ann"; courseId := "html";
     level := JNum 1;
     assignedQuestions := [JStr "q1"; JStr "q2"];
     completedQuestions := [JStr "q1"];
     assignedAt := "t0"; totalAvailable := 5;
     lastCompletedAt := Some "t1"; isLevelComplete := Some false;
     completedAt := None |}.

Definition sample_completion (tick : nat) : completion :=
  {| c_userId := "ann"; c_questionId := JStr "q2"; c_courseId := JStr "html";
     c_level := JNum 1; c_tick := tick; c_tick_done := S tick |}.

(** X18. The level is marked complete by counting: the number of completed ids
    against the number of assigned ones. When the assigned ids are
    distinct and the completed ids are distinct assigned ids, completing an
    assigned question keeps that so, and the level is marked complete
    exactly when every assigned question is completed. *)
Theorem level_complete_iff_all_done
    (now : nat -> string) (c : completion) (a : Assignment) :
  NoDup (assignedQuestions a) ->
  NoDup (completedQuestions a) ->
  (forall q, q ∈ completedQuestions a -> q ∈ assignedQuestions a) ->
  c_questionId c ∈ assignedQuestions a ->
  primitive (c_questionId c) = true ->
  let a' := mark_completed now c a in
  assignedQuestions a' = assignedQuestions a
  /\ NoDup (completedQuestions a')
  /\ (forall q, q ∈ completedQuestions a' -> q ∈ assignedQuestions a)
  /\ c_questionId c ∈ completedQuestions a'
  /\ (isLevelComplete a' = Some true
      <-> forall q, q ∈ assignedQuestions a -> q ∈ completedQuestions a').
Proof.
  intros Ha Hc Hsub Hq Hp a'.
  assert (E : completedQuestions a'
              = Assets.set_add (completedQuestions a) (c_questionId c))
    by apply mark_completed_set_add.
  assert (Hc' : NoDup (completedQuestions a')).
  { rewrite E. unfold Assets.set_add.
    destruct (includes (completedQuestions a) (c_questionId c)) eqn:I;
      [exact Hc|].
    apply NoDup_app. split; [exact Hc|]. split; [|apply NoDup_singleton].
    intros x Hx Hx'. apply list_elem_of_singleton in Hx' as ->.
    rewrite (includes_elem _ _ Hp Hx) in I. discriminate. }
  assert (Hsub' : forall q, q ∈ completedQuestions a' -> q ∈ assignedQuestions a).
  { intros q. rewrite E, Assets.set_add_elem. intros [H| ->]; auto. }
  split; [reflexivity|]. split; [exact Hc'|]. split; [exact Hsub'|].
  split; [rewrite E; apply Assets.set_add_elem; by right|].
  assert (L : isLevelComplete a'
              = Some (length (completedQuestions a')
                      =? length (assignedQuestions a))).
  { unfold a', mark_completed. simpl.
    by destruct (includes (completedQuestions a) (c_questionId c)). }
  rewrite L.
  pose proof (NoDup_submseteq _ _ Hc' Hsub') as S1.
  split.
  - intros H.
    assert (H' : (length (completedQuestions a')
                  =? length (assignedQuestions a)) = true) by congruence.
    apply Nat.eqb_eq in H'.
    assert (P : completedQuestions a' ≡ₚ assignedQuestions a)
      by (apply submseteq_length_Permutation; [exact S1|lia]).
    intros q Hq'. by rewrite P.
  - intros Hall. f_equal. apply Nat.eqb_eq.
    pose proof (NoDup_submseteq _ _ Ha Hall) as S2.
    apply submseteq_length in S1. apply submseteq_length in S2. lia.
Qed.

(** The second of two assigned questions is completed. *)
Lemma level_complete_iff_all_done_witness :
  isLevelComplete
    (mark_completed (fun _ => "t") (sample_completion 7) sample_assignment)
  = Some true
  <-> forall q, q ∈ [JStr "q1"; JStr "q2"] ->
        q ∈ completedQuestions
              (mark_completed (fun _ => "t") (sample_completion 7)
                 sample_assignment).
Proof.
  assert (N2 : NoDup [JStr "q1"; JStr "q2"]).
  { apply NoDup_cons. split; [|apply NoDup_singleton].
    intros H. apply list_elem_of_singleton in H. discriminate. }
  assert (N1 : NoDup [JStr "q1"]) by apply NoDup_singleton.
  assert (S : forall q, q ∈ [JStr "q1"] -> q ∈ [JStr "q1"; JStr "q2"]).
  { intros q H. apply list_elem_of_singleton in H as ->. apply elem_of_cons. by left. }
  assert (Q : JStr "q2" ∈ [JStr "q1"; JStr "q2"]).
  { apply elem_of_cons. right. apply elem_of_cons. by left. }
  exact (proj2 (proj2 (proj2 (proj2
           (level_complete_iff_all_done (fun _ => "t") (sample_completion 7)
              sample_assignment N2 N1 S Q eq_refl))))).
Defined.

(** X19. A second completion of the same question changes neither the completed
    ids nor [lastCompletedAt] nor the completion flag, but while the level
    is complete it stamps [completedAt] again. *)
Theorem repeat_completion_restamps
    (now : nat -> string) (c c' : completion) (a : Assignment) :
  primitive (c_questionId c) = true ->
  c_questionId c' = c_questionId c ->
  let once := mark_completed now c a in
  let twice := mark_completed now c' once in
  completedQuestions twice = completedQuestions once
  /\ lastCompletedAt twice = lastCompletedAt once
  /\ isLevelComplete twice = isLevelComplete once
  /\ completedAt twice
     = match isLevelComplete once with
       | Some true => Some (now (c_tick_done c'))
       | _ => completedAt once
       end.
Proof.
  intros Hp Hq once twice.
  assert (I : includes (completedQuestions once) (c_questionId c') = true).
  { rewrite Hq. apply includes_elem; [exact Hp|].
    unfold once. rewrite mark_completed_set_add.
    apply Assets.set_add_elem. by right. }
  unfold twice. unfold mark_completed at 1 2 3 4. cbn -[once].
  rewrite I. cbn -[once].
  repeat split.
Qed.

(** The level was complete after the first request at time 7; the repeat
    at time 20 moves [completedAt]. *)
Lemma repeat_completion_restamps_witness :
  let now := fun n : nat => pretty n in
  let once := mark_completed now (sample_completion 7) sample_assignment in
  completedAt once = Some "8"
  /\ completedAt (mark_completed now (sample_completion 20) once) = Some "21"
  /\ lastCompletedAt (mark_completed now (sample_completion 20) once)
     = Some "7".
Proof.
  intros now once.
  destruct (repeat_completion_restamps now (sample_completion 7)
              (sample_completion 20) sample_assignment eq_refl eq_refl)
    as (_ & L & _ & C).
  split; [reflexivity|]. split; [exact C|].
  etransitivity; [exact L|reflexivity].
Defined.

End Completion.

(** ** The level settings of a course *)

Module LevelSettings.
Import JS BulkUpload.

Inductive response : Type :=
  | CourseNotFound                          (* 404 *)
  | Settings (levelSettings : gmap string object).

(** [GET /:courseId/level-settings]: [course.levelSettings || {}]. *)
Definition getLevelSettings (courseId : string) (courses : list Course)
  : response :=
  match find (is_course courseId) courses with
  | None => CourseNotFound
  | Some course => Settings (default ∅ (levelSettings course))
  end.



(** What the route answers for the course [html] after the sample upload
    at the level [constructor]: settings without an entry. *)
Example level_constructor_answers_no_entry :
  getLevelSettings "html"
    (courses_file
       (BulkUploadReport.sample_bulk_at "constructor"
          BulkUploadReport.sample_questions (JNum 3)).2)
  = Settings ∅.
Proof. vm_compute. reflexivity. Qed.

End LevelSettings.

(** ** Moving between the questions of a level *)

Module Navigation.
Import JS BulkUpload Questions.

(** The two pieces of state the navigation buttons read. *)
Record state : Type := {
  allLevelQuestions : list object;
  currentQuestionIndex : Z
}.

(** [useState([])] and [useState(0)]. *)
Definition initial : state :=
  {| allLevelQuestions := []; currentQuestionIndex := 0 |}.

(** [questions.findIndex(q => q.id === id)], [-1] included. *)
Definition index_of (id : string) (questions : list object) : Z :=
  match findIndex (has_id (JStr id)) questions with
  | Some i => Z.of_nat i
  | None => -1
  end.

(** What [loadChallenge] leaves in the state for the challenge [id] of the
    URL once the questions of its level have arrived. *)
Definition loadChallenge (id : string) (questions : list object) : state :=
  {| allLevelQuestions := questions;
     currentQuestionIndex := index_of id questions |}.

(** [arr[i]] *)
Definition at_index (arr : list object) (i : Z) : option object :=
  if (i <? 0)%Z then None else arr !! Z.to_nat i.

(** A click does nothing, navigates to [/challenge/${id}], or throws on
    reading [id] of [undefined]. *)
Inductive outcome : Type :=
  | Stay
  | Navigate (id : jsval)
  | TypeError.

Definition go (q : option object) : outcome :=
  match q with
  | Some question => Navigate (get question "id")
  | None => TypeError
  end.

Definition handlePreviousQuestion (st : state) : outcome :=
  if (0 <? currentQuestionIndex st)%Z
  then go (at_index (allLevelQuestions st) (currentQuestionIndex st - 1))
  else Stay.

Definition handleNextQuestion (st : state) : outcome :=
  if (currentQuestionIndex st
      <? Z.of_nat (length (allLevelQuestions st)) - 1)%Z
  then go (at_index (allLevelQuestions st) (currentQuestionIndex st + 1))
  else Stay.

Lemma count_id_pos v (q : object) cs :
  In q cs -> strict_eq (get q "id") v = true -> 1 <= count_id v cs.
Proof.
  intros Hin Hq. apply in_split in Hin as (l & r & ->).
  rewrite count_id_app. change (q :: r) with ([q] ++ r).
  rewrite count_id_app, count_id_singleton, Hq. lia.
Qed.

(** With unique ids a question is found at its own place. *)
Lemma unique_ids_findIndex v cs k (q : object) :
  unique_ids cs -> cs !! k = Some q -> strict_eq (get q "id") v = true ->
  findIndex (has_id v) cs = Some k.
Proof.
  intros Hu Hk Hq.
  destruct (findIndex (has_id v) cs) as [j|] eqn:Hj.
  - f_equal.
    destruct (findIndex_Some _ _ _ Hj) as (qj & Hqj & Hpj & Hmin).
    destruct (Nat.lt_trichotomy j k) as [Hlt|[->|Hgt]]; [|reflexivity|].
    + exfalso. specialize (Hu v).
      rewrite (count_id_take_drop v (S j) cs) in Hu.
      assert (1 <= count_id v (take (S j) cs)).
      { apply (count_id_pos v qj); [|exact Hpj].
        apply list_elem_of_In. apply (list_elem_of_lookup_2 _ j).
        rewrite lookup_take_lt by lia. exact Hqj. }
      assert (1 <= count_id v (drop (S j) cs)).
      { apply (count_id_pos v q); [|exact Hq].
        apply list_elem_of_In. apply (list_elem_of_lookup_2 _ (k - S j)).
        rewrite lookup_drop. by replace (S j + (k - S j)) with k by lia. }
      lia.
    + pose proof (Hmin k q Hgt Hk) as F. unfold has_id in F. congruence.
  - apply count_id_none in Hj.
    assert (1 <= count_id v cs); [|lia].
    apply (count_id_pos v q); [|exact Hq].
    apply list_elem_of_In. by eapply list_elem_of_lookup_2.
Qed.

Definition three_questions : list object :=
  [<["id" := JStr "q1"]> ∅; <["id" := JStr "q2"]> ∅; <["id" := JStr "q3"]> ∅].

(** X21. The buttons never read outside the list: before the questions arrive
    both do nothing, and after [loadChallenge] each click either does
    nothing or navigates to the id of a listed question. When the
    challenge of the URL is not among the questions of its level, the
    index is [-1]: Previous does nothing and Next goes to the first
    question. *)
Theorem navigation_stays_inside (id : string) (questions : list object) :
  let st := loadChallenge id questions in
  handlePreviousQuestion initial = Stay
  /\ handleNextQuestion initial = Stay
  /\ (forall click, In click [handlePreviousQuestion; handleNextQuestion] ->
        match click st with
        | Stay => True
        | Navigate target => exists q, In q questions /\ get q "id" = target
        | TypeError => False
        end)
  /\ (findIndex (has_id (JStr id)) questions = None ->
        handlePreviousQuestion st = Stay
        /\ handleNextQuestion st
           = match questions with
             | [] => Stay
             | first :: _ => Navigate (get first "id")
             end).
Proof.
  intros st. split; [reflexivity|]. split; [reflexivity|]. split.
  - assert (Hgo : forall i : Z,
              (0 <= i < Z.of_nat (length questions))%Z ->
              match go (at_index questions i) with
              | Stay => True
              | Navigate target =>
                  exists q, In q questions /\ get q "id" = target
              | TypeError => False
              end).
    { intros i Hi. unfold at_index.
      destruct (Z.ltb_spec i 0) as [|_]; [lia|].
      destruct (lookup_lt_is_Some_2 questions (Z.to_nat i)) as (q & Hq);
        [lia|].
      rewrite Hq. simpl. exists q. split; [|reflexivity].
      apply list_elem_of_In. by eapply list_elem_of_lookup_2. }
    assert (Hidx : (-1 <= index_of id questions
                    < Z.of_nat (length questions))%Z
                   \/ questions = [] /\ index_of id questions = (-1)%Z).
    { unfold index_of.
      destruct (findIndex (has_id (JStr id)) questions) as [i|] eqn:Hi.
      - left. destruct (findIndex_Some _ _ _ Hi) as (q & Hq & _).
        apply lookup_lt_Some in Hq. lia.
      - destruct questions; [by right|left; simpl; lia]. }
    intros click [<-|[<-|[]]].
    + unfold handlePreviousQuestion, st, loadChallenge. simpl.
      destruct (Z.ltb_spec 0 (index_of id questions)); [|exact I].
      apply Hgo. lia.
    + unfold handleNextQuestion, st, loadChallenge. simpl.
      destruct (Z.ltb_spec (index_of id questions)
                  (Z.of_nat (length questions) - 1)); [|exact I].
      apply Hgo. lia.
  - intros Hn. unfold handlePreviousQuestion, handleNextQuestion, st,
      loadChallenge, index_of. simpl. rewrite Hn.
    split; [reflexivity|]. destruct questions as [|first rest]; [reflexivity|].
    cbn [length]. destruct (Z.ltb_spec (-1) (Z.of_nat (S (length rest)) - 1));
      [reflexivity|lia].
Qed.

(** X22. With unique ids Next and Previous undo each other: when Next on a
    listed challenge goes to a question with a string id, Previous on that
    question goes back, and the other way round. *)
Theorem next_then_previous
    (id target : string) (questions : list object) :
  unique_ids questions ->
  findIndex (has_id (JStr id)) questions <> None ->
  (handleNextQuestion (loadChallenge id questions) = Navigate (JStr target) ->
   handlePreviousQuestion (loadChallenge target questions)
   = Navigate (JStr id))
  /\ (handlePreviousQuestion (loadChallenge id questions)
      = Navigate (JStr target) ->
      handleNextQuestion (loadChallenge target questions)
      = Navigate (JStr id)).
Proof.
  intros Hu Hlisted.
  destruct (findIndex (has_id (JStr id)) questions) as [i|] eqn:Hi;
    [clear Hlisted|congruence].
  destruct (findIndex_Some _ _ _ Hi) as (q & Hq & Hp & _).
  apply has_id_get in Hp.
  assert (Hlen : i < length questions) by (by eapply lookup_lt_Some).
  assert (Hat : forall k : nat, at_index questions (Z.of_nat k) = questions !! k).
  { intros k. unfold at_index. destruct (Z.ltb_spec (Z.of_nat k) 0); [lia|].
    by rewrite Nat2Z.id. }
  split.
  - unfold handleNextQuestion, loadChallenge, index_of. cbn -[Z.of_nat Z.ltb].
    rewrite Hi.
    destruct (Z.ltb_spec (Z.of_nat i) (Z.of_nat (length questions) - 1));
      [|discriminate].
    replace (Z.of_nat i + 1)%Z with (Z.of_nat (S i)) by lia. rewrite Hat.
    destruct (questions !! S i) as [n|] eqn:Hn; [|discriminate].
    simpl. intros [= Hid].
    unfold handlePreviousQuestion, index_of. cbn -[Z.of_nat Z.ltb].
    rewrite (unique_ids_findIndex (JStr target) questions (S i) n Hu Hn)
      by (rewrite Hid; apply String.eqb_refl).
    destruct (Z.ltb_spec 0 (Z.of_nat (S i))); [|lia].
    replace (Z.of_nat (S i) - 1)%Z with (Z.of_nat i) by lia.
    rewrite Hat, Hq. simpl. by rewrite Hp.
  - unfold handlePreviousQuestion, loadChallenge, index_of.
    cbn -[Z.of_nat Z.ltb]. rewrite Hi.
    destruct (Z.ltb_spec 0 (Z.of_nat i)); [|discriminate].
    destruct i as [|i]; [lia|].
    replace (Z.of_nat (S i) - 1)%Z with (Z.of_nat i) by lia. rewrite Hat.
    destruct (questions !! i) as [n|] eqn:Hn; [|discriminate].
    simpl. intros [= Hid].
    unfold handleNextQuestion, index_of. cbn -[Z.of_nat Z.ltb].
    rewrite (unique_ids_findIndex (JStr target) questions i n Hu Hn)
      by (rewrite Hid; apply String.eqb_refl).
    destruct (Z.ltb_spec (Z.of_nat i) (Z.of_nat (length questions) - 1));
      [|lia].
    replace (Z.of_nat i + 1)%Z with (Z.of_nat (S i)) by lia.
    rewrite Hat, Hq. simpl. by rewrite Hp.
Qed.

(** From the second of three questions to the third and back. *)
Lemma next_then_previous_witness :
  handleNextQuestion (loadChallenge "q2" three_questions) = Navigate (JStr "q3")
  /\ handlePreviousQuestion (loadChallenge "q3" three_questions)
     = Navigate (JStr "q2").
Proof.
  assert (U : unique_ids three_questions).
  { intros v. unfold three_questions.
    change [<["id" := JStr "q1"]> (∅ : object); <["id" := JStr "q2"]> ∅;
            <["id" := JStr "q3"]> ∅]
      with ([<["id" := JStr "q1"]> (∅ : object)]
            ++ [<["id" := JStr "q2"]> ∅] ++ [<["id" := JStr "q3"]> ∅]).
    rewrite !count_id_app, !count_id_singleton.
    change (get (<["id" := JStr "q1"]> (∅ : object)) "id") with (JStr "q1").
    change (get (<["id" := JStr "q2"]> (∅ : object)) "id") with (JStr "q2").
    change (get (<["id" := JStr "q3"]> (∅ : object)) "id") with (JStr "q3").
    destruct (strict_eq (JStr "q1") v) eqn:E1;
      destruct (strict_eq (JStr "q2") v) eqn:E2;
      destruct (strict_eq (JStr "q3") v) eqn:E3; try lia;
      repeat match goal with
             | E : strict_eq _ _ = true |- _ => apply strict_eq_eq in E
             end; congruence. }
  assert (L : findIndex (has_id (JStr "q2")) three_questions <> None)
    by discriminate.
  assert (N : handleNextQuestion (loadChallenge "q2" three_questions)
              = Navigate (JStr "q3")) by reflexivity.
  split; [exact N|].
  exact (proj1 (next_then_previous "q2" "q3" three_questions U L) N).
Defined.

End Navigation.

(** ** The assets and libraries picked for the AI draft *)

Module AiSelection.

(** [prev.includes(x)] and [prev.filter(item => item !== x)] on arrays of
    strings: file names of assets and ids of libraries. *)
Definition includes (prev : list string) (x : string) : bool :=
  existsb (String.eqb x) prev.

Definition without (x : string) (prev : list string) : list string :=
  List.filter (fun item => negb (String.eqb item x)) prev.

(** The updater [handleAiAssetToggle] passes to [setAiSelectedAssets]. *)
Definition handleAiAssetToggle (filename : string) (prev : list string)
  : list string :=
  if includes prev filename then without filename prev
  else if 6 <=? length prev then prev
  else prev ++ [filename].

(** The updater [handleAiLibraryToggle] passes to
    [setAiSelectedLibraries]. *)
Definition handleAiLibraryToggle (libraryId : string) (prev : list string)
  : list string :=
  if includes prev libraryId then without libraryId prev
  else prev ++ [libraryId].

Record state : Type := {
  aiSelectedAssets : list string;
  aiSelectedLibraries : list string
}.

(** [useState([])] twice. *)
Definition initial : state :=
  {| aiSelectedAssets := []; aiSelectedLibraries := [] |}.

Inductive event : Type :=
  | ToggleAsset (filename : string)
  | ToggleLibrary (libraryId : string)
  | Reset.

Definition step (e : event) (st : state) : state :=
  match e with
  | ToggleAsset filename =>
      {| aiSelectedAssets := handleAiAssetToggle filename (aiSelectedAssets st);
         aiSelectedLibraries := aiSelectedLibraries st |}
  | ToggleLibrary libraryId =>
      {| aiSelectedAssets := aiSelectedAssets st;
         aiSelectedLibraries :=
           handleAiLibraryToggle libraryId (aiSelectedLibraries st) |}
  | Reset => initial
  end.

Fixpoint run (es : list event) (st : state) : state :=
  match es with
  | [] => st
  | e :: rest => run rest (step e st)
  end.

(** The invariant of the two selections. *)
Definition tidy (st : state) : Prop :=
  NoDup (aiSelectedAssets st) /\ length (aiSelectedAssets st) <= 6
  /\ NoDup (aiSelectedLibraries st).

Lemma includes_selected prev x : includes prev x = true <-> x ∈ prev.
Proof.
  unfold includes. rewrite existsb_exists. split.
  - intros (y & Hy & E). apply String.eqb_eq in E as ->.
    by apply list_elem_of_In.
  - intros H. exists x. split; [by apply list_elem_of_In|apply String.eqb_refl].
Qed.

Lemma includes_not_selected prev x : includes prev x = false <-> x ∉ prev.
Proof.
  rewrite <- includes_selected. destruct (includes prev x); split; congruence.
Qed.

Lemma without_elem x prev y : y ∈ without x prev <-> y ∈ prev /\ y <> x.
Proof.
  unfold without. rewrite !list_elem_of_In, filter_In, negb_true_iff.
  by rewrite String.eqb_neq.
Qed.

Lemma without_NoDup x prev : NoDup prev -> NoDup (without x prev).
Proof.
  unfold without. induction 1 as [|a l Ha Hl IH]; simpl; [constructor|].
  destruct (negb (a =? x)%string); [|exact IH].
  constructor; [|exact IH]. intros Hin. apply Ha.
  by apply (without_elem x l a) in Hin as [Hin _].
Qed.

Lemma without_length x prev : length (without x prev) <= length prev.
Proof.
  unfold without. induction prev as [|a l IH]; simpl; [lia|].
  destruct (negb (a =? x)%string); simpl; lia.
Qed.

Lemma without_absent x prev : x ∉ prev -> without x prev = prev.
Proof.
  unfold without. induction prev as [|a l IH]; intros Hx; [reflexivity|].
  simpl. apply not_elem_of_cons in Hx as [Hne Hx].
  destruct (String.eqb_spec a x) as [->|_]; [done|]. simpl. by rewrite IH.
Qed.

(** Taking [x] out of a list without duplicates and putting it at the end
    rearranges the list. *)
Lemma without_app_Permutation x prev :
  NoDup prev -> x ∈ prev -> without x prev ++ [x] ≡ₚ prev.
Proof.
  intros Hn Hx. apply NoDup_Permutation.
  - apply NoDup_app. split; [by apply without_NoDup|].
    split; [|apply NoDup_singleton].
    intros y Hy Hy'. apply without_elem in Hy as [_ Hy].
    by apply list_elem_of_singleton in Hy'.
  - exact Hn.
  - intros y. rewrite elem_of_app, without_elem, list_elem_of_singleton.
    destruct (decide (y = x)) as [->|]; tauto.
Qed.

Lemma without_length_lt x prev :
  x ∈ prev -> length (without x prev) < length prev.
Proof.
  unfold without. induction prev as [|a l IH]; intros Hx.
  - by apply elem_of_nil in Hx.
  - simpl. pose proof (without_length x l) as Hl. unfold without in Hl.
    destruct (String.eqb_spec a x) as [->|Hne]; simpl; [lia|].
    apply elem_of_cons in Hx as [->|Hx]; [done|]. specialize (IH Hx). lia.
Qed.

Lemma asset_toggle_tidy x prev :
  NoDup prev -> length prev <= 6 ->
  NoDup (handleAiAssetToggle x prev)
  /\ length (handleAiAssetToggle x prev) <= 6.
Proof.
  intros Hn Hl. unfold handleAiAssetToggle.
  destruct (includes prev x) eqn:I.
  - split; [by apply without_NoDup|]. pose proof (without_length x prev). lia.
  - destruct (Nat.leb_spec 6 (length prev)); [by split|].
    apply includes_not_selected in I. split.
    + apply NoDup_app. split; [exact Hn|]. split; [|apply NoDup_singleton].
      intros y Hy Hy'. apply list_elem_of_singleton in Hy' as ->. done.
    + rewrite length_app. simpl. lia.
Qed.

Lemma library_toggle_NoDup x prev :
  NoDup prev -> NoDup (handleAiLibraryToggle x prev).
Proof.
  intros Hn. unfold handleAiLibraryToggle.
  destruct (includes prev x) eqn:I; [by apply without_NoDup|].
  apply includes_not_selected in I.
  apply NoDup_app. split; [exact Hn|]. split; [|apply NoDup_singleton].
  intros y Hy Hy'. apply list_elem_of_singleton in Hy' as ->. done.
Qed.

Lemma step_tidy e st : tidy st -> tidy (step e st).
Proof.
  intros (Ha & Hl & Hb). destruct e as [f|l|]; unfold tidy; simpl.
  - destruct (asset_toggle_tidy f _ Ha Hl). by repeat split.
  - repeat split; auto. by apply library_toggle_NoDup.
  - repeat split; [constructor|lia|constructor].
Qed.

(** X23. Whatever is clicked, no asset and no library is selected twice and
    never more than six assets are selected: a seventh is not added, with
    no message. *)
Theorem selection_stays_tidy (clicks : list event) :
  let st := run clicks initial in
  NoDup (aiSelectedAssets st)
  /\ length (aiSelectedAssets st) <= 6
  /\ NoDup (aiSelectedLibraries st)
  /\ forall filename,
       length (aiSelectedAssets st) = 6 ->
       filename ∉ aiSelectedAssets st ->
       handleAiAssetToggle filename (aiSelectedAssets st)
       = aiSelectedAssets st.
Proof.
  intros st.
  assert (T : tidy st).
  { unfold st. assert (T0 : tidy initial)
      by (repeat split; [constructor|simpl; lia|constructor]).
    revert T0. generalize initial.
    induction clicks as [|e es IH]; intros s Hs; [exact Hs|].
    simpl. apply IH. by apply step_tidy. }
  destruct T as (Ha & Hl & Hb). repeat split; auto.
  intros f H6 Hf. unfold handleAiAssetToggle.
  apply includes_not_selected in Hf. rewrite Hf, H6. reflexivity.
Qed.

(** X24. A toggle of a selected item takes it out, each of the two lists
    losing that item and no other, in place. A toggle of an item that is
    not selected puts it at the end, except that the assets stay as they
    are once six are selected. So a toggle flips the membership of its
    item and of no other, and toggling the same item twice gives the
    selection back: as it was when the item was not selected, with the
    item moved to the end when it was. *)
Theorem toggle_twice (x : string) (prev : list string) :
  NoDup prev -> length prev <= 6 ->
  (x ∈ prev ->
     handleAiLibraryToggle x prev = without x prev
     /\ handleAiAssetToggle x prev = without x prev
     /\ without x prev ++ [x] ≡ₚ prev
     /\ handleAiLibraryToggle x (handleAiLibraryToggle x prev)
        = without x prev ++ [x]
     /\ handleAiAssetToggle x (handleAiAssetToggle x prev)
        = without x prev ++ [x])
  /\ (x ∉ prev ->
        handleAiLibraryToggle x prev = prev ++ [x]
        /\ handleAiAssetToggle x prev
           = (if 6 <=? length prev then prev else prev ++ [x])
        /\ handleAiLibraryToggle x (handleAiLibraryToggle x prev) = prev
        /\ handleAiAssetToggle x (handleAiAssetToggle x prev) = prev)
  /\ (forall y, y ∈ without x prev <-> y ∈ prev /\ y <> x)
  /\ (forall y, y ∈ handleAiLibraryToggle x prev
                <-> if decide (y = x) then x ∉ prev else y ∈ prev)
  /\ (length prev < 6 ->
      forall y, y ∈ handleAiAssetToggle x prev
                <-> if decide (y = x) then x ∉ prev else y ∈ prev)
  /\ handleAiLibraryToggle x (handleAiLibraryToggle x prev) ≡ₚ prev
  /\ handleAiAssetToggle x (handleAiAssetToggle x prev) ≡ₚ prev.
Proof.
  intros Hn Hl.
  assert (Hrm : without x (prev ++ [x]) = without x prev).
  { unfold without. rewrite List.filter_app. simpl.
    rewrite String.eqb_refl. simpl. apply app_nil_r. }
  assert (Hin : includes (prev ++ [x]) x = true).
  { apply includes_selected, elem_of_app. right.
    by apply list_elem_of_singleton. }
  assert (Hout : includes (without x prev) x = false).
  { apply includes_not_selected. intros H. by apply without_elem in H as [_ H]. }
  assert (Hyes : x ∈ prev ->
            handleAiLibraryToggle x prev = without x prev
            /\ handleAiAssetToggle x prev = without x prev
            /\ without x prev ++ [x] ≡ₚ prev
            /\ handleAiLibraryToggle x (handleAiLibraryToggle x prev)
               = without x prev ++ [x]
            /\ handleAiAssetToggle x (handleAiAssetToggle x prev)
               = without x prev ++ [x]).
  { intros Hx. pose proof Hx as I. apply includes_selected in I.
    assert (L1 : handleAiLibraryToggle x prev = without x prev)
      by (unfold handleAiLibraryToggle; by rewrite I).
    assert (A1 : handleAiAssetToggle x prev = without x prev)
      by (unfold handleAiAssetToggle; by rewrite I).
    split; [exact L1|]. split; [exact A1|].
    split; [by apply without_app_Permutation|]. split.
    - rewrite L1. unfold handleAiLibraryToggle. by rewrite Hout.
    - rewrite A1. unfold handleAiAssetToggle. rewrite Hout.
      pose proof (without_length_lt x prev Hx) as Hlt.
      by destruct (Nat.leb_spec 6 (length (without x prev))); [lia|]. }
  assert (Hno : x ∉ prev ->
            handleAiLibraryToggle x prev = prev ++ [x]
            /\ handleAiAssetToggle x prev
               = (if 6 <=? length prev then prev else prev ++ [x])
            /\ handleAiLibraryToggle x (handleAiLibraryToggle x prev) = prev
            /\ handleAiAssetToggle x (handleAiAssetToggle x prev) = prev).
  { intros Hx. pose proof Hx as I. apply includes_not_selected in I.
    assert (L1 : handleAiLibraryToggle x prev = prev ++ [x])
      by (unfold handleAiLibraryToggle; by rewrite I).
    assert (A1 : handleAiAssetToggle x prev
                 = (if 6 <=? length prev then prev else prev ++ [x]))
      by (unfold handleAiAssetToggle; by rewrite I).
    split; [exact L1|]. split; [exact A1|]. split.
    - rewrite L1. unfold handleAiLibraryToggle. rewrite Hin, Hrm.
      by apply without_absent.
    - rewrite A1. destruct (Nat.leb_spec 6 (length prev)) as [H6|H6].
      + unfold handleAiAssetToggle. rewrite I.
        by destruct (Nat.leb_spec 6 (length prev)); [|lia].
      + unfold handleAiAssetToggle. rewrite Hin, Hrm.
        by apply without_absent. }
  split; [exact Hyes|]. split; [exact Hno|].
  split; [intros y; apply without_elem|].
  assert (Hflip : forall l, (x ∈ prev -> l = without x prev) ->
                    (x ∉ prev -> l = prev ++ [x]) ->
                    forall y, y ∈ l
                              <-> if decide (y = x) then x ∉ prev else y ∈ prev).
  { intros l H1 H2 y. destruct (decide (x ∈ prev)) as [Hx|Hx].
    - rewrite (H1 Hx), without_elem.
      destruct (decide (y = x)) as [->|]; tauto.
    - rewrite (H2 Hx), elem_of_app, list_elem_of_singleton.
      destruct (decide (y = x)) as [->|]; tauto. }
  split.
  { apply Hflip; intros Hx;
      [exact (proj1 (Hyes Hx))|exact (proj1 (Hno Hx))]. }
  split.
  { intros H6. apply Hflip; intros Hx; [exact (proj1 (proj2 (Hyes Hx)))|].
    destruct (Hno Hx) as (_ & -> & _).
    by destruct (Nat.leb_spec 6 (length prev)); [lia|]. }
  destruct (decide (x ∈ prev)) as [Hx|Hx].
  - destruct (Hyes Hx) as (_ & _ & P & -> & ->). by split.
  - destruct (Hno Hx) as (_ & _ & -> & ->). by split.
Qed.

(** The first of two selected items is toggled: it is taken out, and a
    second toggle puts it back at the end, in the libraries as in the
    assets. *)
Lemma toggle_twice_witness :
  handleAiAssetToggle "logo.png" ["logo.png"; "hero.png"] = ["hero.png"]
  /\ handleAiAssetToggle "logo.png"
       (handleAiAssetToggle "logo.png" ["logo.png"; "hero.png"])
     = ["hero.png"; "logo.png"]
  /\ handleAiLibraryToggle "tailwind"
       (handleAiLibraryToggle "tailwind" ["tailwind"; "gsap"])
     = ["gsap"; "tailwind"].
Proof.
  assert (N : forall a b : string, a <> b -> NoDup [a; b]).
  { intros a b Hab. apply NoDup_cons. split; [|apply NoDup_singleton].
    intros H. by apply list_elem_of_singleton in H. }
  assert (L : forall a b : string, length [a; b] <= 6) by (simpl; lia).
  assert (M : forall a b : string, a ∈ [a; b])
    by (intros a b; apply elem_of_cons; by left).
  assert (D1 : "logo.png" <> "hero.png") by discriminate.
  assert (D2 : "tailwind" <> "gsap") by discriminate.
  destruct (proj1 (toggle_twice "logo.png" ["logo.png"; "hero.png"]
                     (N "logo.png" "hero.png" D1) (L "logo.png" "hero.png"))
              (M "logo.png" "hero.png"))
    as (_ & A1 & _ & _ & A2).
  destruct (proj1 (toggle_twice "tailwind" ["tailwind"; "gsap"]
                     (N "tailwind" "gsap" D2) (L "tailwind" "gsap"))
              (M "tailwind" "gsap"))
    as (_ & _ & _ & L2 & _).
  split; [exact A1|]. split; [exact A2|exact L2].
Defined.

End AiSelection.

(** ** The course model on its JSON file *)

Module CourseModel.
Import JS BulkUpload.

Section Offline.

(** The model without a database: [isConnected()] is false and a query
    throws, so every method works on [courses.json]. [now] is
    [new Date().toISOString()] and [date_now] is [Date.now()] as the
    template literal prints it. *)
Variable now : string.
Variable date_now : string.

(** [`course-${Date.now()}`] *)
Definition fresh_id : string := "course-" +:+ date_now.

(** [courses.find(c => c.id === id) || null] *)
Definition findById (id : jsval) (courses : list object) : jsval :=
  match find (has_id id) courses with
  | Some course => JObj course
  | None => JNull
  end.

(** The course [create] builds from [courseData]. *)
Definition newCourse (courseData : object) : object :=
  <["id" := or_else (get courseData "id") (JStr fresh_id)]>
  (<["title" := get courseData "title"]>
  (<["description" := get courseData "description"]>
  (<["thumbnail" := or_else (get courseData "thumbnail") JNull]>
  (<["icon" := or_else (get courseData "icon") (JStr "📚")]>
  (<["color" := or_else (get courseData "color") (JStr "#3B82F6")]>
  (<["totalLevels" := or_else (get courseData "totalLevels") (JNum 1)]>
  (<["estimatedTime" :=
       or_else (get courseData "estimatedTime") (JStr "1 hour")]>
  (<["difficulty" := or_else (get courseData "difficulty") (JStr "Beginner")]>
  (<["tags" := or_else (get courseData "tags") (JArr [])]>
  (<["isLocked" := or_else (get courseData "isLocked") (JBool false)]>
  (<["restrictions" := or_else (get courseData "restrictions") (JObj ∅)]>
  (<["levelSettings" := or_else (get courseData "levelSettings") (JObj ∅)]>
  (<["createdAt" := JStr now]> ∅))))))))))))).

(** [create]: the course returned and the file saved. *)
Definition create (courseData : object) (courses : list object)
  : object * list object :=
  let course := newCourse courseData in
  (course, courses ++ [course]).

(** [update]: [null] for an unknown id, otherwise
    [{ ...courses[index], ...courseData, id, updatedAt }]. *)
Definition update (id : jsval) (courseData : object) (courses : list object)
  : option object * list object :=
  match findIndex (has_id id) courses with
  | None => (None, courses)
  | Some index =>
      let course :=
        <["updatedAt" := JStr now]>
          (<["id" := id]> (courseData ∪ default ∅ (courses !! index))) in
      (Some course, <[index := course]> courses)
  end.

(** [delete]: [courses.filter(c => c.id !== id)]. *)
Definition delete (id : jsval) (courses : list object) : list object :=
  List.filter (fun c => negb (has_id id c)) courses.

Definition count (courses : list object) : nat := length courses.

End Offline.

Lemma find_filter_negb {A} (p : A -> bool) l :
  find p (List.filter (fun x => negb (p x)) l) = None.
Proof.
  induction l as [|a l IH]; [reflexivity|]. simpl.
  destruct (p a) eqn:E; simpl; [exact IH|]. by rewrite E.
Qed.

Lemma delete_count id courses :
  length (delete id courses) + count_id id courses = length courses.
Proof.
  unfold delete, count_id, ids.
  induction courses as [|c cs IH]; [reflexivity|].
  rewrite fmap_cons. simpl. unfold has_id at 1.
  destruct (strict_eq (get c "id") id); simpl; lia.
Qed.

Definition sample_data : object :=
  <["id" := JStr "html"]> (<["title" := JStr "HTML again"]> ∅).

Definition sample_courses : list object :=
  [<["id" := JStr "html"]> (<["title" := JStr "HTML"]> ∅);
   <["id" := JStr "css"]> ∅].

(** X25. [create] appends without looking at the ids of the file. The course it
    returns has a truthy id and no falsy icon, colour, number of levels,
    estimated time, difficulty, tags, restrictions or level settings; but
    when the file already holds a course with that id, [findById] keeps
    answering the older one. *)
Theorem create_does_not_replace
    (now date_now : string) (courseData : object) (courses : list object) :
  let out := create now date_now courseData courses in
  let id := get out.1 "id" in
  out.2 = courses ++ [out.1]
  /\ count out.2 = S (count courses)
  /\ id = or_else (get courseData "id") (JStr (fresh_id date_now))
  /\ (forall k, In k ["id"; "icon"; "color"; "totalLevels"; "estimatedTime";
                      "difficulty"; "tags"; "restrictions"; "levelSettings"] ->
        truthy (get out.1 k) = true)
  /\ findById id out.2
     = match find (has_id id) courses with
       | Some older => JObj older
       | None => if strict_eq id id then JObj out.1 else JNull
       end.
Proof.
  intros out id.
  assert (Hid : id = or_else (get courseData "id") (JStr (fresh_id date_now))).
  { unfold id, out, create, newCourse, get. by simplify_map_eq. }
  split; [reflexivity|]. split.
  { unfold count, out, create. cbn [snd]. rewrite length_app. simpl. lia. }
  split; [exact Hid|]. split.
  - intros k Hk. unfold out, create, newCourse, get. cbn [fst].
    cbn [In] in Hk.
    repeat (destruct Hk as [<-|Hk];
            [simplify_map_eq; apply Assets.truthy_or_else; reflexivity|]).
    destruct Hk.
  - unfold findById, out, create. cbn [fst snd]. rewrite Questions.find_app.
    fold out. fold id.
    destruct (find (has_id id) courses); [reflexivity|].
    cbn [find].
    assert (E : has_id id (newCourse now date_now courseData) = strict_eq id id)
      by reflexivity.
    rewrite E. by destruct (strict_eq id id).
Qed.

(** X26. [delete] removes every course with the id, not only the first: no
    course with the id is left, [findById] answers [null], the count drops
    by the number of courses that had the id, and the other courses stay. *)
Theorem delete_removes_every (id : jsval) (courses : list object) :
  findById id (delete id courses) = JNull
  /\ count_id id (delete id courses) = 0
  /\ count (delete id courses) + count_id id courses = count courses
  /\ (forall c, In c (delete id courses)
                <-> In c courses /\ has_id id c = false).
Proof.
  split; [|split; [|split]].
  - unfold findById, delete. by rewrite find_filter_negb.
  - apply count_id_none. apply Questions.find_findIndex_None.
    apply find_filter_negb.
  - apply delete_count.
  - intros c. unfold delete. rewrite filter_In, negb_true_iff. tauto.
Qed.

(** X27. [update] never creates and never changes an id: for an unknown id it
    answers [null] and leaves the file; otherwise the course it answers is
    the one [findById] then finds, it carries the id asked for and the new
    [updatedAt], every other field comes from the data when the data has
    it and from the stored course otherwise, and the ids of the file are
    as before. *)
Theorem update_then_findById
    (now : string) (id : jsval) (courseData : object)
    (courses courses' : list object) (course : object) :
  update now id courseData courses = (Some course, courses') ->
  findById id courses' = JObj course
  /\ get course "id" = id
  /\ get course "updatedAt" = JStr now
  /\ ids courses' = ids courses
  /\ (exists index old,
        findIndex (has_id id) courses = Some index
        /\ courses !! index = Some old
        /\ courses' = <[index := course]> courses
        /\ forall k, k <> "id" -> k <> "updatedAt" ->
             course !! k = match courseData !! k with
                           | Some v => Some v
                           | None => old !! k
                           end)
  /\ (forall other, update now other courseData courses = (None, courses)
                    <-> findIndex (has_id other) courses = None).
Proof.
  unfold update at 1.
  destruct (findIndex (has_id id) courses) as [i|] eqn:Hi; [|discriminate].
  destruct (findIndex_Some _ _ _ Hi) as (old & Hold & Hp & _).
  rewrite Hold. cbn [default]. intros [= <- <-].
  set (course := <["updatedAt" := JStr now]>
                   (<["id" := id]> (courseData ∪ old))).
  assert (Hcid : get course "id" = id).
  { unfold course, get. by simplify_map_eq. }
  assert (Hsame : forall v, has_id v course = has_id v old).
  { intros v. unfold has_id. rewrite Hcid.
    by rewrite (Questions.has_id_get _ _ Hp). }
  assert (Hlt : i < length courses) by (by eapply lookup_lt_Some).
  split; [|split; [exact Hcid|split; [|split; [|split]]]].
  - unfold findById. rewrite Restrictions.find_lookup.
    rewrite (Restrictions.findIndex_insert_same _ _ old) by auto.
    rewrite Hi. simpl. by rewrite list_lookup_insert_eq.
  - unfold course, get. by simplify_map_eq.
  - unfold ids. rewrite list_fmap_insert, Hcid.
    apply list_insert_id. rewrite list_lookup_fmap, Hold. simpl.
    by rewrite (Questions.has_id_get _ _ Hp).
  - exists i, old. repeat split; auto.
    intros k Hk1 Hk2. unfold course.
    rewrite !lookup_insert_ne by congruence.
    rewrite lookup_union. destruct (courseData !! k), (old !! k); reflexivity.
  - intros other. unfold update.
    destruct (findIndex (has_id other) courses); split; congruence.
Qed.

(** The stored course [html] gets a new title. *)
Lemma update_then_findById_witness :
  let out := update "t1" (JStr "html") sample_data sample_courses in
  findById (JStr "html") out.2 = JObj (default ∅ out.1)
  /\ get (default ∅ out.1) "title" = JStr "HTML again".
Proof.
  intros out.
  assert (E : out = (Some (default ∅ out.1), out.2)) by reflexivity.
  split; [|reflexivity].
  exact (proj1 (update_then_findById "t1" (JStr "html") sample_data
                  sample_courses out.2 (default ∅ out.1) E)).
Defined.

End CourseModel.

(** ** The shape of a course as the list and detail routes answer it *)

Module CourseFormat.
Import JS.

(** [{ ...course, imageUrl: course.image_url || course.imageUrl, ... }],
    the same literal in [GET /] and in [GET /:courseId]. *)
Definition formatCourse (course : object) : object :=
  <["imageUrl" := or_else (get course "image_url") (get course "imageUrl")]>
  (<["totalLevels" :=
       or_else (get course "total_levels") (get course "totalLevels")]>
  (<["totalPoints" :=
       or_else (get course "total_points") (get course "totalPoints")]>
  (<["estimatedTime" :=
       or_else (get course "estimated_time") (get course "estimatedTime")]>
  (<["createdAt" := or_else (get course "created_at") (get course "createdAt")]>
     course)))).

(** [GET /]: [courses.map(course => ...)]. *)
Definition formattedCourses (courses : list object) : list object :=
  formatCourse <$> courses.

Definition camel_names : list string :=
  ["imageUrl"; "totalLevels"; "totalPoints"; "estimatedTime"; "createdAt"].

Definition snake_names : list string :=
  ["image_url"; "total_levels"; "total_points"; "estimated_time";
   "created_at"].

Ltac look :=
  repeat first [rewrite lookup_insert_eq | rewrite lookup_insert_ne by done].

(** X28. Formatting only touches the five camel-case fields, and a second pass
    changes nothing. A course that has none of the five snake-case
    columns, as the courses of the JSON file, reads after formatting as it
    did before, field by field; one course is answered per stored
    course. *)
Theorem formatCourse_settles (course : object) (courses : list object) :
  formatCourse (formatCourse course) = formatCourse course
  /\ (forall k, ~ In k camel_names -> formatCourse course !! k = course !! k)
  /\ ((forall s, In s snake_names -> truthy (get course s) = false) ->
      forall k, get (formatCourse course) k = get course k)
  /\ length (formattedCourses courses) = length courses.
Proof.
  assert (Hor : forall a b, or_else a (or_else a b) = or_else a b).
  { intros a b. unfold or_else. by destruct (truthy a) eqn:E; rewrite ?E. }
  split; [|split; [|split]].
  - unfold formatCourse at 1.
    assert (S : forall s, In s snake_names ->
                get (formatCourse course) s = get course s).
    { intros s Hs. unfold formatCourse, get. cbn [In snake_names] in Hs.
      repeat (destruct Hs as [<-|Hs]; [by simplify_map_eq|]). destruct Hs. }
    assert (C : forall s c, In (s, c) (zip snake_names camel_names) ->
                get (formatCourse course) c
                = or_else (get course s) (get course c)).
    { intros s c Hc. unfold formatCourse, get. cbn in Hc.
      repeat (destruct Hc as [[= <- <-]|Hc]; [by simplify_map_eq|]).
      destruct Hc. }
    rewrite (S "image_url"), (S "total_levels"), (S "total_points"),
      (S "estimated_time"), (S "created_at") by (cbn; tauto).
    rewrite (C "image_url" "imageUrl"), (C "total_levels" "totalLevels"),
      (C "total_points" "totalPoints"), (C "estimated_time" "estimatedTime"),
      (C "created_at" "createdAt") by (cbn; tauto).
    rewrite !Hor. unfold formatCourse.
    apply map_eq. intros k.
    destruct (decide (k = "imageUrl")) as [->|N1]; [by look|].
    destruct (decide (k = "totalLevels")) as [->|N2]; [by look|].
    destruct (decide (k = "totalPoints")) as [->|N3]; [by look|].
    destruct (decide (k = "estimatedTime")) as [->|N4]; [by look|].
    destruct (decide (k = "createdAt")) as [->|N5]; [by look|].
    by rewrite !lookup_insert_ne by done.
  - intros k Hk. unfold formatCourse. cbn [In camel_names] in Hk.
    rewrite !lookup_insert_ne by (intros <-; tauto). reflexivity.
  - intros Hs k. unfold formatCourse, get.
    assert (F : forall s c, In s snake_names ->
                or_else (get course s) (get course c) = get course c).
    { intros s c H. unfold or_else. by rewrite (Hs s H). }
    unfold get in F.
    destruct (decide (k = "imageUrl")) as [->|N1];
      [rewrite lookup_insert_eq; apply F; cbn; tauto|].
    rewrite (lookup_insert_ne _ "imageUrl" k) by done.
    destruct (decide (k = "totalLevels")) as [->|N2];
      [rewrite lookup_insert_eq; apply F; cbn; tauto|].
    rewrite (lookup_insert_ne _ "totalLevels" k) by done.
    destruct (decide (k = "totalPoints")) as [->|N3];
      [rewrite lookup_insert_eq; apply F; cbn; tauto|].
    rewrite (lookup_insert_ne _ "totalPoints" k) by done.
    destruct (decide (k = "estimatedTime")) as [->|N4];
      [rewrite lookup_insert_eq; apply F; cbn; tauto|].
    rewrite (lookup_insert_ne _ "estimatedTime" k) by done.
    destruct (decide (k = "createdAt")) as [->|N5];
      [rewrite lookup_insert_eq; apply F; cbn; tauto|].
    by rewrite (lookup_insert_ne _ "createdAt" k) by done.
  - unfold formattedCourses. apply length_fmap.
Qed.

End CourseFormat.

(** ** Points and unlocked levels *)

Module Progress.
Import JS LevelQuestions.

(** An entry of [courses] inside a user's progress. *)
Record CourseProgress : Type := {
  cp_courseId : jsval;
  completedLevels : list jsval;
  currentLevel : jsval;
  cp_totalPoints : jsval
}.

(** An entry of [user-progress.json]. *)
Record UserProgress : Type := {
  up_userId : string;
  courses : list CourseProgress;
  up_totalPoints : jsval;
  achievements : list jsval
}.

(** The body of the answer of [POST /progress/:userId/complete]. *)
Record answer : Type := {
  levelComplete : bool;
  nextLevelUnlocked : bool;
  nextLevel : jsval;
  completedCount : nat;
  totalQuestions : nat;
  points : jsval;
  totalPoints : jsval
}.

Inductive response : Type :=
  | MissingFields                 (* 400 *)
  | AssignmentNotFound            (* 404 *)
  | ProgressUpdated (body : answer).

(** [{ userId, courses: [], totalPoints: 0, achievements: [] }] *)
Definition empty_progress (userId : string) : UserProgress :=
  {| up_userId := userId; courses := []; up_totalPoints := JNum 0;
     achievements := [] |}.

(** [{ courseId, completedLevels: [], currentLevel: 1, totalPoints: 0 }] *)
Definition new_course (courseId : jsval) : CourseProgress :=
  {| cp_courseId := courseId; completedLevels := []; currentLevel := JNum 1;
     cp_totalPoints := JNum 0 |}.

Definition has_user (userId : string) (p : UserProgress) : bool :=
  String.eqb (up_userId p) userId.

Definition has_course (courseId : jsval) (c : CourseProgress) : bool :=
  strict_eq (cp_courseId c) courseId.

(** [GET /progress/:userId] *)
Definition getProgress (userId : string) (allProgress : list UserProgress)
  : UserProgress :=
  default (empty_progress userId) (find (has_user userId) allProgress).

(** [score || question?.points || 100], the question looked up in the
    challenges file by the id of the body. *)
Definition points_of (score questionId : jsval) (challenges : list object)
  : jsval :=
  or_else
    (or_else score
       (match find (BulkUpload.has_id questionId) challenges with
        | Some question => get question "points"
        | None => JUndefined
        end))
    (JNum 100).

Section Route.

(** The clock, the conversion of a value inside a template literal,
    [parseInt] and [+] belong to the platform. [parseInt] answers a number
    or [NaN]. *)
Variable now : nat -> string.
Variable toString : jsval -> string.
Variable parseInt : jsval -> jsval.
Variable plus : jsval -> jsval -> jsval.

(** [Math.min(parseInt(level) + 1, 6)] *)
Definition next_level (level : jsval) : jsval :=
  match parseInt level with
  | JNum n => JNum (Z.min (n + 1) 6)
  | _ => JNaN
  end.

(** What the route does to the progress of the course. *)
Definition award (level pts : jsval) (complete : bool) (c : CourseProgress)
  : CourseProgress :=
  let unlock :=
    complete && negb (includes (completedLevels c) (parseInt level)) in
  {| cp_courseId := cp_courseId c;
     completedLevels :=
       if unlock then completedLevels c ++ [parseInt level]
       else completedLevels c;
     currentLevel := if unlock then next_level level else currentLevel c;
     cp_totalPoints := plus (cp_totalPoints c) pts |}.

(** Find or create the progress of the course, then update it in place. *)
Definition update_courses (courseId level pts : jsval) (complete : bool)
    (cs : list CourseProgress) : list CourseProgress :=
  match findIndex (has_course courseId) cs with
  | Some i =>
      match cs !! i with
      | Some courseProgress =>
          <[i := award level pts complete courseProgress]> cs
      | None => cs
      end
  | None => cs ++ [award level pts complete (new_course courseId)]
  end.

Definition update_user (courseId level pts : jsval) (complete : bool)
    (p : UserProgress) : UserProgress :=
  {| up_userId := up_userId p;
     courses := update_courses courseId level pts complete (courses p);
     up_totalPoints := plus (up_totalPoints p) pts;
     achievements := achievements p |}.

(** Find or create the progress of the user, then update it in place. *)
Definition update_progress (userId : string) (courseId level pts : jsval)
    (complete : bool) (allProgress : list UserProgress)
  : list UserProgress :=
  match findIndex (has_user userId) allProgress with
  | Some i =>
      match allProgress !! i with
      | Some userProgress =>
          <[i := update_user courseId level pts complete userProgress]>
            allProgress
      | None => allProgress
      end
  | None =>
      allProgress
      ++ [update_user courseId level pts complete (empty_progress userId)]
  end.

(** [courseProgress.totalPoints] as the answer reports it. *)
Definition course_total (courseId : jsval) (p : UserProgress) : jsval :=
  cp_totalPoints
    (default (new_course courseId) (find (has_course courseId) (courses p))).

(** The route on its three files: the answer, the assignments and the
    progress saved. *)
Definition completeQuestion (c : completion) (score : jsval)
    (challenges : list object) (assignments : list Assignment)
    (allProgress : list UserProgress)
  : response * list Assignment * list UserProgress :=
  if negb (truthy (c_questionId c)) || negb (truthy (c_courseId c))
     || negb (truthy (c_level c))
  then (MissingFields, assignments, allProgress)
  else
    let k := assignmentKey (c_userId c) (toString (c_courseId c))
               (toString (c_level c)) in
    match findIndex (has_key k) assignments with
    | None => (AssignmentNotFound, assignments, allProgress)
    | Some assignmentIndex =>
        match assignments !! assignmentIndex with
        | None => (AssignmentNotFound, assignments, allProgress)
        | Some assignment =>
            let assignment' := mark_completed now c assignment in
            let complete :=
              length (completedQuestions assignment')
              =? length (assignedQuestions assignment') in
            let pts := points_of score (c_questionId c) challenges in
            (ProgressUpdated
               {| levelComplete := complete;
                  nextLevelUnlocked := complete;
                  nextLevel :=
                    if complete then next_level (c_level c)
                    else parseInt (c_level c);
                  completedCount := length (completedQuestions assignment');
                  totalQuestions := length (assignedQuestions assignment');
                  points := pts;
                  totalPoints :=
                    plus (course_total (c_courseId c)
                            (getProgress (c_userId c) allProgress)) pts |},
             <[assignmentIndex := assignment']> assignments,
             update_progress (c_userId c) (c_courseId c) (c_level c) pts
               complete allProgress)
        end
    end.

End Route.

Lemma find_insert_other {A} (q : A -> bool) i (x x' : A) l :
  l !! i = Some x -> q x = false -> q x' = false ->
  find q (<[i := x']> l) = find q l.
Proof.
  revert i. induction l as [|a l IH]; intros i Hi Hx Hx'; [reflexivity|].
  destruct i as [|i]; simpl in *.
  - injection Hi as ->. by rewrite Hx, Hx'.
  - destruct (q a); [reflexivity|]. by apply (IH i).
Qed.

(** Find-or-create followed by an update in place, as seen by [find]. *)
Lemma find_after_update {A} (p : A -> bool) (f : A -> A) (d : A) l :
  (forall x, p (f x) = p x) -> p d = true ->
  find p (match findIndex p l with
          | Some i => match l !! i with
                      | Some x => <[i := f x]> l
                      | None => l
                      end
          | None => l ++ [f d]
          end)
  = Some (f (default d (find p l))).
Proof.
  intros Hf Hd. rewrite (Restrictions.find_lookup p l).
  destruct (findIndex p l) as [i|] eqn:Hi.
  - destruct (findIndex_Some _ _ _ Hi) as (x & Hx & Hp & _).
    rewrite Hx. simpl. rewrite Hx. simpl.
    rewrite Restrictions.find_lookup.
    rewrite (Restrictions.findIndex_insert_same _ _ x) by auto.
    rewrite Hi. simpl. apply list_lookup_insert_eq. by eapply lookup_lt_Some.
  - simpl. rewrite Questions.find_app.
    apply Questions.find_findIndex_None in Hi. rewrite Hi. simpl.
    by rewrite Hf, Hd.
Qed.

Lemma find_after_update_other {A} (p q : A -> bool) (f : A -> A) (d : A) l :
  (forall x, q (f x) = q x) -> (forall x, p x = true -> q x = false) ->
  q d = false ->
  find q (match findIndex p l with
          | Some i => match l !! i with
                      | Some x => <[i := f x]> l
                      | None => l
                      end
          | None => l ++ [f d]
          end)
  = find q l.
Proof.
  intros Hf Hpq Hd.
  destruct (findIndex p l) as [i|] eqn:Hi.
  - destruct (findIndex_Some _ _ _ Hi) as (x & Hx & Hp & _).
    rewrite Hx. apply (find_insert_other q i x); auto. rewrite Hf. auto.
  - rewrite Questions.find_app. destruct (find q l); [reflexivity|].
    simpl. by rewrite Hf, Hd.
Qed.

Lemma getProgress_update plus parseInt userId courseId level pts complete all :
  getProgress userId
    (update_progress parseInt plus userId courseId level pts complete all)
  = update_user parseInt plus courseId level pts complete
      (getProgress userId all).
Proof.
  unfold getProgress, update_progress.
  rewrite (find_after_update (has_user userId)
             (update_user parseInt plus courseId level pts complete)
             (empty_progress userId)); [reflexivity|reflexivity|].
  apply String.eqb_refl.
Qed.

Lemma getProgress_update_other plus parseInt userId other courseId level pts
    complete all :
  other <> userId ->
  getProgress other
    (update_progress parseInt plus userId courseId level pts complete all)
  = getProgress other all.
Proof.
  intros Hne. unfold getProgress, update_progress.
  rewrite (find_after_update_other (has_user userId) (has_user other)
             (update_user parseInt plus courseId level pts complete)
             (empty_progress userId)); [reflexivity|reflexivity| |].
  - intros x Hx. unfold has_user in *. apply String.eqb_eq in Hx.
    apply String.eqb_neq. congruence.
  - unfold has_user. simpl. apply String.eqb_neq. congruence.
Qed.

Lemma course_total_update plus parseInt courseId level pts complete p :
  strict_eq courseId courseId = true ->
  course_total courseId
    (update_user parseInt plus courseId level pts complete p)
  = plus (course_total courseId p) pts.
Proof.
  intros Hprim. unfold course_total, update_user, update_courses. simpl.
  rewrite (find_after_update (has_course courseId)
             (award parseInt plus level pts complete)
             (new_course courseId)); [reflexivity|reflexivity|exact Hprim].
Qed.

Lemma points_of_truthy score questionId challenges :
  truthy (points_of score questionId challenges) = true.
Proof. unfold points_of. by apply Assets.truthy_or_else. Qed.

Definition answer_of (r : response) : answer :=
  match r with
  | ProgressUpdated body => body
  | _ => {| levelComplete := false; nextLevelUnlocked := false;
            nextLevel := JUndefined; completedCount := 0;
            totalQuestions := 0; points := JUndefined;
            totalPoints := JUndefined |}
  end.

Definition sample_question (tick : nat) : completion :=
  {| c_userId := "ann"; c_questionId := JStr "q2"; c_courseId := JStr "html";
     c_level := JNum 1; c_tick := tick; c_tick_done := S tick |}.

(** Integer addition stands for [+] in the examples. *)
Definition sample_plus (a b : jsval) : jsval :=
  match a, b with
  | JNum x, JNum y => JNum (x + y)
  | _, _ => JNaN
  end.

(** The challenges file of the examples: the question completed is worth
    40 points. *)
Definition sample_challenges : list object :=
  [<["id" := JStr "q1"]> (<["points" := JNum 10]> ∅);
   <["id" := JStr "q2"]> (<["points" := JNum 40]> ∅)].

Definition sample_route_with (score : jsval) (challenges : list object)
    (c : completion) (assignments : list Assignment)
    (allProgress : list UserProgress)
  : response * list Assignment * list UserProgress :=
  completeQuestion (fun n => pretty n)
    (fun v => match v with JStr s => s | JNum n => pretty n | _ => "" end)
    (fun v => v) sample_plus c score challenges assignments allProgress.

Definition sample_route (c : completion) (assignments : list Assignment)
    (allProgress : list UserProgress)
  : response * list Assignment * list UserProgress :=
  sample_route_with (JNum 0) [] c assignments allProgress.

(** X29. An accepted completion always awards points, and never a falsy
    amount: the score when it is truthy; otherwise the points of the first
    stored question with the id of the body, when there is one and its
    points are truthy; otherwise 100. So a score of 0 is not awarded as
    0. The assignments are saved as the assignment model has them. The
    user's total grows by the points (from 0 for a user met for the first
    time), so does the total of the course, which is the total the answer
    reports, and the progress of every other user stays as it was. *)
Theorem completion_awards_points
    (now : nat -> string) (toString : jsval -> string)
    (parseInt : jsval -> jsval) (plus : jsval -> jsval -> jsval)
    (c : completion) (score : jsval) (challenges : list object)
    (assignments assignments' : list Assignment)
    (allProgress allProgress' : list UserProgress) (body : answer) :
  completeQuestion now toString parseInt plus c score challenges assignments
    allProgress = (ProgressUpdated body, assignments', allProgress') ->
  let before := getProgress (c_userId c) allProgress in
  let after := getProgress (c_userId c) allProgress' in
  assignments' = complete now toString c assignments
  /\ truthy (points body) = true
  /\ (truthy score = true -> points body = score)
  /\ (truthy score = false ->
      points body
      = match find (BulkUpload.has_id (c_questionId c)) challenges with
        | Some question =>
            if truthy (get question "points") then get question "points"
            else JNum 100
        | None => JNum 100
        end)
  /\ up_totalPoints after = plus (up_totalPoints before) (points body)
  /\ (strict_eq (c_courseId c) (c_courseId c) = true ->
      course_total (c_courseId c) after = totalPoints body)
  /\ totalPoints body
     = plus (course_total (c_courseId c) before) (points body)
  /\ nextLevelUnlocked body = levelComplete body
  /\ (forall other, other <> c_userId c ->
        getProgress other allProgress' = getProgress other allProgress).
Proof.
  unfold completeQuestion, complete.
  destruct (_ || _); [discriminate|].
  destruct (findIndex _ assignments) as [i|]; [|discriminate].
  destruct (assignments !! i) as [a|]; [|discriminate].
  intros H. injection H as <- <- <-.
  cbn [points totalPoints levelComplete nextLevelUnlocked].
  split; [reflexivity|]. split; [apply points_of_truthy|].
  split; [intros Hs; unfold points_of, or_else; by rewrite Hs, Hs|].
  split.
  { intros Hs. unfold points_of, or_else. rewrite Hs.
    by destruct (find _ challenges). }
  rewrite getProgress_update.
  split; [reflexivity|]. split.
  { intros Hprim. by apply course_total_update. }
  split; [reflexivity|]. split; [reflexivity|].
  intros other Hne. by apply getProgress_update_other.
Qed.

(** The second of two assigned questions is completed by a user without
    progress, with a score of 0: the 40 points of the question are
    awarded. *)
Lemma completion_awards_points_witness :
  let out := sample_route_with (JNum 0) sample_challenges (sample_question 7)
               [Completion.sample_assignment] [] in
  out = (ProgressUpdated (answer_of out.1.1), out.1.2, out.2)
  /\ points (answer_of out.1.1) = JNum 40
  /\ up_totalPoints (getProgress "ann" out.2) = JNum 40.
Proof.
  intros out.
  assert (E : out = (ProgressUpdated (answer_of out.1.1), out.1.2, out.2))
    by reflexivity.
  split; [exact E|].
  destruct (completion_awards_points _ _ _ _ _ _ _ _ _ _ _ _ E)
    as (_ & _ & _ & P & T & _).
  split; [exact (P eq_refl)|].
  etransitivity; [exact T|reflexivity].
Defined.

(** The points awarded for the sample question: the score, else the
    points of the question, else 100. *)
Example points_of_sample :
  let awarded score challenges :=
    points (answer_of
              (sample_route_with score challenges (sample_question 7)
                 [Completion.sample_assignment] []).1.1) in
  awarded (JNum 85) sample_challenges = JNum 85
  /\ awarded (JNum 0) sample_challenges = JNum 40
  /\ awarded JUndefined sample_challenges = JNum 40
  /\ awarded JUndefined [<["id" := JStr "q2"]> ∅] = JNum 100
  /\ awarded JUndefined [] = JNum 100.
Proof. vm_compute. repeat split; reflexivity. Qed.

(** X30. Points are awarded per request, not per question: when the request
    for a question is accepted and then sent again, the second is accepted
    too, the completed ids and their count stay as after the first, and
    the same points are added a second time to the total of the user. *)
Theorem repeat_completion_awards_again
    (now : nat -> string) (toString : jsval -> string)
    (parseInt : jsval -> jsval) (plus : jsval -> jsval -> jsval)
    (c c' : completion) (score : jsval) (challenges : list object)
    (assignments assignments1 : list Assignment)
    (allProgress allProgress1 : list UserProgress) (first : answer) :
  completeQuestion now toString parseInt plus c score challenges assignments
    allProgress = (ProgressUpdated first, assignments1, allProgress1) ->
  Completion.primitive (c_questionId c) = true ->
  c_userId c' = c_userId c -> c_questionId c' = c_questionId c ->
  c_courseId c' = c_courseId c -> c_level c' = c_level c ->
  exists second assignments2 allProgress2,
    completeQuestion now toString parseInt plus c' score challenges
      assignments1 allProgress1
    = (ProgressUpdated second, assignments2, allProgress2)
    /\ completedCount second = completedCount first
    /\ completedQuestions <$> assignments2 = completedQuestions <$> assignments1
    /\ points second = points first
    /\ up_totalPoints (getProgress (c_userId c) allProgress2)
       = plus (plus (up_totalPoints (getProgress (c_userId c) allProgress))
                 (points first)) (points first).
Proof.
  unfold completeQuestion at 1.
  destruct (_ || _) eqn:Hv; [discriminate|].
  destruct (findIndex _ assignments) as [i|] eqn:Hi; [|discriminate].
  destruct (findIndex_Some _ _ _ Hi) as (a & Ha & Hk & _).
  rewrite Ha. intros [= <- <- <-] Hprim Hu Hq Hc Hl.
  cbn [completedCount points].
  set (a1 := mark_completed now c a).
  assert (Hlt : i < length assignments) by (by eapply lookup_lt_Some).
  unfold completeQuestion. rewrite Hu, Hq, Hc, Hl, Hv.
  rewrite (Restrictions.findIndex_insert_same _ _ a) by (exact Ha || reflexivity).
  rewrite Hi, list_lookup_insert_eq by exact Hlt.
  pose proof (Completion.repeat_keeps_completed now c c' a Hprim Hq) as Hsame.
  fold a1 in Hsame.
  eexists _, _, _. split; [reflexivity|]. cbn [completedCount points].
  split; [by rewrite Hsame|]. split.
  - rewrite list_insert_insert_eq, !list_fmap_insert. by rewrite Hsame.
  - split; [reflexivity|].
    rewrite getProgress_update. cbn [update_user up_totalPoints].
    by rewrite getProgress_update.
Qed.

(** The same request twice: one completed question more, the points
    twice. *)
Lemma repeat_completion_awards_again_witness :
  let first := sample_route (sample_question 7)
                 [Completion.sample_assignment] [] in
  let second := sample_route (sample_question 20) first.1.2 first.2 in
  up_totalPoints (getProgress "ann" first.2) = JNum 100
  /\ up_totalPoints (getProgress "ann" second.2) = JNum 200
  /\ completedCount (answer_of second.1.1) = 2.
Proof.
  intros first second.
  assert (E : first = (ProgressUpdated (answer_of first.1.1), first.1.2,
                       first.2)) by reflexivity.
  destruct (repeat_completion_awards_again _ _ _ _ (sample_question 7)
              (sample_question 20) _ _ _ _ _ _ _ E eq_refl eq_refl eq_refl
              eq_refl eq_refl)
    as (r2 & a2 & p2 & E2 & _ & _ & _ & T).
  assert (S2 : second = (ProgressUpdated r2, a2, p2)) by exact E2.
  split; [reflexivity|]. split; [|reflexivity].
  rewrite S2. cbn [snd]. etransitivity; [exact T|reflexivity].
Defined.

End Progress.
